(** * memgen: the ESP memory generator

    A shallow embedding of [memgen/memgen.py]: the operation parser
    ([parse_op]), the two input readers ([read_techfile], [read_infile]),
    the banking planner ([memory.gen], made of [__find_hbanks] and
    [__find_vbanks]), the wrapper emitter ([memory.write_verilog]) and the
    script that runs them.  Of the lines printed for information only those
    of [memory.print] are modelled; a file that cannot be opened is not.

    Python values are modelled as follows.
    - [int] is [Z]; [%], [>>] and [&] are [Z.modulo], [Z.shiftr], [Z.land].
    - [float] is IEEE binary64, taken from the Standard Library's executable
      specification [spec_float] with [prec = 53] and [emax = 1024].  A true
      division [a / b] of two ints is the correctly rounded quotient.
    - [str] is [string], restricted to ASCII text.
    - An exception that nothing catches, and [sys.exit], end the run: every
      fallible function returns a [result]. *)

From Stdlib Require Import ZArith List Bool Ascii String Lia.
From Stdlib Require Import Floats.SpecFloat.
Import ListNotations.

Open Scope string_scope.
Open Scope list_scope.
Open Scope Z_scope.

Notation "s1 +++ s2" := (String.append s1 s2)
  (at level 60, right associativity).

(** ** The Python runtime the program relies on *)

Module Py.

(** The exceptions the modelled code can raise. *)
Inductive exn : Type :=
| IndexError
| ValueError
| ZeroDivisionError
| OverflowError
| AttributeError.

(** How a computation ends: with a value, in [sys.exit status] after
    [message] was printed, or in an exception that is never caught (the
    program has no [try] around any modelled statement). *)
Inductive result (A : Type) : Type :=
| Ok (a : A)
| Exit (status : Z) (message : string)
| Raise (e : exn).

Arguments Ok {A} a.
Arguments Exit {A} status message.
Arguments Raise {A} e.

Definition bind {A B : Type} (c : result A) (k : A -> result B) : result B :=
  match c with
  | Ok a => k a
  | Exit st msg => Exit st msg
  | Raise e => Raise e
  end.

(** Whether a computation ended with a value. *)
Definition returned {A : Type} (r : result A) : bool :=
  match r with
  | Ok _ => true
  | _ => false
  end.

(** The status the interpreter hands to the operating system. *)
Definition exit_status {A : Type} (r : result A) : Z :=
  match r with
  | Ok _ => 0
  | Exit st _ => st
  | Raise _ => 1
  end.

(** [for x in l: body], the body threading a state and able to fail. *)
Fixpoint for_each {A S : Type} (body : S -> A -> result S) (l : list A) (s : S)
  : result S :=
  match l with
  | [] => Ok s
  | x :: l' => bind (body s x) (for_each body l')
  end.

(** [range(lo, hi)]. *)
Definition range (lo hi : Z) : list Z :=
  map (fun k => lo + Z.of_nat k) (seq 0 (Z.to_nat (hi - lo))).

(** [l[i]] for a non-negative literal index. *)
Definition index {A : Type} (l : list A) (i : nat) : result A :=
  match nth_error l i with
  | Some a => Ok a
  | None => Raise IndexError
  end.

(** [l[i]] for an int index: a negative one counts from the end. *)
Definition item {A : Type} (l : list A) (i : Z) : result A :=
  let n := Z.of_nat (List.length l) in
  if (0 <=? i) && (i <? n) then index l (Z.to_nat i)
  else if (- n <=? i) && (i <? 0) then index l (Z.to_nat (n + i))
  else Raise IndexError.

(** [a % b] on ints. *)
Definition mod_ (a b : Z) : result Z :=
  if b =? 0 then Raise ZeroDivisionError else Ok (a mod b).

(** The texts a loop writes, one element after the other. *)
Fixpoint concat_map {A B : Type} (f : A -> result (list B)) (l : list A)
  : result (list B) :=
  match l with
  | [] => Ok []
  | x :: l' =>
      bind (f x) (fun y => bind (concat_map f l') (fun ys => Ok (y ++ ys)))
  end.

(** *** Strings *)

Definition quote : string := String (ascii_of_nat 34) EmptyString.

Definition newline : string := String (ascii_of_nat 10) EmptyString.

(** [str.isspace] on ASCII: tab, line feed, vertical tab, form feed,
    carriage return, the four separators 28..31 and the blank. *)
Definition isspace (c : ascii) : bool :=
  let n := nat_of_ascii c in
  ((9 <=? n)%nat && (n <=? 13)%nat) || ((28 <=? n)%nat && (n <=? 32)%nat).

Definition isdigit (c : ascii) : bool :=
  let n := nat_of_ascii c in (48 <=? n)%nat && (n <=? 57)%nat.

Definition islower (c : ascii) : bool :=
  let n := nat_of_ascii c in (97 <=? n)%nat && (n <=? 122)%nat.

Definition isupper (c : ascii) : bool :=
  let n := nat_of_ascii c in (65 <=? n)%nat && (n <=? 90)%nat.

Definition digit_value (c : ascii) : Z := Z.of_nat (nat_of_ascii c) - 48.

Definition lower (c : ascii) : ascii :=
  if isupper c then ascii_of_nat (nat_of_ascii c + 32) else c.

Definition snoc (s : string) (c : ascii) : string := s +++ String c EmptyString.

(** [s.split()]: the maximal runs of non-blank characters. *)
Fixpoint split_ws (s cur : string) : list string :=
  match s with
  | EmptyString => match cur with EmptyString => [] | _ => [cur] end
  | String c s' =>
      if isspace c
      then match cur with
           | EmptyString => split_ws s' EmptyString
           | _ => cur :: split_ws s' EmptyString
           end
      else split_ws s' (snoc cur c)
  end.

Definition split (s : string) : list string := split_ws s EmptyString.

(** [s.split(sep)] for a one-character separator. *)
Fixpoint split_sep (sep : ascii) (s cur : string) : list string :=
  match s with
  | EmptyString => [cur]
  | String c s' =>
      if Ascii.eqb c sep
      then cur :: split_sep sep s' EmptyString
      else split_sep sep s' (snoc cur c)
  end.

Definition split_on (sep : ascii) (s : string) : list string :=
  split_sep sep s EmptyString.

Fixpoint lstrip (s : string) : string :=
  match s with
  | String c s' => if isspace c then lstrip s' else s
  | EmptyString => EmptyString
  end.

Fixpoint rev_string (s acc : string) : string :=
  match s with
  | EmptyString => acc
  | String c s' => rev_string s' (String c acc)
  end.

(** [s.strip()]. *)
Definition strip (s : string) : string :=
  rev_string (lstrip (rev_string (lstrip s) EmptyString)) EmptyString.

Fixpoint spaces (n : nat) : string :=
  match n with
  | O => EmptyString
  | S n' => String " " (spaces n')
  end.

(** [format(s, '>12')] and the like: [s] pushed right in a field of
    [w] characters. *)
Definition rjust (w : nat) (s : string) : string :=
  spaces (w - String.length s)%nat +++ s.

(** A text that ends its line. *)
Definition line (s : string) : string := s +++ newline.

(** *** Regular expressions

    The program uses three shapes of pattern only. *)

(** [re.split(p, s, maxsplit)] where [p] is [[cls]+], one or more characters
    of a class: the pieces of [s] between the maximal runs of the class,
    cutting at most [maxsplit] times ([budget = None] when [maxsplit] is 0,
    which means no limit). *)
Fixpoint re_split_run (cls : ascii -> bool) (budget : option nat)
  (inrun : bool) (s cur : string) : list string :=
  match s with
  | EmptyString => [cur]
  | String c s' =>
      if cls c
      then if inrun
           then re_split_run cls budget true s' cur
           else match budget with
                | None => cur :: re_split_run cls None true s' EmptyString
                | Some (S n) => cur :: re_split_run cls (Some n) true s' EmptyString
                | Some O => re_split_run cls budget false s' (snoc cur c)
                end
      else re_split_run cls budget false s' (snoc cur c)
  end.

Definition re_split (cls : ascii -> bool) (maxsplit : nat) (s : string)
  : list string :=
  re_split_run cls (match maxsplit with O => None | _ => Some maxsplit end)
    false s EmptyString.

(** [re.match(p, s, re.M|re.I)] for a pattern [p] of lower-case letters:
    [s] starts with [p], letter case ignored. *)
Fixpoint re_match_ignorecase (p s : string) : bool :=
  match p, s with
  | EmptyString, _ => true
  | String a p', String c s' => Ascii.eqb a (lower c) && re_match_ignorecase p' s'
  | String _ _, EmptyString => false
  end.

(** [re.match(r'#\.*', s, re.M|re.I)]: a hash sign, then as many dots as
    follow; a match exists exactly when [s] starts with the hash sign. *)
Definition re_match_hash_dots (s : string) : bool :=
  match s with
  | String c _ => Ascii.eqb c "#"
  | EmptyString => false
  end.

(** *** Integers *)

(** The digits of an [int()] argument: a digit, then digits each preceded
    by at most one underscore. *)
Fixpoint int_digits (s : string) (acc : Z) (after_digit : bool) : option Z :=
  match s with
  | EmptyString => if after_digit then Some acc else None
  | String c s' =>
      if isdigit c then int_digits s' (10 * acc + digit_value c) true
      else if Ascii.eqb c "_" then
        if after_digit then int_digits s' acc false else None
      else None
  end.

(** [int(s)] in base 10. *)
Definition int (s : string) : result Z :=
  let body :=
    match strip s with
    | String "+" r => int_digits r 0 false
    | String "-" r => option_map Z.opp (int_digits r 0 false)
    | r => int_digits r 0 false
    end in
  match body with
  | Some z => Ok z
  | None => Raise ValueError
  end.

Fixpoint digits_of_pos (fuel : nat) (n : Z) (acc : string) : string :=
  match fuel with
  | O => acc
  | S fuel' =>
      let acc' := String (ascii_of_nat (48 + Z.to_nat (n mod 10))) acc in
      if n <? 10 then acc' else digits_of_pos fuel' (n / 10) acc'
  end.

(** [str(n)] for an int: decimal digits, a minus sign first when negative. *)
Definition str (n : Z) : string :=
  let d := digits_of_pos (S (Z.to_nat (Z.log2 (Z.abs n)))) (Z.abs n) EmptyString in
  if n <? 0 then "-" +++ d else d.

(** *** Floats: IEEE binary64 *)

Definition prec : Z := 53.
Definition emax : Z := 1024.

Definition float : Type := spec_float.

Definition inf : float := S754_infinity false.

(** An int as an exact, not yet rounded, binary number. *)
Definition exact (n : Z) : float :=
  match n with
  | Z0 => S754_zero false
  | Zpos p => S754_finite false p 0
  | Zneg p => S754_finite true p 0
  end.

(** The implicit conversion of an int operand to float: round to nearest,
    ties to even; [OverflowError] when the int is beyond the floats. *)
Definition float_of_int (n : Z) : result float :=
  match binary_normalize prec emax n 0 false with
  | S754_infinity _ => Raise OverflowError
  | f => Ok f
  end.

(** [a / b] on ints: the exact quotient rounded once. *)
Definition truediv (a b : Z) : result float :=
  if b =? 0 then Raise ZeroDivisionError
  else if a =? 0 then Ok (S754_zero (b <? 0))
  else match SFdiv prec emax (exact a) (exact b) with
       | S754_infinity _ => Raise OverflowError
       | f => Ok f
       end.

(** [n * x] for an int [n] and a float [x]. *)
Definition mul_int_float (n : Z) (x : float) : result float :=
  bind (float_of_int n) (fun fn => Ok (SFmul prec emax fn x)).

(** [x > y] on floats: false as soon as one side is a NaN. *)
Definition gt (x y : float) : bool := SFltb y x.

(** [math.ceil(x)], an int. *)
Definition ceil (x : float) : result Z :=
  match x with
  | S754_zero _ => Ok 0
  | S754_infinity _ => Raise OverflowError
  | S754_nan => Raise ValueError
  | S754_finite s m e =>
      let n := if s then Zneg m else Zpos m in
      if 0 <=? e then Ok (n * 2 ^ e) else Ok (- ((- n) / 2 ^ (- e)))
  end.

(** [int(x)] on a float: truncation toward zero. *)
Definition int_of_float (x : float) : result Z :=
  match x with
  | S754_zero _ => Ok 0
  | S754_infinity _ => Raise OverflowError
  | S754_nan => Raise ValueError
  | S754_finite s m e =>
      let n := if s then Zneg m else Zpos m in
      if 0 <=? e then Ok (n * 2 ^ e) else Ok (Z.quot n (2 ^ (- e)))
  end.

(** [int(math.ceil(a / b))] on ints, the idiom of the planner. *)
Definition ceil_div (a b : Z) : result Z := bind (truediv a b) ceil.

(** [int(a / b)] on ints, the idiom of the emitter. *)
Definition trunc_div (a b : Z) : result Z := bind (truediv a b) int_of_float.

(** A run of digits, single underscores allowed between two digits:
    its value, how many digits it has, and what follows it. *)
Fixpoint digit_run (s : string) (acc count : Z) : Z * Z * string :=
  match s with
  | String c s' =>
      if isdigit c then digit_run s' (10 * acc + digit_value c) (count + 1)
      else if Ascii.eqb c "_" && (0 <? count) then
        match s' with
        | String d _ => if isdigit d then digit_run s' acc count else (acc, count, s)
        | EmptyString => (acc, count, s)
        end
      else (acc, count, s)
  | EmptyString => (acc, count, s)
  end.

Fixpoint lower_string (s : string) : string :=
  match s with
  | EmptyString => EmptyString
  | String c s' => String (lower c) (lower_string s')
  end.

(** The decimal number [m * 10 ^ e] rounded to the nearest float. *)
Definition round_decimal (neg : bool) (m e : Z) : float :=
  match m with
  | Zpos p =>
      if 0 <=? e
      then binary_normalize prec emax (if neg then - (m * 10 ^ e) else m * 10 ^ e) 0 false
      else SFdiv prec emax (S754_finite neg p 0) (exact (10 ^ (- e)))
  | _ => S754_zero neg
  end.

(** The exponent part of a float literal, when there is one. *)
Definition float_exponent (s : string) : option Z :=
  match s with
  | EmptyString => Some 0
  | String c s' =>
      if Ascii.eqb (lower c) "e" then
        let '(neg, t) :=
          match s' with
          | String "+" t => (false, t)
          | String "-" t => (true, t)
          | t => (false, t)
          end in
        match digit_run t 0 0 with
        | (v, n, EmptyString) =>
            if 0 <? n then Some (if neg then - v else v) else None
        | _ => None
        end
      else None
  end.

(** An unsigned float literal: digits, an optional fraction, an optional
    exponent; at least one digit before the exponent. *)
Definition float_number (neg : bool) (s : string) : option float :=
  let '(ip, ni, s1) := digit_run s 0 0 in
  let '(fp, nf, s2) :=
    match s1 with
    | String "." t => digit_run t 0 0
    | _ => (0, 0, s1)
    end in
  if 0 <? ni + nf then
    match float_exponent s2 with
    | Some e => Some (round_decimal neg (ip * 10 ^ nf + fp) (e - nf))
    | None => None
    end
  else None.

(** [float(s)]. *)
Definition float_of_string (s : string) : result float :=
  let '(neg, body) :=
    match strip s with
    | String "+" t => (false, t)
    | String "-" t => (true, t)
    | t => (false, t)
    end in
  let word := lower_string body in
  if String.eqb word "inf" || String.eqb word "infinity" then Ok (S754_infinity neg)
  else if String.eqb word "nan" then Ok S754_nan
  else match float_number neg body with
       | Some x => Ok x
       | None => Raise ValueError
       end.

End Py.

Notation "x <- c ;; k" := (Py.bind c (fun x => k))
  (at level 61, c at next level, right associativity).

Import Py.

(** ** Helpers *)

(** [die_werr(message)]: print the message as an error and leave with
    status 2. *)
Definition die_werr {A : Type} (message : string) : result A :=
  Exit 2 ("  ERROR: " +++ message).

(** True if zero or power of 2. *)
Definition is_power2z (n : Z) : bool := Z.land n (n - 1) =? 0.

(** ** Data structures *)

Module sram.

Record t : Type := mk {
  name : string;
  words : Z;
  width : Z;
  area : float;
  ports : Z
}.

End sram.

(** The access patterns, the strings ["unknown"] and ["modulo"] of the
    source. *)
Inductive pattern : Type := unknown | modulo.

Definition pattern_eqb (p q : pattern) : bool :=
  match p, q with
  | unknown, unknown => true
  | modulo, modulo => true
  | _, _ => false
  end.

Module memory_operation.

Record t : Type := mk {
  rn : Z;
  rp : pattern;
  wn : Z;
  wp : pattern
}.

(** [__str__]: the operation written back as a token. *)
Definition __str__ (self : t) : string :=
  let rp := match rp self with modulo => "r" | unknown => "ru" end in
  let wp := match wp self with modulo => "w" | unknown => "wu" end in
  str (wn self) +++ wp +++ ":" +++ str (rn self) +++ rp.

End memory_operation.

Module memory.

Import memory_operation.

Record t : Type := mk {
  name : string;
  words : Z;
  width : Z;
  ops : list memory_operation.t;
  read_interfaces : Z;
  write_interfaces : Z;
  need_dual_port : bool;
  need_parallel_rw : bool;
  duplication_factor : Z;
  distribution_factor : Z;
  (* Horizontally duplicated banks when read pattern is unknown *)
  dbanks : Z;
  (* Horizontally composed banks to obtain desired parallelism *)
  hbanks : Z;
  (* Vertically composed banks to obtain desired word count *)
  vbanks : Z;
  (* Horizontally composed banks to obtain desired bit-width *)
  hhbanks : Z;
  (* Type of SRAM chosen to implement banks *)
  bank_type : option sram.t;
  (* Total area *)
  area : float
}.

(** The constructor: the three checks, then the class defaults for every
    attribute it does not set. *)
Definition __init__ (name : string) (words width : Z)
  (ops : list memory_operation.t) : result t :=
  if words <=? 0 then
    die_werr ("Memory " +++ name +++ " has illegal number of words")
  else if width <=? 0 then
    die_werr ("Memory " +++ name +++ " has illegal bit-width")
  else if (List.length ops =? 0)%nat then
    die_werr ("No operation specified for memory " +++ quote +++ name +++ quote)
  else
    Ok (mk name words width ops 1 1 false false 1 1 1 1 1 1 None inf).

(** The first loop of [__find_hbanks]: interfaces and port capabilities. *)
Definition find_interfaces (self : t) (op : memory_operation.t) : t :=
  let read_interfaces' := Z.max (read_interfaces self) (rn op) in
  let write_interfaces' := Z.max (write_interfaces self) (wn op) in
  (* parallel_rw *)
  let need_parallel_rw' :=
    need_parallel_rw self || ((rn op >? 0) && (wn op >? 0)) in
  (* dual_port *)
  let need_dual_port' :=
    need_dual_port self
    || need_parallel_rw'
    || ((wn op =? 2) && pattern_eqb (wp op) unknown)
    || (negb need_parallel_rw' && ((rn op >? 1) || (wn op >? 1))) in
  mk (name self) (words self) (width self) (ops self)
     read_interfaces' write_interfaces' need_dual_port' need_parallel_rw'
     (duplication_factor self) (distribution_factor self)
     (dbanks self) (hbanks self) (vbanks self) (hhbanks self)
     (bank_type self) (area self).

(** Duplication: what one operation asks for. *)
Definition op_duplication_factor (op : memory_operation.t) : result Z :=
  d <- (if pattern_eqb (rp op) unknown && (rn op >? 1) then
          if wn op =? 0 then ceil_div (rn op) 2 else Ok (rn op)
        else Ok 1) ;;
  if pattern_eqb (wp op) unknown && (wn op >? 1) then
    if rn op =? 0 then ceil_div (wn op) 2 else Ok (Z.max d (wn op))
  else Ok d.

(** The second loop of [__find_hbanks]. *)
Definition find_duplication (self : t) (op : memory_operation.t) : result t :=
  d <- op_duplication_factor op ;;
  Ok (mk (name self) (words self) (width self) (ops self)
         (read_interfaces self) (write_interfaces self)
         (need_dual_port self) (need_parallel_rw self)
         (Z.max (duplication_factor self) d) (distribution_factor self)
         (dbanks self) (hbanks self) (vbanks self) (hhbanks self)
         (bank_type self) (area self)).

(** Distribution: what one operation asks for, [need_parallel_rw] being
    the flag of the whole memory. *)
Definition op_distribution_factor (need_parallel_rw : bool)
  (op : memory_operation.t) : Z :=
  let d :=
    if pattern_eqb (rp op) modulo && (rn op >? 1) then
      if negb (wn op =? 0) || need_parallel_rw then rn op
      else Z.shiftr (rn op) 1
    else 1 in
  if pattern_eqb (wp op) modulo && (wn op >? 1) then
    if negb (rn op =? 0) || need_parallel_rw then Z.max d (wn op)
    else Z.shiftr (wn op) 1
  else d.

(** The third loop of [__find_hbanks]. *)
Definition find_distribution (self : t) (op : memory_operation.t) : t :=
  mk (name self) (words self) (width self) (ops self)
     (read_interfaces self) (write_interfaces self)
     (need_dual_port self) (need_parallel_rw self)
     (duplication_factor self)
     (Z.max (distribution_factor self)
            (op_distribution_factor (need_parallel_rw self) op))
     (dbanks self) (hbanks self) (vbanks self) (hhbanks self)
     (bank_type self) (area self).

Definition __find_hbanks (self : t) : result t :=
  let self := fold_left find_interfaces (ops self) self in
  self <- for_each find_duplication (ops self) self ;;
  let self := fold_left find_distribution (ops self) self in
  (* Number of distributed banks and duplicated bank sets *)
  Ok (mk (name self) (words self) (width self) (ops self)
         (read_interfaces self) (write_interfaces self)
         (need_dual_port self) (need_parallel_rw self)
         (duplication_factor self) (distribution_factor self)
         (duplication_factor self) (distribution_factor self)
         (vbanks self) (hhbanks self) (bank_type self) (area self)).

(** The body of the loop of [__find_vbanks] over the library. *)
Definition try_bank (words_per_hbank d h : Z) (self : t) (ram : sram.t)
  : result t :=
  if need_dual_port self && (sram.ports ram <? 2) then Ok self
  else
    hh <- ceil_div (width self) (sram.width ram) ;;
    v <- ceil_div words_per_hbank (sram.words ram) ;;
    new_area <- mul_int_float (d * h * hh * v) (sram.area ram) ;;
    if gt (area self) new_area then
      Ok (mk (name self) (words self) (width self) (ops self)
             (read_interfaces self) (write_interfaces self)
             (need_dual_port self) (need_parallel_rw self)
             (duplication_factor self) (distribution_factor self)
             (dbanks self) (hbanks self) v hh (Some ram) new_area)
    else Ok self.

Definition __find_vbanks (self : t) (lib : list sram.t) : result t :=
  words_per_hbank <- ceil_div (words self) (hbanks self) ;;
  let d := dbanks self in
  let h := hbanks self in
  for_each (try_bank words_per_hbank d h) lib self.

(** [gen]: plan, then report.  Of the report only the line that can fail is
    kept: it prints [self.bank_type.name], an attribute of [None] when no
    bank was chosen. *)
Definition gen (self : t) (lib : list sram.t) : result t :=
  (* Determine memory requirements (first pass over ops list) *)
  self <- __find_hbanks self ;;
  self <- __find_vbanks self lib ;;
  match bank_type self with
  | Some _ => Ok self
  | None => Raise AttributeError
  end.

(** *** The emitter, [write_verilog]

    What [fd.write] receives, call after call.  [ASSERT_ON] is [True]. *)

(** [self.bank_type], whose attributes the emitter reads. *)
Definition the_bank_type (self : t) : result sram.t :=
  match bank_type self with
  | Some ram => Ok ram
  | None => Raise AttributeError
  end.

Definition __write_check_access_task : list string :=
  [ line "";
    line "  task check_access;";
    line "    input integer iface;";
    line "    input integer d;";
    line "    input integer h;";
    line "    input integer v;";
    line "    input integer hh;";
    line "    input integer p;";
    line "  begin";
    line "    if ((check_bank_access[d][h][v][hh][p] != -1) &&";
    line "        (check_bank_access[d][h][v][hh][p] != iface)) begin";
    line ("      $display(" +++ quote +++ "ASSERTION FAILED in %m: port conflict on bank"
          +++ quote +++ ", h, " +++ quote +++ "h" +++ quote +++ ", v, " +++ quote +++ "v"
          +++ quote +++ ", hh, " +++ quote +++ "hh" +++ quote +++ ", " +++ quote
          +++ " for port" +++ quote +++ ", p, " +++ quote +++ " involving interfaces"
          +++ quote +++ ", check_bank_access[d][h][v][hh][p], iface);");
    line "      $finish;";
    line "    end";
    line "    else begin";
    line "      check_bank_access[d][h][v][hh][p] = iface;";
    line "    end";
    line "  end";
    line "  endtask" ].

(** A table of left-hand sides as [__write_ctrl_assignment] builds them: a
    row per duplicated set, an entry per port. *)
Definition str_table (self : t) (ram : sram.t) (entry : Z -> Z -> string)
  : list (list string) :=
  map (fun d => map (fun p => entry d p) (range 0 (sram.ports ram)))
      (range 0 (dbanks self)).

Definition __write_ctrl_assignment (self : t)
  (bank_addr_range_str hh_range_str : string)
  (duplicated_bank_set port iface : Z) (is_write : bool) (parallelism : Z)
  : result (list string) :=
  ram <- the_bank_type self ;;
  let ce_str := str_table self ram (fun d p =>
    "              bank_CE[" +++ str d +++ "][h][v][hh][" +++ str p +++ "]  = "
    +++ name self +++ "_CE") in
  let a_str := str_table self ram (fun d p =>
    "              bank_A[" +++ str d +++ "][h][v][hh][" +++ str p +++ "]   = "
    +++ name self +++ "_A") in
  let d_str := str_table self ram (fun d p =>
    "              bank_D[" +++ str d +++ "][h][v][hh][" +++ str p +++ "]   = "
    +++ name self +++ "_D") in
  let we_str := str_table self ram (fun d p =>
    "              bank_WE[" +++ str d +++ "][h][v][hh][" +++ str p +++ "]  = "
    +++ name self +++ "_WE") in
  let wem_str := str_table self ram (fun d p =>
    "              bank_WEM[" +++ str d +++ "][h][v][hh][" +++ str p +++ "] = "
    +++ name self +++ "_WEM") in
  (* This handles cases in which there are multiple parallel ops with pattern
     "modulo", but different distribution factor. *)
  gate <-
    (if negb (parallelism =? 0) then
       let normalized_iface :=
         if negb is_write then iface - write_interfaces self else iface in
       normalized_iface <- mod_ normalized_iface (hbanks self) ;;
       let normalized_parallelism := Z.min parallelism (hbanks self) in
       Ok [ line ("          if (h % " +++ str normalized_parallelism +++ " == "
                  +++ str normalized_iface +++ ") begin") ]
     else Ok []) ;;
  let enable :=
    [ line ("            if (ctrlh[" +++ str iface +++ "] == h && ctrlv["
            +++ str iface +++ "] == v && " +++ name self +++ "_CE" +++ str iface
            +++ " == 1'b1) begin") ] in
  (* Check that no port is accessed by more than one interface *)
  let check :=
    [ line "// synthesis translate_off";
      line ("              check_access(" +++ str iface +++ ", "
            +++ str duplicated_bank_set +++ ", h, v, hh, " +++ str port +++ ");");
      line "// synthesis translate_on" ] in
  ce_row <- item ce_str duplicated_bank_set ;;
  ce <- item ce_row port ;;
  a_row <- item a_str duplicated_bank_set ;;
  a <- item a_row port ;;
  written <-
    (if is_write then
       d_row <- item d_str duplicated_bank_set ;;
       d <- item d_row port ;;
       we_row <- item we_str duplicated_bank_set ;;
       we <- item we_row port ;;
       wem_row <- item wem_str duplicated_bank_set ;;
       wem <- item wem_row port ;;
       Ok [ line (d +++ str iface +++ hh_range_str +++ ";");
            line (we +++ str iface +++ ";");
            line (wem +++ str iface +++ hh_range_str +++ ";") ]
     else Ok []) ;;
  Ok (gate ++ enable ++ check
      ++ [ line (ce +++ str iface +++ ";");
           line (a +++ str iface +++ bank_addr_range_str +++ ";") ]
      ++ written
      ++ [ line "            end" ]
      ++ (if negb (parallelism =? 0) then [ line "          end" ] else [])).

(** What the control block does for one operation before any text is
    produced: the comment lines it writes and the calls of
    [__write_ctrl_assignment] it makes, in order. *)
Inductive ctrl_item : Type :=
| Comment (text : string)
| Assignment (duplicated_bank_set port iface : Z) (is_write : bool)
    (parallelism : Z).

Definition duplicated_set_comment (d : Z) : ctrl_item :=
  Comment (line ("          // Duplicated bank set " +++ str d)).

Definition always_set_comment (d : Z) : ctrl_item :=
  Comment (line ("          // Always choose duplicated bank set " +++ str d)).

(** The port of interface [i] when no operation mixes reads and writes:
    [(int(i / banks) + (i % ports)) % ports]. *)
Definition spread_port (i banks ports : Z) : result Z :=
  q <- trunc_div i banks ;;
  r <- mod_ i ports ;;
  mod_ (q + r) ports.

(** Write to all duplicated sets, interface [wi] on the port [port wi]. *)
Definition write_all_sets (self : t) (op : memory_operation.t)
  (port : Z -> result Z) (parallelism : Z) : result (list ctrl_item) :=
  concat_map
    (fun d =>
       calls <- concat_map
                  (fun wi => p <- port wi ;;
                             Ok [ Assignment d p wi true parallelism ])
                  (range 0 (wn op)) ;;
       Ok (duplicated_set_comment d :: calls))
    (range 0 (dbanks self)).

Definition handle_op (self : t) (ram : sram.t) (op : memory_operation.t)
  : result (list ctrl_item) :=
  let head :=
    [ Comment (line ("          /** Handle " +++ memory_operation.__str__ op +++ " **/")) ] in
  (* Handle 2wu:0r *)
  k1 <- (if pattern_eqb (wp op) unknown && (wn op =? 2) then
           write_all_sets self op (fun wi => mod_ wi (sram.ports ram)) 0
         else Ok []) ;;
  (* Handle <N>w:0r with N power of 2 *)
  k2 <- (if (rn op =? 0) && pattern_eqb (wp op) modulo then
           (* Write to all duplicated sets *)
           write_all_sets self op
             (fun wi => if negb (need_parallel_rw self)
                        then spread_port wi (hbanks self) (sram.ports ram)
                        else Ok 0)
             (wn op)
         else Ok []) ;;
  (* Handle 0w:<N>r with N power of 2 *)
  k3 <- (if (wn op =? 0) && pattern_eqb (rp op) modulo then
           (* All duplicated sets would return the same data. 0 is correct
              even with no duplication *)
           let d := 0 in
           calls <- concat_map
                      (fun ri =>
                         p <- (if negb (need_parallel_rw self)
                               then spread_port ri (hbanks self) (sram.ports ram)
                               else Ok 1) ;;
                         Ok [ Assignment d p (ri + write_interfaces self) false (rn op) ])
                      (range 0 (rn op)) ;;
           Ok (always_set_comment d :: calls)
         else Ok []) ;;
  (* Handle <N>r:<M>w with N and M power of 2. In this case hbanks matches
     max(op.rn, op.wn) foreach op in the list of operations *)
  k4 <- (if (wn op >? 0) && (rn op >? 0) && pattern_eqb (wp op) modulo
            && pattern_eqb (rp op) modulo then
           (* Write to all duplicated sets *)
           writes <- write_all_sets self op (fun _ => Ok 0) (wn op) ;;
           (* All duplicated sets would return the same data. 0 is correct
              even with no duplication *)
           let d := 0 in
           Ok (writes ++ always_set_comment d
                 :: map (fun ri => Assignment d 1 (ri + write_interfaces self) false (rn op))
                        (range 0 (rn op)))
         else Ok []) ;;
  (* Handle <N>ru:0w with N > 1 *)
  k5 <- (if (rn op >? 1) && (wn op =? 0) && pattern_eqb (rp op) unknown then
           (* Duplicated set matches the read interface number *)
           concat_map
             (fun ri =>
                p <- spread_port ri (dbanks self) (sram.ports ram) ;;
                set <- mod_ ri (dbanks self) ;;
                Ok [ Assignment set p (ri + write_interfaces self) false 0 ])
             (range 0 (rn op))
         else Ok []) ;;
  (* Handle <N>ru:<M>w with N > 1 and M power of 2 *)
  k6 <- (if (rn op >? 1) && (wn op >? 0) && pattern_eqb (rp op) unknown
            && pattern_eqb (wp op) modulo then
           (* Write to all duplicated sets *)
           writes <- write_all_sets self op (fun _ => Ok 0) (wn op) ;;
           (* Duplicated set matches the read interface number *)
           reads <- concat_map
                      (fun ri =>
                         set <- mod_ ri (dbanks self) ;;
                         Ok [ Assignment set 1 (ri + write_interfaces self) false 0 ])
                      (range 0 (rn op)) ;;
           Ok (writes ++ reads)
         else Ok []) ;;
  Ok (head ++ k1 ++ k2 ++ k3 ++ k4 ++ k5 ++ k6 ++ [ Comment (line "") ]).

Definition write_ctrl_item (self : t) (bank_addr_range_str hh_range_str : string)
  (it : ctrl_item) : result (list string) :=
  match it with
  | Comment text => Ok [ text ]
  | Assignment duplicated_bank_set port iface is_write parallelism =>
      __write_ctrl_assignment self bank_addr_range_str hh_range_str
        duplicated_bank_set port iface is_write parallelism
  end.

(** The module's name and its list of ports. *)
Definition write_module_interface (self : t) : list string :=
  [ line ("module " +++ name self +++ "(");
    "    CLK" ]
  (* Module interface *)
  ++ flat_map
       (fun i =>
          [ "," +++ line "" +++ "    " +++ name self +++ "_CE" +++ str i;
            "," +++ line "" +++ "    " +++ name self +++ "_A" +++ str i;
            "," +++ line "" +++ "    " +++ name self +++ "_D" +++ str i;
            "," +++ line "" +++ "    " +++ name self +++ "_WE" +++ str i;
            "," +++ line "" +++ "    " +++ name self +++ "_WEM" +++ str i ])
       (range 0 (write_interfaces self))
  ++ flat_map
       (fun i =>
          [ "," +++ line "" +++ "    " +++ name self +++ "_CE" +++ str i;
            "," +++ line "" +++ "    " +++ name self +++ "_A" +++ str i;
            "," +++ line "" +++ "    " +++ name self +++ "_Q" +++ str i ])
       (range (write_interfaces self) (write_interfaces self + read_interfaces self))
  ++ [ line "" +++ line "  );" ].

(** The duplicated-set selector of each read interface. *)
Definition write_ctrld (self : t) : result (list string) :=
  concat_map
    (fun ri =>
       (* For ru type of operations we guarantee to insist on different copies
          of the memory structure *)
       if dbanks self >? 1 then
         set <- mod_ ri (dbanks self) ;;
         Ok [ line ("  assign ctrld[" +++ str ri +++ "] = " +++ str set +++ ";") ]
       else Ok [ line ("  assign ctrld[" +++ str ri +++ "] = 0;") ])
    (range (write_interfaces self) (write_interfaces self + read_interfaces self)).

(** Output bank selection. *)
Definition write_output_selection (self : t) : list string :=
  [ line "  always @(posedge CLK) begin" ]
  ++ flat_map
       (fun ri =>
          [ line ("    seld[" +++ str ri +++ "] <= ctrld[" +++ str ri +++ "];");
            line ("    selh[" +++ str ri +++ "] <= ctrlh[" +++ str ri +++ "];");
            line ("    selv[" +++ str ri +++ "] <= ctrlv[" +++ str ri +++ "];") ])
       (range (write_interfaces self) (write_interfaces self + read_interfaces self))
  ++ [ line "  end"; line "" ].

(** The port each read interface is read back from. *)
Definition readback_port (self : t) (ram : sram.t) (ri : Z) : result Z :=
  if sram.ports ram =? 1 then Ok 0
  else if negb (need_parallel_rw self) then mod_ ri (sram.ports ram)
  else Ok 1.

(** Read port Q assignment.  When parallel rw is required, port 0 is used
    for write and port 1 is used for read.  Otherwise, modulo is applied to
    choose which port should be used. *)
Definition write_readback (self : t) (hh_lsb_str hh_range_str : string)
  : result (list string) :=
  ram <- the_bank_type self ;;
  let hh_last_msb_str :=
    str (Z.min (width self - 1) (hhbanks self * sram.width ram - 1)) in
  let hh_last_range_str := "[" +++ hh_last_msb_str +++ ":" +++ hh_lsb_str +++ "]" in
  assigns <-
    concat_map
      (fun ri =>
         p <- readback_port self ram ri ;;
         low <- mod_ (width self - 1) (sram.width ram) ;;
         let source :=
           " = bank_Q" +++ "[seld[" +++ str ri +++ "]]" +++ "[selh[" +++ str ri +++ "]]"
           +++ "[selv[" +++ str ri +++ "]]" +++ "[hh]" +++ "[" +++ str p +++ "]" in
         Ok [ line ("    if (hh == " +++ str (hhbanks self - 1) +++ " && (hh + 1) * "
                    +++ str (sram.width ram) +++ " > " +++ str (width self) +++ ")");
              line ("      assign " +++ name self +++ "_Q" +++ str ri +++ hh_last_range_str
                    +++ source +++ "[" +++ str low +++ ":0];");
              line "    else";
              line ("      assign " +++ name self +++ "_Q" +++ str ri +++ hh_range_str
                    +++ source +++ ";") ])
      (range (write_interfaces self) (write_interfaces self + read_interfaces self)) ;;
  Ok ([ line "  generate";
        line ("  for (hh = 0; hh < " +++ str (hhbanks self)
              +++ "; hh = hh + 1) begin : gen_q_assign_hhbanks") ]
      ++ assigns
      ++ [ line "  end"; line "  endgenerate"; line "" ]).

(** Bank instances. *)
Definition write_bank_instances (self : t) : result (list string) :=
  ram <- the_bank_type self ;;
  let ports := range 0 (sram.ports ram) in
  Ok ([ line "  generate";
        line ("  for (d = 0; d < " +++ str (dbanks self)
              +++ "; d = d + 1) begin : gen_wires_dbanks");
        line ("    for (h = 0; h < " +++ str (hbanks self)
              +++ "; h = h + 1) begin : gen_wires_hbanks");
        line ("      for (v = 0; v < " +++ str (vbanks self)
              +++ "; v = v + 1) begin : gen_wires_vbanks");
        line ("        for (hh = 0; hh < " +++ str (hhbanks self)
              +++ "; hh = hh + 1) begin : gen_wires_hhbanks");
        line "";
        line ("          " +++ sram.name ram +++ " bank_i(");
        "              .CLK(CLK)" ]
      ++ flat_map
           (fun p =>
              [ "," +++ line "" +++ "              .CE" +++ str p
                  +++ "(bank_CE[d][h][v][hh][" +++ str p +++ "])";
                "," +++ line "" +++ "              .A" +++ str p
                  +++ "(bank_A[d][h][v][hh][" +++ str p +++ "])";
                "," +++ line "" +++ "              .D" +++ str p
                  +++ "(bank_D[d][h][v][hh][" +++ str p +++ "])";
                "," +++ line "" +++ "              .WE" +++ str p
                  +++ "(bank_WE[d][h][v][hh][" +++ str p +++ "])";
                "," +++ line "" +++ "              .WEM" +++ str p
                  +++ "(bank_WEM[d][h][v][hh][" +++ str p +++ "])";
                "," +++ line "" +++ "              .Q" +++ str p
                  +++ "(bank_Q[d][h][v][hh][" +++ str p +++ "])" ])
           ports
      ++ [ line "" +++ line "            );";
           line "";
           line "// synthesis translate_off";
           line "            always @(posedge CLK) begin" ]
      ++ flat_map
           (fun p0 =>
              flat_map
                (fun p1 =>
                   [ line ("              if " +++ "((bank_CE[d][h][v][hh][" +++ str p0
                           +++ "] & " +++ "bank_CE[d][h][v][hh][" +++ str p1 +++ "]) &&");
                     line ("                 " +++ " (bank_WE[d][h][v][hh][" +++ str p0
                           +++ "] | " +++ "bank_WE[d][h][v][hh][" +++ str p1 +++ "]) &&");
                     line ("                 " +++ " (bank_A[d][h][v][hh][" +++ str p0
                           +++ "] == " +++ "bank_A[d][h][v][hh][" +++ str p1 +++ "])) begin");
                     line ("                $display(" +++ quote
                           +++ "ASSERTION FAILED in %m: address conflict on bank" +++ quote
                           +++ ", h, " +++ quote +++ "h" +++ quote +++ ", v, " +++ quote
                           +++ "v" +++ quote +++ ", hh, " +++ quote +++ "hh" +++ quote +++ ");");
                     line "                $finish;";
                     line "              end";
                     line "            end";
                     line "// synthesis translate_on";
                     line "" ])
                (range (p0 + 1) (sram.ports ram)))
           ports
      ++ [ line "        end";
           line "      end";
           line "    end";
           line "  end";
           line "  endgenerate";
           line "";
           line "endmodule" ]).

Section Widths.

(** [int(math.ceil(math.log(n, 2)))] for [n > 0].  The logarithm is the C
    library's, a quotient of two rounded logarithms: its value is left
    open. *)
Variable ceil_log2 : Z -> Z.

(** [math.log] of a number that is not positive is a domain error. *)
Definition math_ceil_log2 (n : Z) : result Z :=
  if n <=? 0 then Raise ValueError else Ok (ceil_log2 n).

(** The directions and widths of the ports. *)
Definition write_port_declarations (self : t) : result (list string) :=
  writes <-
    concat_map
      (fun i =>
         aw <- math_ceil_log2 (words self) ;;
         Ok [ line ("  " +++ "input " +++ name self +++ "_CE" +++ str i +++ ";");
              line ("  " +++ "input " +++ "[" +++ str (aw - 1) +++ ":0] "
                    +++ name self +++ "_A" +++ str i +++ ";");
              line ("  " +++ "input " +++ "[" +++ str (width self - 1) +++ ":0] "
                    +++ name self +++ "_D" +++ str i +++ ";");
              line ("  " +++ "input " +++ name self +++ "_WE" +++ str i +++ ";");
              line ("  " +++ "input " +++ "[" +++ str (width self - 1) +++ ":0] "
                    +++ name self +++ "_WEM" +++ str i +++ ";") ])
      (range 0 (write_interfaces self)) ;;
  reads <-
    concat_map
      (fun i =>
         aw <- math_ceil_log2 (words self) ;;
         Ok [ line ("  " +++ "input " +++ name self +++ "_CE" +++ str i +++ ";");
              line ("  " +++ "input " +++ "[" +++ str (aw - 1) +++ ":0] "
                    +++ name self +++ "_A" +++ str i +++ ";");
              line ("  " +++ "output " +++ "[" +++ str (width self - 1) +++ ":0] "
                    +++ name self +++ "_Q" +++ str i +++ ";") ])
      (range (write_interfaces self) (write_interfaces self + read_interfaces self)) ;;
  Ok ([ line "  input CLK;" ] ++ writes ++ reads
      ++ [ line "  genvar d, h, v, hh;"; line "" ]).

(** A selector's width as text: [[w-1:0]] when it selects among several
    banks, [[0:0]] otherwise, in a field of 12. *)
Definition sel_reg_width_str (banks sel_reg_width : Z) : string :=
  rjust 12 (if banks >? 1 then "[" +++ str (sel_reg_width - 1) +++ ":0]" else "[0:0]").

Definition write_verilog (self : t) : result (list string) :=
  let header :=
    [ line "/**";
      line "* Created with the ESP Memory Generator";
      line "*";
      line "* Copyright (c) 2014-2017, Columbia University";
      line "*";
      line "* @author Paolo Mantovani <paolo@cs.columbia.edu>";
      line "*/";
      line "";
      line "`timescale  1 ps / 1 ps";
      line "" ] in
  declarations <- write_port_declarations self ;;
  (* Wire for banks *)
  ram <- the_bank_type self ;;
  bank_wire_addr_width <- math_ceil_log2 (sram.words ram) ;;
  let bank_wire_data_width := sram.width ram in
  sel_dbank_reg_width <- math_ceil_log2 (dbanks self) ;;
  sel_hbank_reg_width <- math_ceil_log2 (hbanks self) ;;
  sel_vbank_reg_width <- math_ceil_log2 (vbanks self) ;;
  let signle_wire_width_str := "            " in
  let bank_wire_dims_str :=
    "[" +++ str (dbanks self - 1) +++ ":0]" +++ "[" +++ str (hbanks self - 1) +++ ":0]"
    +++ "[" +++ str (vbanks self - 1) +++ ":0]" +++ "[" +++ str (hhbanks self - 1) +++ ":0]"
    +++ "[" +++ str (sram.ports ram - 1) +++ ":0]" in
  let bank_wire_addr_width_str :=
    rjust 12 ("[" +++ str (bank_wire_addr_width - 1) +++ ":0]") in
  let bank_wire_data_width_str :=
    rjust 12 ("[" +++ str (bank_wire_data_width - 1) +++ ":0]") in
  let ctrl_wire_dims_str :=
    "[" +++ str (write_interfaces self + read_interfaces self - 1) +++ ":0]" in
  let sel_reg_dims_str :=
    "[" +++ str (write_interfaces self + read_interfaces self - 1) +++ ":"
    +++ str (write_interfaces self) +++ "]" in
  let sel_dbank_reg_width_str := sel_reg_width_str (dbanks self) sel_dbank_reg_width in
  let sel_hbank_reg_width_str := sel_reg_width_str (hbanks self) sel_hbank_reg_width in
  let sel_vbank_reg_width_str := sel_reg_width_str (vbanks self) sel_vbank_reg_width in
  let wires :=
    [ line ("  " +++ "reg  " +++ signle_wire_width_str +++ " bank_CE  " +++ bank_wire_dims_str +++ ";");
      line ("  " +++ "reg  " +++ bank_wire_addr_width_str +++ " bank_A   " +++ bank_wire_dims_str +++ ";");
      line ("  " +++ "reg  " +++ bank_wire_data_width_str +++ " bank_D   " +++ bank_wire_dims_str +++ ";");
      line ("  " +++ "reg  " +++ signle_wire_width_str +++ " bank_WE  " +++ bank_wire_dims_str +++ ";");
      line ("  " +++ "reg  " +++ bank_wire_data_width_str +++ " bank_WEM " +++ bank_wire_dims_str +++ ";");
      line ("  " +++ "wire " +++ bank_wire_data_width_str +++ " bank_Q   " +++ bank_wire_dims_str +++ ";");
      line ("  " +++ "wire " +++ sel_dbank_reg_width_str +++ " ctrld    " +++ sel_reg_dims_str +++ ";");
      line ("  " +++ "wire " +++ sel_hbank_reg_width_str +++ " ctrlh    " +++ ctrl_wire_dims_str +++ ";");
      line ("  " +++ "wire " +++ sel_vbank_reg_width_str +++ " ctrlv    " +++ ctrl_wire_dims_str +++ ";");
      line ("  " +++ "reg  " +++ sel_dbank_reg_width_str +++ " seld     " +++ sel_reg_dims_str +++ ";");
      line ("  " +++ "reg  " +++ sel_hbank_reg_width_str +++ " selh     " +++ sel_reg_dims_str +++ ";");
      line ("  " +++ "reg  " +++ sel_vbank_reg_width_str +++ " selv     " +++ sel_reg_dims_str +++ ";");
      line "// synthesis translate_off";
      line ("  " +++ "integer check_bank_access " +++ bank_wire_dims_str +++ ";") ]
    ++ __write_check_access_task
    ++ [ line "// synthesis translate_on"; line "" ] in
  (* Control selection *)
  ctrld <- write_ctrld self ;;
  let all_interfaces := range 0 (write_interfaces self + read_interfaces self) in
  let ctrlh :=
    map (fun ri =>
           if hbanks self >? 1 then
             line ("  assign ctrlh[" +++ str ri +++ "] = " +++ name self +++ "_A" +++ str ri
                   +++ "[" +++ str (sel_hbank_reg_width - 1) +++ ":" +++ "0" +++ "];")
           else line ("  assign ctrlh[" +++ str ri +++ "] = 0;"))
        all_interfaces in
  let ctrlv :=
    map (fun ri =>
           if vbanks self >? 1 then
             line ("  assign ctrlv[" +++ str ri +++ "] = " +++ name self +++ "_A" +++ str ri
                   +++ "["
                   +++ str (bank_wire_addr_width + sel_hbank_reg_width + sel_vbank_reg_width - 1)
                   +++ ":" +++ str (bank_wire_addr_width + sel_hbank_reg_width) +++ "];")
           else line ("  assign ctrlv[" +++ str ri +++ "] = 0;"))
        all_interfaces in
  (* Control ports CE, A, D, WE, WEM assignment *)
  let hh_msb_str := str bank_wire_data_width +++ " * (hh + 1) - 1" in
  let hh_lsb_str := str bank_wire_data_width +++ " * hh" in
  let hh_range_str := "[" +++ hh_msb_str +++ ":" +++ hh_lsb_str +++ "]" in
  words_width <- math_ceil_log2 (words self) ;;
  let bank_addr_msb_str :=
    str (Z.min (words_width - 1) (bank_wire_addr_width + sel_hbank_reg_width - 1)) in
  let bank_addr_lsb_str := str sel_hbank_reg_width in
  let bank_addr_range_str := "[" +++ bank_addr_msb_str +++ ":" +++ bank_addr_lsb_str +++ "]" in
  let defaults :=
    flat_map
      (fun d =>
         flat_map
           (fun p =>
              [ line "// synthesis translate_off";
                line ("          check_bank_access[" +++ str d +++ "][h][v][hh][" +++ str p +++ "] = -1;");
                line "// synthesis translate_on";
                line ("          bank_CE[" +++ str d +++ "][h][v][hh][" +++ str p +++ "]  = 0;");
                line ("          bank_A[" +++ str d +++ "][h][v][hh][" +++ str p +++ "]   = 0;");
                line ("          bank_D[" +++ str d +++ "][h][v][hh][" +++ str p +++ "]   = 0;");
                line ("          bank_WE[" +++ str d +++ "][h][v][hh][" +++ str p +++ "]  = 0;");
                line ("          bank_WEM[" +++ str d +++ "][h][v][hh][" +++ str p +++ "] = 0;") ])
           (range 0 (sram.ports ram))
         ++ [ line "" ])
      (range 0 (dbanks self)) in
  (* Go through parallel accesses *)
  handled <-
    concat_map
      (fun op =>
         items <- handle_op self ram op ;;
         concat_map (write_ctrl_item self bank_addr_range_str hh_range_str) items)
      (ops self) ;;
  readback <- write_readback self hh_lsb_str hh_range_str ;;
  instances <- write_bank_instances self ;;
  Ok (header
      ++ write_module_interface self
      ++ declarations
      ++ wires
      ++ ctrld ++ ctrlh ++ ctrlv ++ [ line "" ]
      ++ write_output_selection self
      ++ [ line "  generate";
           line ("  for (h = 0; h < " +++ str (hbanks self)
                 +++ "; h = h + 1) begin : gen_ctrl_hbanks");
           line ("    for (v = 0; v < " +++ str (vbanks self)
                 +++ "; v = v + 1) begin : gen_ctrl_vbanks");
           line ("      for (hh = 0; hh < " +++ str (hhbanks self)
                 +++ "; hh = hh + 1) begin : gen_ctrl_hhbanks");
           line "";
           line "        always @(*) begin : handle_ops";
           line "";
           line "          /** Default **/" ]
      ++ defaults
      ++ handled
      ++ [ line "        end";
           line "";
           line "      end";
           line "    end";
           line "  end";
           line "  endgenerate";
           line "" ]
      ++ readback
      ++ instances).

End Widths.

End memory.

(** ** Input parsing *)

Definition parse_sram (s : string) : result (option sram.t) :=
  let item := split s in
  i0 <- index item 0 ;;
  words <- int i0 ;;
  i1 <- index item 1 ;;
  width <- int i1 ;;
  name <- index item 2 ;;
  i3 <- index item 3 ;;
  area <- float_of_string i3 ;;
  (* We assume rw ports supporting one read or one write per cycle *)
  i4 <- index item 4 ;;
  ports <- int i4 ;;
  if (ports <? 1) || (ports >? 2) then
    (* warn: skipping SRAM type with unsupported number of ports *)
    Ok None
  else Ok (Some (sram.mk name words width area ports)).

(** [re.M|re.I] is 10; [re.split] takes it as [maxsplit], its third
    positional parameter. *)
Definition re_M_or_re_I : nat := 10.

Definition parse_op (op : string) (mem_words : Z)
  : result memory_operation.t :=
  let item := split_on ":" op in
  i0 <- index item 0 ;;
  w0 <- index (re_split islower re_M_or_re_I i0) 0 ;;
  write_number <- int w0 ;;
  i0 <- index item 0 ;;
  write_pattern_abbrv <- index (re_split isdigit re_M_or_re_I i0) 1 ;;
  i1 <- index item 1 ;;
  r0 <- index (re_split islower re_M_or_re_I i1) 0 ;;
  read_number <- int r0 ;;
  i1 <- index item 1 ;;
  read_pattern_abbrv <- index (re_split isdigit re_M_or_re_I i1) 1 ;;
  if (read_number >? mem_words) || (write_number >? mem_words) then
    die_werr ("Too many ports for the specified number of words for " +++ op)
  else if (read_number >? 16) || (read_number <? 0) then
    die_werr ("Too many paralle accesses specified for " +++ op)
  else
  read_pattern <-
    (if re_match_ignorecase "ru" read_pattern_abbrv then Ok unknown
     else if re_match_ignorecase "r" read_pattern_abbrv then
       if negb (is_power2z read_number) then
         die_werr ("Operation " +++ op +++ " implies known access patter (modulo), but the number of accesses is not a power of 2")
       else Ok modulo
     else die_werr ("Parallel read access " +++ op +++ " not recognized")) ;;
  if (write_number >? 16) || (write_number <? 0) then
    die_werr ("Too many paralle accesses specified for " +++ op)
  else
  write_pattern <-
    (if re_match_ignorecase "wu" write_pattern_abbrv then
       if write_number >? 2 then
         die_werr ("Too many parallel write accesses with unknown pattern for " +++ op)
       else if (write_number =? 2) && negb (read_number =? 0) then
         die_werr ("2 parallel write accesses with unknown pattern for " +++ op +++ " have non-zero parallel read access")
       else Ok unknown
     else if re_match_ignorecase "w" write_pattern_abbrv then
       if negb (is_power2z write_number) then
         die_werr ("Operation " +++ op +++ " implies known access patter (modulo), but the number of accesses is not a power of 2")
       else Ok modulo
     else die_werr ("Parallel write access " +++ op +++ " not recognized")) ;;
  Ok (memory_operation.mk read_number read_pattern write_number write_pattern).

(** [read_techfile], on the lines [fd] of the opened library file. *)
Definition read_techfile_line (sram_list : list sram.t) (line : string)
  : result (list sram.t) :=
  (* Check for commented line *)
  if re_match_hash_dots line then Ok sram_list
  else
    ram <- parse_sram line ;;
    match ram with
    | None => Ok sram_list
    | Some ram => Ok (sram_list ++ [ram])
    end.

Definition read_techfile (fd : list string) (sram_list : list sram.t)
  : result (list sram.t) :=
  for_each read_techfile_line fd sram_list.

(** [read_infile], on the lines [fd] of the opened request file. *)
Definition read_infile_line (mem_list : list memory.t) (line : string)
  : result (list memory.t) :=
  let item := split line in
  (* Check for commented line *)
  if re_match_hash_dots line then Ok mem_list
  else
    mem_name <- index item 0 ;;
    i1 <- index item 1 ;;
    mem_words <- int i1 ;;
    i2 <- index item 2 ;;
    mem_width <- int i2 ;;
    mem_ops <- for_each
                 (fun mem_ops i => o <- parse_op i mem_words ;; Ok (mem_ops ++ [o]))
                 (skipn 3 item) [] ;;
    mem <- memory.__init__ mem_name mem_words mem_width mem_ops ;;
    Ok (mem_list ++ [mem]).

Definition read_infile (fd : list string) (mem_list : list memory.t)
  : result (list memory.t) :=
  for_each read_infile_line fd mem_list.

(** ** The script

    Both files are read, then every memory is planned and written in turn.
    The value kept for a memory is its plan and the text of its file; the
    two arguments of the command line are taken as given. *)

Section Script.

Variable ceil_log2 : Z -> Z.

Definition generate (sram_list : list sram.t)
  (done : list (memory.t * list string)) (mem : memory.t)
  : result (list (memory.t * list string)) :=
  mem <- memory.gen mem sram_list ;;
  text <- memory.write_verilog ceil_log2 mem ;;
  Ok (done ++ [(mem, text)]).

Definition script (tech infile : list string)
  : result (list (memory.t * list string)) :=
  sram_list <- read_techfile tech [] ;;
  mem_list <- read_infile infile [] ;;
  for_each (generate sram_list) mem_list [].

End Script.

(** ** Messages

    [memory.print]: the two lines it prints for a memory before it is
    planned. *)
Definition memory_print (self : memory.t) : list string :=
  let operations :=
    String.concat " " (map memory_operation.__str__ (memory.ops self)) in
  [ line ("  INFO: Generating " +++ memory.name self +++ "...");
    line ("        " +++ str (memory.words self) +++ " words, "
          +++ str (memory.width self) +++ " bits, " +++ operations) ].

(** * Specification

    The notions the claims are stated with, in the words of the
    specification, and the requests of its examples. *)

(** [v] is the maximum of [f] over [l]: some element reaches it, none
    exceeds it. *)
Definition maximum_over {A : Type} (f : A -> Z) (l : list A) (v : Z) : Prop :=
  (exists x, In x l /\ f x = v) /\ forall x, In x l -> f x <= v.

(** What the operation parser lets through. *)
Definition valid_op (op : memory_operation.t) : Prop :=
  let '(memory_operation.mk rn rp wn wp) := op in
  0 <= rn <= 16 /\ 0 <= wn <= 16 /\
  (rp = modulo -> is_power2z rn = true) /\
  (wp = modulo -> is_power2z wn = true) /\
  (wp = unknown -> wn <= 2 /\ (wn = 2 -> rn = 0)).

(** A memory request, as [read_infile] builds one: constructed from parsed
    operations. *)
Definition requested (m : memory.t) : Prop :=
  exists name words width ops,
    memory.__init__ name words width ops = Ok m /\
    Forall (fun op => exists token, parse_op token words = Ok op) ops.

(** The ceiling of the quotient [a / b] on the integers. *)
Definition ceiling (a b : Z) : Z := - ((- a) / b).

(** ** Contributions of one operation *)

Module Contribution.

Import memory_operation.

(** [ceil(n / 2)] on the integers. *)
Definition ceil_half (n : Z) : Z := (n + 1) / 2.

(** Duplication asked for by the reads of an unknown pattern. *)
Definition read_duplication (op : memory_operation.t) : Z :=
  if pattern_eqb (rp op) unknown && (rn op >? 1) then
    if wn op =? 0 then ceil_half (rn op)
    else if wn op >? 0 then rn op
    else 1
  else 1.

(** The duplication contribution: the writes of an unknown pattern come
    after the reads, whose value is the previous one. *)
Definition duplication (op : memory_operation.t) : Z :=
  if pattern_eqb (wp op) unknown && (wn op >? 1) then
    if rn op =? 0 then ceil_half (wn op)
    else if rn op >? 0 then Z.max (read_duplication op) (wn op)
    else read_duplication op
  else read_duplication op.

(** Distribution asked for by the reads of a modulo pattern. *)
Definition read_distribution (need_parallel_rw : bool) (op : memory_operation.t) : Z :=
  if pattern_eqb (rp op) modulo && (rn op >? 1) then
    if (wn op >? 0) || need_parallel_rw then rn op
    else if (wn op =? 0) && negb need_parallel_rw then rn op / 2
    else 1
  else 1.

(** Likewise for the writes. *)
Definition write_distribution (need_parallel_rw : bool) (op : memory_operation.t) : Z :=
  if pattern_eqb (wp op) modulo && (wn op >? 1) then
    if (rn op >? 0) || need_parallel_rw then wn op
    else if (rn op =? 0) && negb need_parallel_rw then wn op / 2
    else 1
  else 1.

(** The distribution contribution of an operation: the larger of what its
    reads and what its writes ask for. *)
Definition distribution (need_parallel_rw : bool) (op : memory_operation.t) : Z :=
  Z.max (read_distribution need_parallel_rw op) (write_distribution need_parallel_rw op).

End Contribution.

(** The two factors of a plan are the maxima of the contributions of its
    operations. *)
Definition maximal_factors (p : memory.t) : Prop :=
  maximum_over Contribution.duplication (memory.ops p) (memory.duplication_factor p) /\
  maximum_over (Contribution.distribution (memory.need_parallel_rw p)) (memory.ops p)
    (memory.distribution_factor p).

(** ** Macro selection *)

Module Selection.

Import memory.

(** A macro qualifies unless the memory needs two ports and it has fewer. *)
Definition qualifies (m : memory.t) (ram : sram.t) : bool :=
  negb (need_dual_port m && (sram.ports ram <? 2)).

(** The estimate of one macro: [HH = ceil(width / ram.width)],
    [V = ceil(ceil(words / H) / ram.words)] and the area
    [D * H * V * HH * ram.area], the ceilings and the product being those of
    the program's arithmetic ([ceil_div], [mul_int_float]). *)
Definition estimated_area (m : memory.t) (ram : sram.t) : result (Z * Z * float) :=
  words_per_hbank <- ceil_div (words m) (distribution_factor m) ;;
  hh <- ceil_div (width m) (sram.width ram) ;;
  v <- ceil_div words_per_hbank (sram.words ram) ;;
  a <- mul_int_float (duplication_factor m * distribution_factor m * v * hh) (sram.area ram) ;;
  Ok (hh, v, a).

(** What the loop of [__find_vbanks] computes for one macro, and when it
    passes one over. *)
Definition bank_estimate (width words_per_hbank d h : Z) (ram : sram.t)
  : result (Z * Z * float) :=
  hh <- ceil_div width (sram.width ram) ;;
  v <- ceil_div words_per_hbank (sram.words ram) ;;
  a <- mul_int_float (d * h * hh * v) (sram.area ram) ;;
  Ok (hh, v, a).

Definition skipped (s0 : memory.t) (ram : sram.t) : bool :=
  need_dual_port s0 && (sram.ports ram <? 2).

(** The attributes the loop never assigns. *)
Definition request_of (s : memory.t) : memory.t :=
  mk (name s) (words s) (width s) (ops s) (read_interfaces s) (write_interfaces s)
     (need_dual_port s) (need_parallel_rw s) (duplication_factor s)
     (distribution_factor s) (dbanks s) (hbanks s) 1 1 None inf.

(** The invariant of the loop, [s0] being the memory it starts from and
    [seen] the macros it went through: nothing was taken and no estimate is
    below infinity, or one macro was taken, every qualifying macro before it
    has a larger estimate (or one that is not a number), and no qualifying
    macro after it has a smaller one. *)
Definition selected (words_per_hbank d h : Z) (s0 s : memory.t)
  (seen : list sram.t) : Prop :=
  request_of s = request_of s0 /\
  ((bank_type s = None /\ area s = inf /\
    forall r, In r seen -> skipped s0 r = false ->
      exists hh v a, bank_estimate (width s0) words_per_hbank d h r = Ok (hh, v, a) /\ SFltb a inf = false)
   \/
   (exists before ram after hh v,
      seen = before ++ ram :: after /\
      bank_type s = Some ram /\ skipped s0 ram = false /\
      bank_estimate (width s0) words_per_hbank d h ram = Ok (hh, v, area s) /\
      hhbanks s = hh /\ vbanks s = v /\
      (forall r, In r before -> skipped s0 r = false ->
         exists hh' v' a', bank_estimate (width s0) words_per_hbank d h r = Ok (hh', v', a') /\
           (SFltb (area s) a' = true \/ a' = S754_nan)) /\
      (forall r, In r after -> skipped s0 r = false ->
         exists hh' v' a', bank_estimate (width s0) words_per_hbank d h r = Ok (hh', v', a') /\
           SFltb a' (area s) = false))).

End Selection.

(** ** The external ports *)

Module Ports.

Import memory.

(** The ports of a write interface and of a read interface, and all the
    ports of the module in order. *)
Definition write_port_names (name : string) (i : Z) : list string :=
  [ name +++ "_CE" +++ str i; name +++ "_A" +++ str i; name +++ "_D" +++ str i;
    name +++ "_WE" +++ str i; name +++ "_WEM" +++ str i ].

Definition read_port_names (name : string) (i : Z) : list string :=
  [ name +++ "_CE" +++ str i; name +++ "_A" +++ str i; name +++ "_Q" +++ str i ].

Definition external_ports (m : memory.t) : list string :=
  "CLK"
  :: flat_map (write_port_names (name m)) (range 0 (write_interfaces m))
  ++ flat_map (read_port_names (name m))
       (range (write_interfaces m) (write_interfaces m + read_interfaces m)).

(** What separates two ports in the module's list. *)
Definition port_separator : string := "," +++ line "" +++ "    ".

(** A declaration line names a port after its direction and width. *)
Definition declares (decl port : string) : Prop :=
  exists direction, decl = line ("  " +++ direction +++ port +++ ";").

End Ports.

(** ** Scenarios

    The library and the requests of the examples. *)

Module Scenario.

(** 1.0, 1.8, 0.9, 3.6 and 21.6 as floats. *)
Definition area_1_0 : float := S754_finite false 4503599627370496 (-52).
Definition area_1_8 : float := S754_finite false 8106479329266893 (-52).
Definition area_0_9 : float := S754_finite false 8106479329266893 (-53).
Definition area_3_6 : float := S754_finite false 8106479329266893 (-51).
Definition area_21_6 : float := S754_finite false 6079859496950170 (-48).

Definition single_port : sram.t := sram.mk "sram_sp" 1024 32 area_1_0 1.
Definition dual_port : sram.t := sram.mk "sram_dp" 1024 32 area_1_8 2.
Definition small_dual_port : sram.t := sram.mk "sram_dp_512" 512 32 area_0_9 2.

(** The two lines of the library file and what they are read as. *)
Definition tech : list string :=
  [ line "1024 32 sram_sp 1.0 1"; line "1024 32 sram_dp 1.8 2" ].

Definition library : list sram.t := [ single_port; dual_port ].

(** A library where two macros tie on [M 2048 32 0w:4r]. *)
Definition tied_library : list sram.t := [ single_port; dual_port; small_dual_port ].

(** A memory as the constructor leaves it. *)
Definition request (name : string) (words width : Z)
  (ops : list memory_operation.t) : memory.t :=
  memory.mk name words width ops 1 1 false false 1 1 1 1 1 1 None inf.

(** [M 2048 32 0w:4r] and its plan. *)
Definition ops_0w_4r : list memory_operation.t :=
  [ memory_operation.mk 4 modulo 0 modulo ].

Definition request_0w_4r : memory.t := request "M" 2048 32 ops_0w_4r.

Definition plan_0w_4r : memory.t :=
  memory.mk "M" 2048 32 ops_0w_4r 4 1 true false 1 2 1 2 1 1 (Some dual_port) area_3_6.

(** [M 1024 32 1w:0r] and its plan. *)
Definition ops_1w_0r : list memory_operation.t :=
  [ memory_operation.mk 0 modulo 1 modulo ].

Definition request_1w_0r : memory.t := request "M" 1024 32 ops_1w_0r.

Definition plan_1w_0r : memory.t :=
  memory.mk "M" 1024 32 ops_1w_0r 1 1 false false 1 1 1 1 1 1 (Some single_port) area_1_0.

(** [M 1024 32 0w:4ru] and its plan. *)
Definition ops_0w_4ru : list memory_operation.t :=
  [ memory_operation.mk 4 unknown 0 modulo ].

Definition request_0w_4ru : memory.t := request "M" 1024 32 ops_0w_4ru.

Definition plan_0w_4ru : memory.t :=
  memory.mk "M" 1024 32 ops_0w_4ru 4 1 true false 2 1 2 1 1 1 (Some dual_port) area_3_6.

(** [M 4096 32 2w:4r 0w:6ru] and its plan. *)
Definition ops_mixed : list memory_operation.t :=
  [ memory_operation.mk 4 modulo 2 modulo; memory_operation.mk 6 unknown 0 modulo ].

Definition request_mixed : memory.t := request "M" 4096 32 ops_mixed.

Definition plan_mixed : memory.t :=
  memory.mk "M" 4096 32 ops_mixed 6 2 true true 3 4 3 4 1 1 (Some dual_port) area_21_6.

(** [M 1024 32 0w:16ru] *)
Definition request_0w_16ru : memory.t :=
  request "M" 1024 32 [ memory_operation.mk 16 unknown 0 modulo ].

End Scenario.

(** * Properties *)

(** ** The order of the floats *)

Section FloatOrder.

Ltac order_cases :=
  repeat match goal with
         | |- context [Z.compare ?a ?b] => destruct (Z.compare_spec a b)
         | |- context [Pos.compare_cont Eq ?a ?b] =>
             change (Pos.compare_cont Eq a b) with (Pos.compare a b);
             destruct (Pos.compare_spec a b)
         end;
  simpl; intros; subst;
  try reflexivity; try discriminate; try lia; auto.

Ltac by_cases3 x y z :=
  unfold SFltb, SFeqb, SFcompare;
  destruct x as [[]|[]| |[] ? ?], y as [[]|[]| |[] ? ?], z as [[]|[]| |[] ? ?];
  simpl; try reflexivity; try discriminate; auto; order_cases.

Ltac by_cases2 x y :=
  unfold SFltb, SFeqb, SFcompare;
  destruct x as [[]|[]| |[] ? ?], y as [[]|[]| |[] ? ?];
  simpl; try reflexivity; try discriminate; auto; order_cases.

Lemma ltb_trans (x y z : float) :
  SFltb x y = true -> SFltb y z = true -> SFltb x z = true.
Proof. by_cases3 x y z. Qed.

Lemma ltb_irrefl (x : float) : SFltb x x = false.
Proof.
  unfold SFltb, SFcompare.
  destruct x as [[]|[]| |[] m e]; simpl; try reflexivity;
    rewrite Z.compare_refl;
    change (Pos.compare_cont Eq m m) with (Pos.compare m m);
    rewrite Pos.compare_refl; reflexivity.
Qed.

Lemma ltb_asym (x y : float) : SFltb x y = true -> SFltb y x = false.
Proof. by_cases2 x y. Qed.

Lemma ltb_nan_l (x : float) : SFltb S754_nan x = false.
Proof. reflexivity. Qed.

(** [a] is not below [c] and [n] is: then [n] is below [a], unless [a] is
    not a number. *)
Lemma ltb_below_all (a c n : float) :
  SFltb a c = false -> SFltb n c = true -> SFltb n a = true \/ a = S754_nan.
Proof. by_cases3 a c n. Qed.

Lemma ltb_not_eqb (x y : float) : SFltb x y = true -> SFeqb y x = false.
Proof. by_cases2 x y. Qed.

Lemma eqb_nan_l (x : float) : SFeqb S754_nan x = false.
Proof. reflexivity. Qed.

End FloatOrder.

(** ** The result monad *)

Lemma bind_ok {A B : Type} (c : result A) (k : A -> result B) (b : B) :
  bind c k = Ok b -> exists a, c = Ok a /\ k a = Ok b.
Proof.
  destruct c as [a| |]; simpl; intro H; try discriminate.
  exists a. split; [reflexivity | exact H].
Qed.

Lemma for_each_app {A S : Type} (body : S -> A -> result S) (l1 l2 : list A) (s : S) :
  for_each body (l1 ++ l2) s = bind (for_each body l1 s) (for_each body l2).
Proof.
  revert s. induction l1 as [|x l1 IH]; intro s; simpl.
  - reflexivity.
  - destruct (body s x) as [s1| |]; simpl; auto.
Qed.

(** A computation returns when the test [returned] says so. *)
Lemma returns_ok {A : Type} (c : result A) :
  returned c = true -> exists a, c = Ok a.
Proof. destruct c as [a| |]; [exists a; reflexivity | discriminate | discriminate]. Qed.

Ltac bind_inv H :=
  match type of H with
  | bind ?c ?k = Ok _ =>
      let a := fresh "a" in
      let Ha := fresh "Ha" in
      apply bind_ok in H; destruct H as (a & Ha & H)
  end.

(** ** Macro selection *)

Section SelectionLoop.

Import memory Selection.

Variables (words_per_hbank d h : Z) (s0 : memory.t).

Let estimate := bank_estimate (width s0) words_per_hbank d h.

(** One turn of the loop: the macro is skipped, or it is estimated and then
    either taken or left. *)
Lemma try_bank_cases (s s' : memory.t) (ram : sram.t) :
  request_of s = request_of s0 ->
  try_bank words_per_hbank d h s ram = Ok s' ->
  request_of s' = request_of s0 /\
  ((skipped s0 ram = true /\ s' = s) \/
   (skipped s0 ram = false /\
    exists hh v a, estimate ram = Ok (hh, v, a) /\
      ((SFltb a (area s) = true /\ bank_type s' = Some ram /\ area s' = a
        /\ hhbanks s' = hh /\ vbanks s' = v) \/
       (SFltb a (area s) = false /\ s' = s)))).
Proof.
  intros Hreq H. unfold try_bank in H.
  assert (Hd : need_dual_port s = need_dual_port s0)
    by (apply (f_equal need_dual_port) in Hreq; exact Hreq).
  assert (Hw : width s = width s0)
    by (apply (f_equal width) in Hreq; exact Hreq).
  unfold skipped, estimate, bank_estimate. rewrite <- Hd, <- Hw.
  destruct (need_dual_port s && (sram.ports ram <? 2)) eqn:Hskip.
  - inversion H; subst. split; [exact Hreq | left; auto].
  - bind_inv H. rename a into hh. bind_inv H. rename a into v.
    bind_inv H. rename a into na.
    rewrite Ha; simpl; rewrite Ha0; simpl; rewrite Ha1; simpl.
    unfold gt in H. destruct (SFltb na (area s)) eqn:Hlt.
    + inversion H; subst; clear H. split.
      * rewrite <- Hreq. reflexivity.
      * right. split; [reflexivity|]. exists hh, v, na. split; [reflexivity|].
        left. simpl. auto.
    + inversion H; subst. split; [exact Hreq|].
      right. split; [reflexivity|]. exists hh, v, na. split; [reflexivity|].
      right. auto.
Qed.

Lemma selected_step (s s' : memory.t) (seen : list sram.t) (ram : sram.t) :
  selected words_per_hbank d h s0 s seen ->
  try_bank words_per_hbank d h s ram = Ok s' ->
  selected words_per_hbank d h s0 s' (seen ++ [ram]).
Proof.
  unfold selected. fold estimate. intros [Hreq Hsel] Htry.
  destruct (try_bank_cases s s' ram Hreq Htry) as [Hreq' Hcases].
  split; [exact Hreq'|].
  destruct Hcases as [[Hskip ->] | [Hskip (hh & v & a & Hest & Hcase)]].
  - (* skipped *)
    destruct Hsel as [(Hb & Ha & Hall) | (before & r0 & after & hh & v & -> & Hrest)].
    + left. repeat split; auto. intros r Hin Hq.
      apply in_app_or in Hin. destruct Hin as [Hin | [<- | []]]; [auto | congruence].
    + right. exists before, r0, (after ++ [ram]), hh, v.
      destruct Hrest as (Hb & Hq0 & He0 & Hhh & Hv & Hbefore & Hafter).
      rewrite <- app_assoc. simpl. repeat split; auto.
      intros r Hin Hq. apply in_app_or in Hin.
      destruct Hin as [Hin | [<- | []]]; [auto | congruence].
  - destruct Hcase as [(Hlt & Hb' & Ha' & Hhh' & Hv') | (Hnlt & ->)].
    + (* taken *)
      right. exists seen, ram, [], hh, v.
      repeat split; auto; try (rewrite Ha'; exact Hest).
      * intros r Hin Hq. rewrite Ha'.
        destruct Hsel as [(Hb & Ha & Hall) | (before & r0 & after & hh0 & v0 & -> & Hrest)].
        -- destruct (Hall r Hin Hq) as (hh1 & v1 & a1 & He1 & Hn1).
           exists hh1, v1, a1. split; [exact He1|].
           rewrite Ha in Hlt. exact (ltb_below_all a1 inf a Hn1 Hlt).
        -- destruct Hrest as (Hb & Hq0 & He0 & Hhh & Hv & Hbefore & Hafter).
           apply in_app_or in Hin. destruct Hin as [Hin | [<- | Hin]].
           ++ destruct (Hbefore r Hin Hq) as (hh1 & v1 & a1 & He1 & Hn1).
              exists hh1, v1, a1. split; [exact He1|].
              destruct Hn1 as [Hn1 | Hn1]; [left | right; exact Hn1].
              exact (ltb_trans _ _ _ Hlt Hn1).
           ++ exists hh0, v0, (area s). split; [exact He0 | left; exact Hlt].
           ++ destruct (Hafter r Hin Hq) as (hh1 & v1 & a1 & He1 & Hn1).
              exists hh1, v1, a1. split; [exact He1|].
              exact (ltb_below_all a1 (area s) a Hn1 Hlt).
      * intros r [].
    + (* left *)
      destruct Hsel as [(Hb & Ha & Hall) | (before & r0 & after & hh0 & v0 & -> & Hrest)].
      * left. repeat split; auto. intros r Hin Hq.
        apply in_app_or in Hin. destruct Hin as [Hin | [<- | []]]; [auto|].
        exists hh, v, a. split; [exact Hest|]. rewrite <- Ha. exact Hnlt.
      * right. exists before, r0, (after ++ [ram]), hh0, v0.
        destruct Hrest as (Hb & Hq0 & He0 & Hhh & Hv & Hbefore & Hafter).
        rewrite <- app_assoc. simpl. repeat split; auto.
        intros r Hin Hq. apply in_app_or in Hin.
        destruct Hin as [Hin | [<- | []]]; [auto|].
        exists hh, v, a. split; [exact Hest | exact Hnlt].
Qed.

Lemma selected_loop (rest seen : list sram.t) (s s' : memory.t) :
  selected words_per_hbank d h s0 s seen ->
  for_each (try_bank words_per_hbank d h) rest s = Ok s' ->
  selected words_per_hbank d h s0 s' (seen ++ rest).
Proof.
  revert seen s. induction rest as [|ram rest IH]; intros seen s Hsel Hloop.
  - simpl in Hloop. inversion Hloop; subst. rewrite app_nil_r. exact Hsel.
  - simpl in Hloop. bind_inv Hloop.
    replace (seen ++ ram :: rest) with ((seen ++ [ram]) ++ rest)
      by (rewrite <- app_assoc; reflexivity).
    apply (IH _ a); [|exact Hloop].
    exact (selected_step s a seen ram Hsel Ha).
Qed.

End SelectionLoop.

(** ** The passes of [__find_hbanks] *)

Section Passes.

Import memory memory_operation.

Lemma fold_max_bounds {A : Type} (f : A -> Z) (l : list A) (init : Z) :
  let v := fold_left (fun acc x => Z.max acc (f x)) l init in
  init <= v /\ (forall x, In x l -> f x <= v) /\
  (v = init \/ exists x, In x l /\ f x = v).
Proof.
  revert init. induction l as [|y l IH]; intro init; simpl.
  - repeat split; [lia | intros x [] | left; reflexivity].
  - destruct (IH (Z.max init (f y))) as (H1 & H2 & H3).
    repeat split.
    + lia.
    + intros x [<- | Hin]; [lia | auto].
    + destruct H3 as [H3 | (x & Hin & Hx)].
      * destruct (Z.max_spec init (f y)) as [[_ Hm] | [_ Hm]].
        -- right. exists y. split; [left; reflexivity | lia].
        -- left. lia.
      * right. exists x. auto.
Qed.

(** A running maximum that starts at 1 over contributions that are at
    least 1 is their maximum as soon as there is one. *)
Lemma fold_max_maximum {A : Type} (f : A -> Z) (l : list A) :
  l <> [] -> (forall x, In x l -> 1 <= f x) ->
  maximum_over f l (fold_left (fun acc x => Z.max acc (f x)) l 1).
Proof.
  intros Hne Hge.
  destruct (fold_max_bounds f l 1) as (H1 & H2 & H3).
  split; [|exact H2].
  destruct H3 as [H3 | H3]; [|exact H3].
  destruct l as [|x l]; [congruence|].
  exists x. split; [left; reflexivity|].
  specialize (H2 x (or_introl eq_refl)). specialize (Hge x (or_introl eq_refl)).
  lia.
Qed.

(** The attributes each loop leaves alone. *)
Definition beside_interfaces (s : memory.t) :=
  (name s, words s, width s, ops s, duplication_factor s, distribution_factor s,
   dbanks s, hbanks s, (vbanks s, hhbanks s, bank_type s, area s)).

Definition beside_duplication (s : memory.t) :=
  (name s, words s, width s, ops s, read_interfaces s, write_interfaces s,
   need_dual_port s, need_parallel_rw s, distribution_factor s,
   (dbanks s, hbanks s, vbanks s, hhbanks s, bank_type s, area s)).

Definition beside_distribution (s : memory.t) :=
  (name s, words s, width s, ops s, read_interfaces s, write_interfaces s,
   need_dual_port s, need_parallel_rw s, duplication_factor s,
   (dbanks s, hbanks s, vbanks s, hhbanks s, bank_type s, area s)).

Lemma find_interfaces_loop (l : list memory_operation.t) (s : memory.t) :
  let s' := fold_left find_interfaces l s in
  beside_interfaces s' = beside_interfaces s /\
  read_interfaces s' = fold_left (fun acc op => Z.max acc (rn op)) l (read_interfaces s) /\
  write_interfaces s' = fold_left (fun acc op => Z.max acc (wn op)) l (write_interfaces s) /\
  need_parallel_rw s' =
    need_parallel_rw s || existsb (fun op => (rn op >? 0) && (wn op >? 0)) l.
Proof.
  revert s. induction l as [|op l IH]; intro s; simpl.
  - repeat split. rewrite orb_false_r. reflexivity.
  - destruct (IH (find_interfaces s op)) as (H1 & H2 & H3 & H4).
    rewrite H1, H2, H3, H4. simpl. rewrite orb_assoc. repeat split.
Qed.

Lemma find_duplication_loop (l : list memory_operation.t) (s s' : memory.t) :
  for_each find_duplication l s = Ok s' ->
  beside_duplication s' = beside_duplication s /\
  exists ds, Forall2 (fun op d => op_duplication_factor op = Ok d) l ds /\
    duplication_factor s' = fold_left Z.max ds (duplication_factor s).
Proof.
  revert s. induction l as [|op l IH]; intros s H; simpl in H.
  - inversion H; subst. split; [reflexivity|]. exists []. split; [constructor | reflexivity].
  - bind_inv H. unfold find_duplication in Ha. bind_inv Ha. rename a0 into d.
    inversion Ha; subst; clear Ha.
    destruct (IH _ H) as (H1 & ds & H2 & H3).
    split; [rewrite H1; reflexivity|].
    exists (d :: ds). split; [constructor; assumption|]. rewrite H3. reflexivity.
Qed.

Lemma find_distribution_loop (l : list memory_operation.t) (s : memory.t) :
  let s' := fold_left find_distribution l s in
  beside_distribution s' = beside_distribution s /\
  distribution_factor s' =
    fold_left (fun acc op => Z.max acc (op_distribution_factor (need_parallel_rw s) op))
      l (distribution_factor s).
Proof.
  revert s. induction l as [|op l IH]; intro s; simpl.
  - repeat split.
  - destruct (IH (find_distribution s op)) as (H1 & H2).
    rewrite H1, H2. simpl. repeat split.
Qed.

End Passes.

(** ** Requests *)

Section Requests.

Import memory memory_operation.

Lemma parse_op_valid (token : string) (mem_words : Z) (op : memory_operation.t) :
  parse_op token mem_words = Ok op -> valid_op op.
Proof.
  unfold parse_op. intro H.
  repeat bind_inv H. unfold die_werr in *.
  rename a6 into read_number, a1 into write_number.
  destruct ((read_number >? mem_words) || (write_number >? mem_words)); [discriminate|].
  destruct ((read_number >? 16) || (read_number <? 0)) eqn:Hr; [discriminate|].
  bind_inv H. rename a1 into read_pattern.
  destruct ((write_number >? 16) || (write_number <? 0)) eqn:Hw; [discriminate|].
  bind_inv H. rename a1 into write_pattern.
  inversion H; subst; clear H. simpl.
  apply orb_false_elim in Hr, Hw.
  split; [lia|]. split; [lia|].
  split; [|split].
  - intros ->.
    destruct (re_match_ignorecase "ru" a8); [discriminate|].
    destruct (re_match_ignorecase "r" a8); [|discriminate].
    destruct (is_power2z read_number); [reflexivity | discriminate].
  - intros ->.
    destruct (re_match_ignorecase "wu" a3).
    + destruct (write_number >? 2); [discriminate|].
      destruct ((write_number =? 2) && negb (read_number =? 0)); discriminate.
    + destruct (re_match_ignorecase "w" a3); [|discriminate].
      destruct (is_power2z write_number); [reflexivity | discriminate].
  - intros ->.
    destruct (re_match_ignorecase "wu" a3).
    + destruct (write_number >? 2) eqn:H2; [discriminate|].
      destruct ((write_number =? 2) && negb (read_number =? 0)) eqn:H3; [discriminate|].
      split; [lia|]. intros ->. simpl in H3.
      apply negb_false_iff in H3. lia.
    + destruct (re_match_ignorecase "w" a3); [|discriminate].
      destruct (negb (is_power2z write_number)); discriminate.
Qed.

Lemma requested_valid (m : memory.t) :
  requested m -> Forall valid_op (ops m) /\ ops m <> [].
Proof.
  intros (n & w & wd & l & Hinit & Hops). unfold __init__, die_werr in Hinit.
  destruct (w <=? 0); [discriminate|].
  destruct (wd <=? 0); [discriminate|].
  destruct l as [|op l]; [discriminate|]. simpl in Hinit.
  inversion Hinit; subst; clear Hinit. simpl. split; [|discriminate].
  eapply Forall_impl; [|exact Hops].
  intros o (token & Hp). exact (parse_op_valid _ _ _ Hp).
Qed.

(** A constructed memory holds the class defaults. *)
Lemma requested_defaults (m : memory.t) :
  requested m ->
  0 < words m /\ 0 < width m /\
  read_interfaces m = 1 /\ write_interfaces m = 1 /\
  need_dual_port m = false /\ need_parallel_rw m = false /\
  duplication_factor m = 1 /\ distribution_factor m = 1 /\
  bank_type m = None /\ area m = inf.
Proof.
  intros (n & w & wd & l & Hinit & _). unfold __init__, die_werr in Hinit.
  destruct (w <=? 0) eqn:Hw; [discriminate|].
  destruct (wd <=? 0) eqn:Hwd; [discriminate|].
  destruct (List.length l =? 0)%nat; [discriminate|].
  inversion Hinit; subst; clear Hinit. simpl. repeat split; lia.
Qed.

(** [read_infile] only ever adds requested memories. *)
Lemma read_infile_requested (fd : list string) (mem_list mem_list' : list memory.t) :
  Forall requested mem_list ->
  read_infile fd mem_list = Ok mem_list' ->
  Forall requested mem_list'.
Proof.
  unfold read_infile. revert mem_list.
  induction fd as [|ln fd IH]; intros mem_list Hall H; simpl in H.
  - inversion H; subst. exact Hall.
  - bind_inv H. apply (IH a); [|exact H]. clear IH H.
    unfold read_infile_line in Ha.
    destruct (re_match_hash_dots ln); [inversion Ha; subst; exact Hall|].
    repeat bind_inv Ha. inversion Ha; subst; clear Ha.
    apply Forall_app. split; [exact Hall|]. constructor; [|constructor].
    exists a0, a2, a4, a5. split; [assumption|].
    clear - Ha5.
    assert (G : forall l acc out,
               Forall (fun op => exists token, parse_op token a2 = Ok op) acc ->
               for_each (fun mem_ops i => o <- parse_op i a2 ;; Ok (mem_ops ++ [o])) l acc = Ok out ->
               Forall (fun op => exists token, parse_op token a2 = Ok op) out).
    { induction l as [|tk l IHl]; intros acc out Hacc Hl; simpl in Hl.
      - inversion Hl; subst. exact Hacc.
      - bind_inv Hl. bind_inv Ha. inversion Ha; subst; clear Ha.
        apply (IHl (acc ++ [a0]) out); [|exact Hl].
        apply Forall_app. split; [exact Hacc|]. constructor; [|constructor].
        exists tk. exact Ha0. }
    exact (G _ _ _ (Forall_nil _) Ha5).
Qed.

End Requests.

(** ** Planning as a whole *)

Section Planning.

Import memory memory_operation Selection.

(** What [__find_hbanks] leaves in a requested memory. *)
Lemma find_hbanks_plan (m h : memory.t) :
  requested m -> __find_hbanks m = Ok h ->
  (name h, words h, width h, ops h) = (name m, words m, width m, ops m) /\
  bank_type h = None /\ area h = inf /\
  dbanks h = duplication_factor h /\ hbanks h = distribution_factor h /\
  read_interfaces h = fold_left (fun acc op => Z.max acc (rn op)) (ops m) 1 /\
  write_interfaces h = fold_left (fun acc op => Z.max acc (wn op)) (ops m) 1 /\
  need_parallel_rw h = existsb (fun op => (rn op >? 0) && (wn op >? 0)) (ops m) /\
  (exists ds, Forall2 (fun op d => op_duplication_factor op = Ok d) (ops m) ds /\
     duplication_factor h = fold_left Z.max ds 1) /\
  distribution_factor h =
    fold_left (fun acc op => Z.max acc (op_distribution_factor (need_parallel_rw h) op))
      (ops m) 1.
Proof.
  intros Hreq H.
  destruct (requested_defaults m Hreq)
    as (_ & _ & Hri & Hwi & _ & Hprw & Hdf & Hhf & Hbt & Har).
  unfold __find_hbanks in H.
  destruct (find_interfaces_loop (ops m) m) as (I1 & I2 & I3 & I4).
  set (s1 := fold_left find_interfaces (ops m) m) in *.
  bind_inv H. rename a into s2.
  assert (Hops1 : ops s1 = ops m) by (apply (f_equal (fun t => snd (fst (fst (fst (fst (fst t))))))) in I1; exact I1).
  rewrite Hops1 in Ha.
  destruct (find_duplication_loop (ops m) s1 s2 Ha) as (D1 & ds & D2 & D3).
  assert (Hops2 : ops s2 = ops m).
  { apply (f_equal (fun t => snd (fst (fst (fst (fst (fst (fst t)))))))) in D1.
    simpl in D1. congruence. }
  rewrite Hops2 in H.
  destruct (find_distribution_loop (ops m) s2) as (H1 & H2).
  set (s3 := fold_left find_distribution (ops m) s2) in *.
  inversion H; subst h; clear H. simpl.
  unfold beside_interfaces, beside_duplication, beside_distribution in *.
  injection I1; intros. injection D1; intros. injection H1; intros.
  rewrite Hprw in I4. simpl in I4.
  repeat split; try congruence.
  - exists ds. split; [exact D2|]. congruence.
  - rewrite H2. f_equal; [|congruence].
    replace (need_parallel_rw s3) with (need_parallel_rw s2) by congruence.
    reflexivity.
Qed.

(** [gen] returns when both passes do and a bank was chosen. *)
Lemma gen_ok (m m' : memory.t) (lib : list sram.t) :
  gen m lib = Ok m' ->
  exists h ram, __find_hbanks m = Ok h /\ __find_vbanks h lib = Ok m'
                /\ bank_type m' = Some ram.
Proof.
  unfold gen. intro H. bind_inv H. rename a into h. bind_inv H. rename a into v.
  destruct (bank_type v) as [ram|] eqn:Hb; [|discriminate].
  inversion H; subst. exists h, ram. auto.
Qed.

Lemma find_vbanks_selected (h m' : memory.t) (lib : list sram.t) :
  bank_type h = None -> area h = inf ->
  __find_vbanks h lib = Ok m' ->
  exists words_per_hbank,
    ceil_div (words h) (hbanks h) = Ok words_per_hbank /\
    selected words_per_hbank (dbanks h) (hbanks h) h m' lib.
Proof.
  intros Hb Ha H. unfold __find_vbanks in H. bind_inv H. rename a into wph.
  exists wph. split; [assumption|].
  apply (selected_loop wph (dbanks h) (hbanks h) h lib [] h m'); [|exact H].
  split; [reflexivity|]. left. repeat split; auto. intros r [].
Qed.

(** The loop's estimate is the estimate of the specification. *)
Lemma estimate_agrees (h m' : memory.t) (wph : Z) (ram : sram.t) :
  request_of m' = request_of h ->
  dbanks h = duplication_factor h -> hbanks h = distribution_factor h ->
  ceil_div (words h) (hbanks h) = Ok wph ->
  estimated_area m' ram = bank_estimate (width h) wph (dbanks h) (hbanks h) ram.
Proof.
  intros Hreq Hd Hh Hw. unfold estimated_area, bank_estimate.
  unfold request_of in Hreq.
  injection Hreq as E1 E2 E3 E4 E5 E6 E7 E8 E9 E10 E11 E12.
  rewrite E2, E3, E9, E10, <- Hd, <- Hh, Hw. simpl.
  destruct (ceil_div (width h) (sram.width ram)) as [hh| |]; simpl; try reflexivity.
  destruct (ceil_div wph (sram.words ram)) as [v| |]; simpl; try reflexivity.
  replace (dbanks h * hbanks h * v * hh) with (dbanks h * hbanks h * hh * v) by ring.
  reflexivity.
Qed.

End Planning.

(** ** Contributions of one operation *)

Section Contributions.

Import memory memory_operation Contribution.

Lemma ceil_div_half (n : Z) : 0 <= n <= 16 -> ceil_div n 2 = Ok (ceil_half n).
Proof.
  intro H.
  assert (E : n = 0 \/ n = 1 \/ n = 2 \/ n = 3 \/ n = 4 \/ n = 5 \/ n = 6 \/ n = 7
              \/ n = 8 \/ n = 9 \/ n = 10 \/ n = 11 \/ n = 12 \/ n = 13 \/ n = 14
              \/ n = 15 \/ n = 16) by lia.
  repeat (destruct E as [-> | E]; [reflexivity|]). subst. reflexivity.
Qed.

Lemma op_duplication_factor_spec (op : memory_operation.t) :
  valid_op op -> op_duplication_factor op = Ok (duplication op) /\ 1 <= duplication op.
Proof.
  destruct op as [rn rp wn wp]. simpl.
  intros (Hr & Hw & _ & _ & Hu).
  unfold op_duplication_factor, duplication, read_duplication, ceil_half. simpl.
  assert (H2 : forall n, 0 <= n <= 16 -> ceil_div n 2 = Ok ((n + 1) / 2))
    by exact ceil_div_half.
  destruct rp, wp; simpl;
    destruct (rn >? 1) eqn:R1; destruct (wn >? 1) eqn:W1;
    destruct (rn =? 0) eqn:R0; destruct (wn =? 0) eqn:W0;
    destruct (rn >? 0) eqn:Rp; destruct (wn >? 0) eqn:Wp;
    simpl; try lia;
    rewrite ?(H2 rn Hr), ?(H2 wn Hw); simpl;
    (split; [reflexivity|]);
    try (apply Z.div_le_lower_bound; lia); lia.
Qed.

Lemma op_distribution_factor_spec (prw : bool) (op : memory_operation.t) :
  valid_op op ->
  op_distribution_factor prw op = distribution prw op /\ 1 <= distribution prw op.
Proof.
  destruct op as [rn rp wn wp]. simpl.
  intros (Hr & Hw & _).
  unfold op_distribution_factor, distribution, read_distribution, write_distribution.
  simpl. rewrite !Z.shiftr_div_pow2 by lia. change (2 ^ 1) with 2.
  assert (Hh : forall n, 1 < n -> 1 <= n / 2)
    by (intros n Hn; apply Z.div_le_lower_bound; lia).
  destruct rp, wp, prw; simpl;
    destruct (rn >? 1) eqn:R1; destruct (wn >? 1) eqn:W1;
    destruct (rn =? 0) eqn:R0; destruct (wn =? 0) eqn:W0;
    destruct (rn >? 0) eqn:Rp; destruct (wn >? 0) eqn:Wp;
    simpl; try lia;
    try (assert (1 <= rn / 2) by (apply Hh; lia));
    try (assert (1 <= wn / 2) by (apply Hh; lia));
    lia.
Qed.

Lemma fold_left_max_map {A : Type} (f : A -> Z) (l : list A) (init : Z) :
  fold_left Z.max (map f l) init = fold_left (fun acc x => Z.max acc (f x)) l init.
Proof.
  revert init. induction l as [|x l IH]; intro init; simpl; [reflexivity | apply IH].
Qed.

Lemma duplication_factors (l : list memory_operation.t) (ds : list Z) :
  Forall valid_op l ->
  Forall2 (fun op d => op_duplication_factor op = Ok d) l ds ->
  ds = map duplication l.
Proof.
  intros Hv H. induction H as [|op d l ds Hd _ IH]; [reflexivity|].
  inversion Hv; subst. simpl. rewrite (IH H2).
  destruct (op_duplication_factor_spec op H1) as [E _]. congruence.
Qed.

End Contributions.

(** ** The ceiling of a quotient

    [int(math.ceil(a / b))] rounds the quotient to a float before it takes
    the ceiling.  For operands below [2 ^ 53] the rounding never reaches the
    integer below the quotient, and the idiom is the ceiling on the
    integers. *)

Section ExactCeiling.

Import memory memory_operation Selection Contribution.

Lemma ceiling_spec (x y : Z) : 0 < y -> y * (ceiling x y - 1) < x <= y * ceiling x y.
Proof.
  intros Hy. unfold ceiling.
  pose proof (Z.div_mod (- x) y ltac:(lia)) as E.
  pose proof (Z.mod_pos_bound (- x) y Hy) as B. nia.
Qed.

Lemma ceiling_unique (x y c : Z) : 0 < y -> y * (c - 1) < x <= y * c -> ceiling x y = c.
Proof.
  intros Hy H. unfold ceiling.
  assert (E : - x / y = - c); [|lia].
  symmetry. apply (Z.div_unique_pos _ _ _ (y * c - x)); lia.
Qed.

Lemma ceiling_bounds (x y : Z) : 0 < x -> 0 < y -> 1 <= ceiling x y <= x.
Proof.
  intros Hx Hy. pose proof (ceiling_spec x y Hy). nia.
Qed.

(** The number of binary digits of a mantissa. *)
Lemma digits_bounds (p : positive) :
  2 ^ (Zpos (digits2_pos p) - 1) <= Zpos p < 2 ^ Zpos (digits2_pos p).
Proof.
  induction p as [p IH|p IH|]; simpl digits2_pos.
  - rewrite Pos2Z.inj_succ, Z.pow_succ_r by lia.
    replace (Z.succ (Zpos (digits2_pos p)) - 1) with (Z.succ (Zpos (digits2_pos p) - 1)) by lia.
    rewrite Z.pow_succ_r by lia. lia.
  - rewrite Pos2Z.inj_succ, Z.pow_succ_r by lia.
    replace (Z.succ (Zpos (digits2_pos p)) - 1) with (Z.succ (Zpos (digits2_pos p) - 1)) by lia.
    rewrite Z.pow_succ_r by lia. lia.
  - simpl. lia.
Qed.

Lemma digits_unique (p : positive) (n : Z) :
  2 ^ (n - 1) <= Zpos p < 2 ^ n -> Zpos (digits2_pos p) = n.
Proof.
  intros [Hlo Hhi]. destruct (digits_bounds p) as [Dlo Dhi].
  set (d := Zpos (digits2_pos p)) in *.
  assert (0 < d) by (unfold d; lia).
  destruct (Z.lt_trichotomy d n) as [Hlt | [Heq | Hgt]]; [|exact Heq|].
  - assert (2 ^ d <= 2 ^ (n - 1)) by (apply Z.pow_le_mono_r; lia). lia.
  - assert (0 < n).
    { destruct (Z.le_gt_cases n 0) as [Hn|Hn]; [|exact Hn].
      assert (2 ^ n <= 2 ^ 0) by (apply Z.pow_le_mono_r; lia).
      change (2 ^ 0) with 1 in *. lia. }
    assert (2 ^ n <= 2 ^ (d - 1)) by (apply Z.pow_le_mono_r; lia). lia.
Qed.

Lemma digits_below (p : positive) (n : Z) :
  0 <= n -> Zpos p < 2 ^ n -> Zpos (digits2_pos p) <= n.
Proof.
  intros Hn H. destruct (digits_bounds p) as [Lo _].
  destruct (Z.le_gt_cases (Zpos (digits2_pos p)) n) as [L|G]; [exact L|].
  assert (2 ^ n <= 2 ^ (Zpos (digits2_pos p) - 1)) by (apply Z.pow_le_mono_r; lia). lia.
Qed.

(** The division of two mantissas of at most 53 digits: the dividend is
    shifted until the quotient has 53 or 54 digits. *)
Lemma div_core (a b : positive) :
  Zpos (digits2_pos a) <= 53 -> Zpos (digits2_pos b) <= 53 ->
  let s := 53 + Zpos (digits2_pos b) - Zpos (digits2_pos a) in
  SFdiv_core_binary 53 1024 (Zpos a) 0 (Zpos b) 0
  = (Zpos a * 2 ^ s / Zpos b, - s, new_location (Zpos b) ((Zpos a * 2 ^ s) mod Zpos b)).
Proof.
  intros Ha Hb s. unfold SFdiv_core_binary.
  cbn [Zdigits2]. unfold fexp, emin.
  set (d1 := Zpos (digits2_pos a)) in *. set (d2 := Zpos (digits2_pos b)) in *.
  assert (0 < d1) by (unfold d1; lia). assert (0 < d2) by (unfold d2; lia).
  replace (Z.min (Z.max (d1 + 0 - (d2 + 0) - 53) (3 - 1024 - 53)) (0 - 0)) with (- s)
    by (unfold s; lia).
  replace (0 - 0 - - s) with s by lia.
  assert (Hs : 0 < s) by (unfold s; lia).
  destruct s as [|ps|ps] eqn:Es; try lia.
  rewrite Z.shiftl_mul_pow2 by lia.
  unfold Z.div, Z.modulo.
  destruct (Z.div_eucl (Zpos a * 2 ^ Zpos ps) (Zpos b)) as [q r]. reflexivity.
Qed.

Lemma new_location_exact (b r : Z) : new_location b r = loc_Exact <-> r = 0.
Proof.
  unfold new_location, new_location_even, new_location_odd.
  destruct (Z.even b); destruct (r =? 0) eqn:E;
    (apply Z.eqb_eq in E || apply Z.eqb_neq in E); split; intros;
    try discriminate; lia || reflexivity.
Qed.

(** The second half of [binary_round_aux]: the rounded mantissa is
    shifted once more when the rounding carried into a 54th digit. *)
Definition second_stage (sx : bool) (m0 e : Z) : float :=
  let '(mrs'', e'') := shr_fexp 53 1024 m0 e loc_Exact in
  match shr_m mrs'' with
  | Z0 => S754_zero sx
  | Zpos m => if Z.leb e'' (1024 - 53) then S754_finite sx m e'' else S754_infinity sx
  | _ => S754_nan
  end.

Lemma binary_round_aux_stages (sx : bool) (mx ex : Z) (lx : location) :
  binary_round_aux 53 1024 sx mx ex lx
  = let '(mrs', e') := shr_fexp 53 1024 mx ex lx in
    second_stage sx (round_nearest_even (shr_m mrs') (loc_of_shr_record mrs')) e'.
Proof.
  unfold binary_round_aux, second_stage.
  destruct (shr_fexp 53 1024 mx ex lx) as [mrs' e']. reflexivity.
Qed.

Lemma second_stage_shape (m0 e : Z) :
  2 ^ 52 <= m0 <= 2 ^ 53 -> -1000 <= e <= 900 ->
  exists m e', second_stage false m0 e = S754_finite false m e' /\
               e <= e' /\ Zpos m * 2 ^ (e' - e) = m0.
Proof.
  intros Hm He. unfold second_stage, shr_fexp.
  destruct m0 as [|p|p]; try lia.
  destruct (Z.eq_dec (Zpos p) (2 ^ 53)) as [E|NE].
  - injection E as ->. cbn [Zdigits2 digits2_pos Pos.succ].
    unfold fexp, emin.
    replace (Z.max (54 + e - 53) (3 - 1024 - 53) - e) with 1 by lia.
    cbn. replace (e + 1 <=? 971) with true by (symmetry; apply Z.leb_le; lia).
    eexists _, _. split; [reflexivity|]. split; [lia|].
    replace (e + 1 - e) with 1 by lia. reflexivity.
  - assert (D : Zpos (digits2_pos p) = 53)
      by (apply digits_unique; change (2 ^ 53) with 9007199254740992 in *;
          change (2 ^ (53 - 1)) with (2 ^ 52); lia).
    cbn [Zdigits2]. rewrite D. unfold fexp, emin.
    replace (Z.max (53 + e - 53) (3 - 1024 - 53) - e) with 0 by lia.
    cbn. replace (e <=? 971) with true by (symmetry; apply Z.leb_le; lia).
    eexists _, _. split; [reflexivity|]. split; [lia|].
    rewrite Z.sub_diag. cbn. lia.
Qed.

(** Rounding a quotient [q] of 53 or 54 digits at the scale [2 ^ - s]: the
    result is [M * 2 ^ - s] for an [M] that is [q] or next to it; it is [q]
    when [q] is even and nothing was left over, and it is below [q] only
    when nothing was left over. *)
Lemma round_shape (q s : Z) (l : location) :
  2 ^ 52 <= q < 2 ^ 54 -> 1 <= s <= 200 ->
  exists m e M,
    binary_round_aux 53 1024 false q (- s) l = S754_finite false m e /\
    - s <= e /\ Zpos m * 2 ^ (e + s) = M /\
    M <= q + 1 /\
    (l = loc_Exact -> Z.even q = true -> M = q) /\
    (q <= M \/ (l = loc_Exact /\ M = q - 1)).
Proof.
  intros Hq Hs. rewrite binary_round_aux_stages. unfold shr_fexp.
  change (2 ^ 52) with 4503599627370496 in Hq.
  change (2 ^ 54) with 18014398509481984 in Hq.
  destruct q as [|p|p]; try lia. cbn [Zdigits2].
  destruct (Z_lt_le_dec (Zpos p) (2 ^ 53)) as [Lt|Ge];
    change (2 ^ 53) with 9007199254740992 in *.
  - assert (D : Zpos (digits2_pos p) = 53)
      by (apply digits_unique; change (2 ^ 53) with 9007199254740992 in *;
          change (2 ^ (53 - 1)) with 4503599627370496; lia).
    rewrite D. unfold fexp, emin.
    replace (Z.max (53 + - s - 53) (3 - 1024 - 53) - - s) with 0 by lia.
    cbn [shr].
    set (m0 := round_nearest_even _ _).
    assert (Hm0 : Zpos p <= m0 <= Zpos p + 1 /\ (l = loc_Exact -> m0 = Zpos p)).
    { unfold m0. destruct l as [|[]];
        cbn [shr_record_of_loc shr_m loc_of_shr_record round_nearest_even];
        try destruct (Z.even (Zpos p)); split; try lia; try discriminate; auto. }
    destruct Hm0 as [Hm0 Hex].
    destruct (second_stage_shape m0 (- s)) as (m & e & -> & He & Hv).
    { change (2 ^ 52) with 4503599627370496; change (2 ^ 53) with 9007199254740992; lia. }
    { lia. }
    exists m, e, m0. replace (e + s) with (e - - s) by lia.
    repeat split; auto; try lia.
  - assert (D : Zpos (digits2_pos p) = 54)
      by (apply digits_unique; change (2 ^ 54) with 18014398509481984 in *;
          change (2 ^ (54 - 1)) with 9007199254740992; lia).
    rewrite D. unfold fexp, emin.
    replace (Z.max (54 + - s - 53) (3 - 1024 - 53) - - s) with 1 by lia.
    cbn [shr iter_pos].
    set (m0 := round_nearest_even _ _).
    assert (Hm0 : Zpos p - 1 <= 2 * m0 <= Zpos p + 1 /\
                  (l = loc_Exact -> Z.even (Zpos p) = true -> 2 * m0 = Zpos p) /\
                  (Zpos p <= 2 * m0 \/ (l = loc_Exact /\ 2 * m0 = Zpos p - 1))).
    { unfold m0. destruct p as [p'|p'|]; try lia.
      - destruct l as [|[]];
          cbn [shr_record_of_loc shr_1 orb shr_m loc_of_shr_record round_nearest_even].
        + destruct (Z.even (Zpos p')) eqn:Ev;
            repeat split; try lia; try discriminate; auto.
        + repeat split; try lia; try discriminate.
        + repeat split; try lia; try discriminate.
        + repeat split; try lia; try discriminate.
      - destruct l as [|[]];
          cbn [shr_record_of_loc shr_1 orb shr_m loc_of_shr_record round_nearest_even];
          repeat split; try lia; try discriminate. }
    destruct Hm0 as (Hm0 & Hex & Hlow).
    destruct (second_stage_shape m0 (- s + 1)) as (m & e & -> & He & Hv).
    { change (2 ^ 52) with 4503599627370496; change (2 ^ 53) with 9007199254740992; lia. }
    { lia. }
    exists m, e, (2 * m0).
    replace (e + s) with (Z.succ (e - (- s + 1))) by lia.
    rewrite Z.pow_succ_r by lia.
    repeat split; auto; try lia.
Qed.

(** [math.ceil] of a float [m * 2 ^ e], seen at a scale [2 ^ - S] it is a
    multiple of. *)
Lemma ceil_scaled (m : positive) (e S : Z) :
  0 <= S -> 0 <= e + S ->
  ceil (S754_finite false m e) = Ok (ceiling (Zpos m * 2 ^ (e + S)) (2 ^ S)).
Proof.
  intros HS HeS. unfold ceil, ceiling.
  destruct (0 <=? e) eqn:He.
  - apply Z.leb_le in He. rewrite Z.pow_add_r by lia.
    rewrite Z.mul_assoc, <- Z.mul_opp_l, Z.div_mul by (apply Z.pow_nonzero; lia).
    f_equal. lia.
  - apply Z.leb_gt in He.
    replace (2 ^ S) with (2 ^ (- e) * 2 ^ (e + S))
      by (rewrite <- Z.pow_add_r by lia; f_equal; lia).
    rewrite <- Z.mul_opp_l, Z.div_mul_cancel_r
      by (apply Z.pow_nonzero; lia).
    reflexivity.
Qed.

Lemma ceil_div_exact (a b : positive) :
  Zpos a < 2 ^ 53 -> Zpos b < 2 ^ 53 ->
  ceil_div (Zpos a) (Zpos b) = Ok (ceiling (Zpos a) (Zpos b)).
Proof.
  intros Ha Hb.
  pose proof (digits_below a 53 ltac:(lia) Ha) as Da.
  pose proof (digits_below b 53 ltac:(lia) Hb) as Db.
  unfold ceil_div, truediv. cbn [Z.eqb exact]. unfold SFdiv.
  change prec with 53. change emax with 1024.
  rewrite (div_core a b Da Db). cbv zeta.
  destruct (digits_bounds a) as [La Ua]. destruct (digits_bounds b) as [Lb Ub].
  set (d1 := Zpos (digits2_pos a)) in *. set (d2 := Zpos (digits2_pos b)) in *.
  assert (0 < d1) by (unfold d1; lia). assert (0 < d2) by (unfold d2; lia).
  set (s := 53 + d2 - d1).
  assert (Hs : 1 <= s <= 200) by (unfold s; lia).
  set (P := 2 ^ s).
  assert (HP : Zpos b < P).
  { assert (2 ^ d2 <= 2 ^ s) by (apply Z.pow_le_mono_r; unfold s; lia). unfold P. lia. }
  set (N := Zpos a * P).
  pose proof (Z.div_mod N (Zpos b) ltac:(lia)) as EN.
  pose proof (Z.mod_pos_bound N (Zpos b) ltac:(lia)) as BN.
  set (q := N / Zpos b) in *. set (r := N mod Zpos b) in *.
  assert (Hq : 2 ^ 52 <= q < 2 ^ 54).
  { split.
    - apply Z.div_le_lower_bound; [lia|].
      assert (E : 2 ^ (d1 - 1) * P = 2 ^ 52 * 2 ^ d2)
        by (unfold P; rewrite <- !Z.pow_add_r by lia; f_equal; unfold s; lia).
      assert (0 < 2 ^ 52) by (apply Z.pow_pos_nonneg; lia).
      assert (0 < P) by (apply Z.pow_pos_nonneg; lia).
      unfold N. nia.
    - apply Z.div_lt_upper_bound; [lia|].
      assert (E : 2 ^ d1 * P = 2 ^ 54 * 2 ^ (d2 - 1))
        by (unfold P; rewrite <- !Z.pow_add_r by lia; f_equal; unfold s; lia).
      assert (0 < 2 ^ 54) by (apply Z.pow_pos_nonneg; lia).
      assert (0 < P) by (apply Z.pow_pos_nonneg; lia).
      unfold N. nia. }
  cbn [xorb].
  destruct (round_shape q s (new_location (Zpos b) r) Hq Hs)
    as (m & e & M & -> & He & HM & Hup & Hex & Hlow).
  cbn [bind]. rewrite (ceil_scaled m e s) by lia. rewrite HM. f_equal.
  fold P.
  pose proof (ceiling_spec (Zpos a) (Zpos b) ltac:(lia)) as [C1 C2].
  set (c := ceiling (Zpos a) (Zpos b)) in *.
  assert (0 < P) by (apply Z.pow_pos_nonneg; lia).
  apply ceiling_unique; [lia|]. split.
  - assert (Q1 : (c - 1) * P + 1 <= q).
    { apply Z.div_le_lower_bound; [lia|]. unfold N. nia. }
    destruct Hlow as [L | [Lx ->]]; [lia|].
    apply new_location_exact in Lx.
    assert (q <> (c - 1) * P + 1); [|lia].
    intros Eq. unfold N in EN. nia.
  - assert (Q2 : q <= c * P).
    { apply Z.div_le_upper_bound; [lia|]. unfold N. nia. }
    destruct (Z.eq_dec q (c * P)) as [Eq|Ne]; [|lia].
    rewrite Hex; [lia| |].
    + apply new_location_exact. unfold N in EN. nia.
    + rewrite Eq. unfold P. replace s with (Z.succ (s - 1)) by lia.
      rewrite Z.pow_succ_r by lia.
      rewrite Z.even_mul, Z.even_mul. cbn. apply orb_true_r.
Qed.

(** The idiom of the planner is the ceiling of the quotient for sizes a
    float holds exactly. *)
Lemma ceil_div_ceiling (a b : Z) :
  0 <= a < 2 ^ 53 -> 0 < b < 2 ^ 53 -> ceil_div a b = Ok (ceiling a b).
Proof.
  intros Ha Hb. destruct b as [|b|b]; try lia.
  destruct a as [|a|a]; try lia.
  - reflexivity.
  - apply ceil_div_exact; lia.
Qed.

Lemma distribution_bounds (prw : bool) (op : memory_operation.t) :
  valid_op op -> 1 <= distribution prw op <= 16.
Proof.
  intro Hv. split; [exact (proj2 (op_distribution_factor_spec prw op Hv))|].
  destruct op as [rn rp wn wp]. simpl in Hv. destruct Hv as (Hr & Hw & _).
  unfold distribution, read_distribution, write_distribution. simpl.
  assert (rn / 2 <= 16) by (apply Z.div_le_upper_bound; lia).
  assert (wn / 2 <= 16) by (apply Z.div_le_upper_bound; lia).
  destruct (pattern_eqb rp modulo && (rn >? 1));
    destruct (pattern_eqb wp modulo && (wn >? 1));
    destruct ((wn >? 0) || prw); destruct ((rn >? 0) || prw);
    destruct ((wn =? 0) && negb prw); destruct ((rn =? 0) && negb prw); lia.
Qed.

(** The banks of one macro are exact ceilings. *)
Lemma bank_estimate_exact (width wph d h : Z) (ram : sram.t) (hh v : Z) (a : float) :
  0 <= width < 2 ^ 53 -> 0 <= wph < 2 ^ 53 ->
  0 < sram.words ram < 2 ^ 53 -> 0 < sram.width ram < 2 ^ 53 ->
  bank_estimate width wph d h ram = Ok (hh, v, a) ->
  hh = ceiling width (sram.width ram) /\ v = ceiling wph (sram.words ram).
Proof.
  intros Hwd Hwph Hrw Hrwd H. unfold bank_estimate in H.
  rewrite (ceil_div_ceiling width (sram.width ram) Hwd Hrwd) in H.
  rewrite (ceil_div_ceiling wph (sram.words ram) Hwph Hrw) in H.
  cbn [bind] in H.
  destruct (mul_int_float _ _) as [x| |]; cbn [bind] in H; try discriminate.
  injection H as <- <- _. split; reflexivity.
Qed.

End ExactCeiling.

(** ** The claims about the planner *)

Section PlannerClaims.

Import memory memory_operation Selection Contribution.

(** A planned memory keeps the request and the factors of [__find_hbanks]. *)
Lemma gen_plan (m m' : memory.t) (lib : list sram.t) :
  requested m -> gen m lib = Ok m' ->
  exists h ram wph,
    __find_hbanks m = Ok h /\ request_of m' = request_of h /\
    bank_type m' = Some ram /\
    ceil_div (words h) (hbanks h) = Ok wph /\
    selected wph (dbanks h) (hbanks h) h m' lib.
Proof.
  intros Hreq H.
  destruct (gen_ok m m' lib H) as (h & ram & Hh & Hv & Hb).
  destruct (find_hbanks_plan m h Hreq Hh) as (_ & Hbt & Har & _).
  destruct (find_vbanks_selected h m' lib Hbt Har Hv) as (wph & Hw & Hsel).
  exists h, ram, wph.
  split; [exact Hh|]. split; [exact (proj1 Hsel)|].
  split; [exact Hb|]. split; [exact Hw | exact Hsel].
Qed.

(** The duplication loop returns on parsed operations. *)
Lemma find_duplication_returns (l : list memory_operation.t) (s : memory.t) :
  Forall valid_op l -> exists s', for_each find_duplication l s = Ok s'.
Proof.
  intro Hv. revert s. induction Hv as [|op l Hop _ IH]; intro s; simpl.
  - exists s. reflexivity.
  - unfold find_duplication at 1.
    rewrite (proj1 (op_duplication_factor_spec op Hop)). cbn [bind].
    apply IH.
Qed.

(** [__find_hbanks] returns on every request. *)
Lemma find_hbanks_returns (m : memory.t) :
  requested m -> exists h, __find_hbanks m = Ok h.
Proof.
  intro Hreq. destruct (requested_valid m Hreq) as [Hvalid _].
  unfold __find_hbanks.
  destruct (find_interfaces_loop (ops m) m) as (I1 & _).
  set (s1 := fold_left find_interfaces (ops m) m) in *.
  assert (Hops : ops s1 = ops m) by (injection I1; intros; congruence).
  rewrite Hops.
  destruct (find_duplication_returns (ops m) s1 Hvalid) as [s2 ->].
  cbn [bind]. eexists. reflexivity.
Qed.

Lemma find_hbanks_factors (m h : memory.t) :
  requested m -> __find_hbanks m = Ok h -> maximal_factors h.
Proof.
  intros Hreq Hh.
  destruct (find_hbanks_plan m h Hreq Hh)
    as (Hfix & _ & _ & _ & _ & _ & _ & _ & (ds & Hds & HD) & HH).
  destruct (requested_valid m Hreq) as [Hvalid Hne].
  injection Hfix as F1 F2 F3 F4.
  unfold maximal_factors. rewrite F4. split.
  - rewrite HD, (duplication_factors (ops m) ds Hvalid Hds), fold_left_max_map.
    apply fold_max_maximum; [exact Hne|].
    intros op Hin. rewrite Forall_forall in Hvalid.
    exact (proj2 (op_duplication_factor_spec op (Hvalid op Hin))).
  - rewrite HH.
    replace (fold_left
               (fun acc op => Z.max acc (op_distribution_factor (need_parallel_rw h) op))
               (ops m) 1)
      with (fold_left
              (fun acc op => Z.max acc (distribution (need_parallel_rw h) op))
              (ops m) 1).
    + apply fold_max_maximum; [exact Hne|].
      intros op Hin. rewrite Forall_forall in Hvalid.
      exact (proj2 (op_distribution_factor_spec _ op (Hvalid op Hin))).
    + generalize 1. clear - Hvalid. induction (ops m) as [|op l IH]; intro z; simpl.
      * reflexivity.
      * inversion Hvalid; subst.
        rewrite (proj1 (op_distribution_factor_spec (need_parallel_rw h) op H1)).
        apply IH. assumption.
Qed.


(** C2.  For every memory request, [__find_hbanks] returns a plan whose
    duplication factor is the maximum over the operations of the
    duplication contribution, and whose distribution factor is the maximum
    of the distribution contribution; a memory that [gen] planned has the
    same property. *)
Theorem factors_are_maxima (m : memory.t) :
  requested m ->
  (exists h, __find_hbanks m = Ok h /\ maximal_factors h) /\
  (forall lib m', gen m lib = Ok m' -> maximal_factors m').
Proof.
  intro Hreq. split.
  - destruct (find_hbanks_returns m Hreq) as [h Hh].
    exists h. split; [exact Hh | exact (find_hbanks_factors m h Hreq Hh)].
  - intros lib m' Hgen.
    destruct (gen_plan m m' lib Hreq Hgen) as (h & ram & wph & Hh & Hsame & _).
    pose proof (find_hbanks_factors m h Hreq Hh) as Hmax.
    unfold request_of in Hsame.
    injection Hsame as E1 E2 E3 E4 E5 E6 E7 E8 E9 E10 E11 E12.
    unfold maximal_factors in *. rewrite E4, E8, E9, E10. exact Hmax.
Qed.

(** When no macro of the library qualifies, [gen] ends in an exception
    that is never caught; it never leaves through [die_werr]. *)
Lemma ceil_div_returns_or_raises (a b : Z) :
  (exists v, ceil_div a b = Ok v) \/ (exists e, ceil_div a b = Raise e).
Proof.
  unfold ceil_div, truediv.
  destruct (b =? 0); [right; eexists; reflexivity|].
  destruct (a =? 0); [left; eexists; reflexivity|].
  destruct (SFdiv prec emax (exact a) (exact b)) as [s|s| |s mm e]; simpl;
    try (right; eexists; reflexivity); try (left; eexists; reflexivity).
  destruct (0 <=? e); left; eexists; reflexivity.
Qed.

Lemma unqualified_library_raises (m h : memory.t) (lib : list sram.t) :
  requested m -> __find_hbanks m = Ok h ->
  need_dual_port h = true -> Forall (fun r => sram.ports r < 2) lib ->
  exists e, gen m lib = Raise e.
Proof.
  intros Hreq Hh Hdp Hlib.
  destruct (find_hbanks_plan m h Hreq Hh) as (_ & Hbt & _).
  unfold gen. rewrite Hh. cbn [bind]. unfold __find_vbanks.
  destruct (ceil_div_returns_or_raises (words h) (hbanks h)) as [[v ->] | [e ->]];
    cbn [bind]; [|exists e; reflexivity].
  assert (L : for_each (try_bank v (dbanks h) (hbanks h)) lib h = Ok h).
  { induction Hlib as [|r l Hr _ IH]; [reflexivity|].
    simpl. unfold try_bank at 1. rewrite Hdp.
    replace (sram.ports r <? 2) with true by (symmetry; apply Z.ltb_lt; exact Hr).
    cbn [andb bind]. exact IH. }
  rewrite L. cbn [bind]. rewrite Hbt. exists AttributeError. reflexivity.
Qed.

(** C3, as amended.  For every planned request, [read_interfaces] is the
    larger of 1 and the maximum [rn] of the operations, and
    [write_interfaces] the larger of 1 and the maximum [wn]; when every
    operation has [rn = 0], [read_interfaces] is 1. *)
Theorem interfaces_are_maxima_above_one (m m' : memory.t) (lib : list sram.t) :
  requested m -> gen m lib = Ok m' ->
  (forall r, maximum_over rn (ops m') r -> read_interfaces m' = Z.max 1 r) /\
  (forall w, maximum_over wn (ops m') w -> write_interfaces m' = Z.max 1 w) /\
  (Forall (fun op => rn op = 0) (ops m') -> read_interfaces m' = 1).
Proof.
  intros Hreq Hgen.
  destruct (gen_plan m m' lib Hreq Hgen) as (h & ram & wph & Hh & Hsame & _).
  destruct (find_hbanks_plan m h Hreq Hh) as (Hfix & _ & _ & _ & _ & HR & HW & _).
  unfold request_of in Hsame.
  injection Hsame as E1 E2 E3 E4 E5 E6 E7 E8 E9 E10 E11 E12.
  injection Hfix as F1 F2 F3 F4.
  rewrite E4, E5, E6, F4, HR, HW.
  destruct (fold_max_bounds rn (ops m) 1) as (R1 & R2 & R3).
  destruct (fold_max_bounds wn (ops m) 1) as (W1 & W2 & W3).
  simpl in *.
  assert (G : forall (f : memory_operation.t -> Z) v,
             1 <= v -> (forall x, In x (ops m) -> f x <= v) ->
             (v = 1 \/ exists x, In x (ops m) /\ f x = v) ->
             forall r, maximum_over f (ops m) r -> v = Z.max 1 r).
  { intros f v A B C r [(x & Hx & Hfx) Hub].
    specialize (B x Hx).
    destruct C as [C | (y & Hy & Hfy)]; [lia|].
    specialize (Hub y Hy). lia. }
  split; [exact (G rn _ R1 R2 R3)|]. split; [exact (G wn _ W1 W2 W3)|].
  intro Hall. rewrite Forall_forall in Hall.
  destruct R3 as [R3 | (y & Hy & Hfy)]; [exact R3|].
  rewrite (Hall y Hy) in Hfy. lia.
Qed.

End PlannerClaims.

(** ** The external ports *)

Section PortClaims.

Import memory Ports.

Lemma append_nil_r (s : string) : s +++ "" = s.
Proof. induction s as [|c s IH]; simpl; [reflexivity | rewrite IH; reflexivity]. Qed.

Lemma append_assoc (s1 s2 s3 : string) : (s1 +++ s2) +++ s3 = s1 +++ s2 +++ s3.
Proof. induction s1 as [|c s1 IH]; simpl; [reflexivity | rewrite IH; reflexivity]. Qed.

Lemma concat_empty_cons (x : string) (l : list string) :
  String.concat "" (x :: l) = x +++ String.concat "" l.
Proof. destruct l; simpl; [rewrite append_nil_r|]; reflexivity. Qed.

Lemma concat_empty_app (l1 l2 : list string) :
  String.concat "" (l1 ++ l2) = String.concat "" l1 +++ String.concat "" l2.
Proof.
  induction l1 as [|x l1 IH]; [reflexivity|].
  change ((x :: l1) ++ l2) with (x :: (l1 ++ l2)).
  rewrite !concat_empty_cons, IH, append_assoc. reflexivity.
Qed.

(** A separated list is its head, then every other element behind the
    separator. *)
Lemma concat_separator (sep x : string) (xs : list string) :
  String.concat sep (x :: xs)
  = x +++ String.concat "" (map (fun y => sep +++ y) xs).
Proof.
  revert x. induction xs as [|y xs IH]; intro x.
  - simpl. rewrite append_nil_r. reflexivity.
  - change (String.concat sep (x :: y :: xs))
      with (x +++ sep +++ String.concat sep (y :: xs)).
    rewrite IH. simpl map. rewrite concat_empty_cons, append_assoc. reflexivity.
Qed.

Lemma range_length (lo hi : Z) : List.length (range lo hi) = Z.to_nat (hi - lo).
Proof. unfold range. rewrite length_map, length_seq. reflexivity. Qed.

Lemma flat_map_length_const {A B : Type} (f : A -> list B) (n : nat) (l : list A) :
  (forall x, List.length (f x) = n) ->
  List.length (flat_map f l) = (n * List.length l)%nat.
Proof.
  intro H. induction l as [|x l IH]; simpl; [lia|].
  rewrite length_app, H, IH. lia.
Qed.

Lemma Forall2_flat_map {A B C : Type} (P : B -> C -> Prop)
  (f : A -> list B) (g : A -> list C) (l : list A) :
  (forall x, Forall2 P (f x) (g x)) -> Forall2 P (flat_map f l) (flat_map g l).
Proof.
  intro H. induction l as [|x l IH]; simpl; [constructor|].
  apply Forall2_app; auto.
Qed.

(** A loop whose every turn first evaluates the same fallible expression. *)
Lemma concat_map_shared {A B C : Type} (c : result C) (f : C -> A -> list B)
  (l : list A) (out : list B) :
  concat_map (fun i => bind c (fun x => Ok (f x i))) l = Ok out ->
  (l = [] /\ out = []) \/ exists x, c = Ok x /\ out = flat_map (f x) l.
Proof.
  revert out. induction l as [|i l IH]; intros out H; simpl in H.
  - inversion H. left. auto.
  - right. bind_inv H. bind_inv Ha. injection Ha as <-.
    bind_inv H. injection H as <-.
    exists a0. split; [assumption|].
    destruct (IH _ Ha) as [[-> ->] | (x & Hx & ->)]; [reflexivity|].
    simpl. congruence.
Qed.

(** The text of the module's port list is the ports of the specification,
    in order, one per line. *)
Lemma module_interface_text (m : memory.t) :
  String.concat "" (write_module_interface m)
  = line ("module " +++ name m +++ "(") +++ "    "
    +++ String.concat port_separator (external_ports m)
    +++ line "" +++ line "  );".
Proof.
  unfold write_module_interface, external_ports.
  set (ws := range 0 (write_interfaces m)).
  set (rs := range (write_interfaces m) (write_interfaces m + read_interfaces m)).
  rewrite concat_separator, map_app.
  assert (W : forall l,
             flat_map (fun i =>
               [ "," +++ line "" +++ "    " +++ name m +++ "_CE" +++ str i;
                 "," +++ line "" +++ "    " +++ name m +++ "_A" +++ str i;
                 "," +++ line "" +++ "    " +++ name m +++ "_D" +++ str i;
                 "," +++ line "" +++ "    " +++ name m +++ "_WE" +++ str i;
                 "," +++ line "" +++ "    " +++ name m +++ "_WEM" +++ str i ]) l
             = map (fun y => port_separator +++ y)
                 (flat_map (write_port_names (name m)) l)).
  { induction l as [|i l IH]; [reflexivity|].
    cbn [flat_map]. rewrite IH, map_app. reflexivity. }
  assert (R : forall l,
             flat_map (fun i =>
               [ "," +++ line "" +++ "    " +++ name m +++ "_CE" +++ str i;
                 "," +++ line "" +++ "    " +++ name m +++ "_A" +++ str i;
                 "," +++ line "" +++ "    " +++ name m +++ "_Q" +++ str i ]) l
             = map (fun y => port_separator +++ y)
                 (flat_map (read_port_names (name m)) l)).
  { induction l as [|i l IH]; [reflexivity|].
    cbn [flat_map]. rewrite IH, map_app. reflexivity. }
  rewrite W, R.
  change ([line ("module " +++ name m +++ "("); "    CLK"] ++ ?l)
    with (line ("module " +++ name m +++ "(") :: "    CLK" :: l).
  rewrite !concat_empty_cons, !concat_empty_app, !append_assoc.
  reflexivity.
Qed.

Lemma external_ports_count (m : memory.t) :
  0 <= write_interfaces m -> 0 <= read_interfaces m ->
  Z.of_nat (List.length (external_ports m))
  = 1 + 5 * write_interfaces m + 3 * read_interfaces m.
Proof.
  intros Hw Hr. unfold external_ports. simpl List.length.
  rewrite length_app.
  rewrite (flat_map_length_const _ 5) by reflexivity.
  rewrite (flat_map_length_const _ 3) by reflexivity.
  rewrite !range_length. lia.
Qed.

Lemma shared_loop_declares {C : Type} (c : result C) (f : C -> Z -> list string)
  (names : Z -> list string) (l : list Z) (out : list string) :
  (forall x i, Forall2 declares (f x i) (names i)) ->
  concat_map (fun i => bind c (fun x => Ok (f x i))) l = Ok out ->
  Forall2 declares out (flat_map names l).
Proof.
  intros Hf H.
  destruct (concat_map_shared c f l out H) as [[-> ->] | (x & _ & ->)].
  - constructor.
  - apply Forall2_flat_map. intro i. apply Hf.
Qed.

Ltac declared_with d :=
  exists d; rewrite ?append_assoc; reflexivity.

Lemma port_declarations_declare (ceil_log2 : Z -> Z) (m : memory.t)
  (decls : list string) :
  write_port_declarations ceil_log2 m = Ok decls ->
  exists body,
    decls = body ++ [ line "  genvar d, h, v, hh;"; line "" ] /\
    Forall2 declares body (external_ports m).
Proof.
  unfold write_port_declarations. intro H.
  bind_inv H. rename a into writes, Ha into Hw.
  bind_inv H. rename a into reads, Ha into Hr.
  injection H as <-.
  exists (line "  input CLK;" :: writes ++ reads). split.
  - simpl. rewrite <- app_assoc. reflexivity.
  - unfold external_ports. constructor; [declared_with "input "|].
    apply Forall2_app.
    + refine (shared_loop_declares _ _ _ _ _ _ Hw).
      intros aw i. unfold write_port_names.
      repeat constructor.
      * declared_with "input ".
      * declared_with ("input " +++ "[" +++ str (aw - 1) +++ ":0] ").
      * declared_with ("input " +++ "[" +++ str (width m - 1) +++ ":0] ").
      * declared_with "input ".
      * declared_with ("input " +++ "[" +++ str (width m - 1) +++ ":0] ").
    + refine (shared_loop_declares _ _ _ _ _ _ Hr).
      intros aw i. unfold read_port_names.
      repeat constructor.
      * declared_with "input ".
      * declared_with ("input " +++ "[" +++ str (aw - 1) +++ ":0] ").
      * declared_with ("output " +++ "[" +++ str (width m - 1) +++ ":0] ").
Qed.

(** A planned memory has at least one interface of each kind. *)
Lemma planned_interfaces (m m' : memory.t) (lib : list sram.t) :
  requested m -> gen m lib = Ok m' ->
  1 <= write_interfaces m' /\ 1 <= read_interfaces m'.
Proof.
  intros Hreq Hgen.
  destruct (gen_plan m m' lib Hreq Hgen) as (h & ram & wph & Hh & Hsame & _).
  destruct (find_hbanks_plan m h Hreq Hh) as (_ & _ & _ & _ & _ & HR & HW & _).
  unfold Selection.request_of in Hsame.
  injection Hsame as E1 E2 E3 E4 E5 E6 E7 E8 E9 E10 E11 E12.
  rewrite E5, E6, HR, HW.
  split; [apply (fold_max_bounds memory_operation.wn) | apply (fold_max_bounds memory_operation.rn)].
Qed.


End PortClaims.

(** ** Whether the emitter returns does not depend on the logarithm *)

Section EmitterReturns.

Import memory.

Variables f g : Z -> Z.

(* The same step succeeds on both sides. *)
Ltac follow H :=
  let a := fresh "a" in
  let Ha := fresh "Ha" in
  apply bind_ok in H; destruct H as (a & Ha & H); rewrite Ha; cbn [bind].

Lemma math_ceil_log2_any (n a : Z) :
  math_ceil_log2 f n = Ok a -> exists b, math_ceil_log2 g n = Ok b.
Proof.
  unfold math_ceil_log2. destruct (n <=? 0); [discriminate|].
  intros _. eexists. reflexivity.
Qed.

Lemma concat_map_any {A B : Type} (p q : A -> result (list B)) (l : list A)
  (out : list B) :
  (forall x y, In x l -> p x = Ok y -> exists z, q x = Ok z) ->
  concat_map p l = Ok out -> exists out', concat_map q l = Ok out'.
Proof.
  revert out. induction l as [|x l IH]; intros out Hpq H; simpl in *.
  - eexists. reflexivity.
  - bind_inv H. bind_inv H.
    destruct (Hpq x a (or_introl eq_refl) Ha) as [z Hz].
    destruct (IH a0 (fun x y Hin => Hpq x y (or_intror Hin)) Ha0) as [zs Hzs].
    rewrite Hz, Hzs. eexists. reflexivity.
Qed.

Lemma write_port_declarations_any (m : memory.t) (t : list string) :
  write_port_declarations f m = Ok t ->
  exists t', write_port_declarations g m = Ok t'.
Proof.
  unfold write_port_declarations. intro H.
  bind_inv H. bind_inv H.
  assert (L : forall (k : Z -> Z -> list string) l out,
             concat_map (fun i => aw <- math_ceil_log2 f (words m) ;; Ok (k aw i)) l = Ok out ->
             exists out',
               concat_map (fun i => aw <- math_ceil_log2 g (words m) ;; Ok (k aw i)) l = Ok out').
  { intros k l out. apply concat_map_any. intros x y _ Hx.
    bind_inv Hx. destruct (math_ceil_log2_any _ _ Ha1) as [b ->].
    eexists. reflexivity. }
  destruct (L _ _ _ Ha) as [w ->]. destruct (L _ _ _ Ha0) as [r ->].
  eexists. reflexivity.
Qed.

Lemma write_ctrl_assignment_any (m : memory.t) (s1 s2 s1' s2' : string)
  (d p i : Z) (w : bool) (par : Z) (t : list string) :
  __write_ctrl_assignment m s1 s2 d p i w par = Ok t ->
  exists t', __write_ctrl_assignment m s1' s2' d p i w par = Ok t'.
Proof.
  unfold __write_ctrl_assignment. intro H.
  do 6 follow H.
  bind_inv H.
  destruct w.
  - match goal with
    | Hw : bind _ _ = Ok _ |- _ => do 6 follow Hw
    end.
    eexists. reflexivity.
  - eexists. reflexivity.
Qed.

Lemma write_verilog_any (m : memory.t) (t : list string) :
  write_verilog f m = Ok t -> exists t', write_verilog g m = Ok t'.
Proof.
  unfold write_verilog. intro H. cbv zeta in H. cbv zeta.
  bind_inv H. destruct (write_port_declarations_any m a Ha) as [d' ->]. cbn [bind].
  bind_inv H. rename a0 into ram. rewrite Ha0. cbn [bind].
  bind_inv H. destruct (math_ceil_log2_any _ _ Ha1) as [b1 ->]. cbn [bind].
  bind_inv H. destruct (math_ceil_log2_any _ _ Ha2) as [b2 ->]. cbn [bind].
  bind_inv H. destruct (math_ceil_log2_any _ _ Ha3) as [b3 ->]. cbn [bind].
  bind_inv H. destruct (math_ceil_log2_any _ _ Ha4) as [b4 ->]. cbn [bind].
  bind_inv H. rewrite Ha5. cbn [bind].
  bind_inv H. destruct (math_ceil_log2_any _ _ Ha6) as [b5 ->]. cbn [bind].
  bind_inv H.
  match goal with
  | |- exists _, bind (concat_map ?q _) _ = _ =>
      assert (Hq : exists h', concat_map q (ops m) = Ok h')
  end.
  { revert Ha7. apply concat_map_any. intros op y _ Hop. cbv beta in Hop |- *.
    follow Hop. revert Hop. apply concat_map_any. intros it out _.
    destruct it as [text | ds pt ifc wr par]; simpl.
    - intros _. eexists. reflexivity.
    - apply write_ctrl_assignment_any. }
  destruct Hq as [h' ->]. cbn [bind].
  follow H. follow H. eexists. reflexivity.
Qed.

End EmitterReturns.

(** ** The scenarios and boundary cases *)

Section Scenarios.

Import memory memory_operation Selection Contribution Ports Scenario.

Lemma tech_is_library : read_techfile tech [] = Ok library.
Proof. reflexivity. Qed.

(** C1, as amended.  With the library of the two 1024 x 32 macros (one
    port, area 1.0; two ports, area 1.8) in that order, the request
    [M 2048 32 0w:4r] is planned with [need_dual_port], [D = 1], [H = 2],
    [V = 1], [HH = 1], the dual-port macro and a total area of 3.6. *)
Theorem scenario_0w_4r_plan :
  read_techfile tech [] = Ok library /\
  read_infile [ line "M 2048 32 0w:4r" ] [] = Ok [ request_0w_4r ] /\
  gen request_0w_4r library = Ok plan_0w_4r /\
  need_dual_port plan_0w_4r = true /\
  duplication_factor plan_0w_4r = 1 /\ distribution_factor plan_0w_4r = 2 /\
  vbanks plan_0w_4r = 1 /\ hhbanks plan_0w_4r = 1 /\
  bank_type plan_0w_4r = Some dual_port /\
  float_of_string "3.6" = Ok (area plan_0w_4r).
Proof.
  split; [reflexivity|]. split; [reflexivity|].
  split; [vm_compute; reflexivity|].
  repeat split.
Qed.

(** C1 as stated fails: the plan has one vertical bank, not two, and its
    area is not 7.2. *)
Lemma scenario_0w_4r_is_not_two_vbanks :
  read_techfile tech [] = Ok library /\
  read_infile [ line "M 2048 32 0w:4r" ] [] = Ok [ request_0w_4r ] /\
  gen request_0w_4r library = Ok plan_0w_4r /\
  vbanks plan_0w_4r = 1 /\ vbanks plan_0w_4r <> 2 /\
  float_of_string "7.2" <> Ok (area plan_0w_4r).
Proof.
  split; [reflexivity|]. split; [reflexivity|].
  split; [vm_compute; reflexivity|].
  split; [reflexivity|]. split; [discriminate|].
  vm_compute. discriminate.
Qed.

(** C3 as stated fails: the only operation of [M 1024 32 1w:0r] has
    [rn = 0], so the maximum [rn] is 0, and the plan has one read
    interface. *)
Lemma write_only_request_has_a_read_interface :
  read_infile [ line "M 1024 32 1w:0r" ] [] = Ok [ request_1w_0r ] /\
  gen request_1w_0r library = Ok plan_1w_0r /\
  maximum_over rn (ops plan_1w_0r) 0 /\
  read_interfaces plan_1w_0r = 1.
Proof.
  split; [reflexivity|]. split; [vm_compute; reflexivity|].
  split; [|reflexivity].
  split.
  - eexists. split; [left; reflexivity | reflexivity].
  - intros x [<- | []]. simpl. lia.
Qed.

(** C5 fails on the code.  The request [M 4096 64 1w:1r] against the
    single-port macro alone ends in an [AttributeError] that nothing
    catches, the interpreter's status being 1: no error is reported through
    [die_werr] and the status is not 2. *)
Theorem no_suitable_macro_is_an_uncaught_exception (ceil_log2 : Z -> Z) :
  script ceil_log2 [ line "1024 32 sram_sp 1.0 1" ] [ line "M 4096 64 1w:1r" ]
  = Raise AttributeError /\
  exit_status
    (script ceil_log2 [ line "1024 32 sram_sp 1.0 1" ] [ line "M 4096 64 1w:1r" ])
  = 1.
Proof. split; reflexivity. Qed.

(** C6 fails on the code.  [1w:1r] is parsed; [1W:1R] is not: the split
    that isolates the number is case-sensitive, so the number is read from
    [1W] and [int] raises [ValueError]. *)
Theorem uppercase_token_is_not_parsed :
  parse_op "1w:1r" 1024 = Ok (memory_operation.mk 1 modulo 1 modulo) /\
  re_split islower re_M_or_re_I "1W" = [ "1W" ] /\
  parse_op "1W:1R" 1024 = Raise ValueError.
Proof. repeat split. Qed.

(** C7 as stated fails: [16ru:0w] is rejected. *)
Lemma token_16ru_0w_is_rejected :
  parse_op "16ru:0w" 1024
  = die_werr "Parallel read access 16ru:0w not recognized".
Proof. reflexivity. Qed.

(** C7, as amended.  The tokens [16ru:0w] and [2wu:1r] are both rejected as
    invalid operations, whatever the word count; written in the order the
    parser reads, writes first, the boundary token is [0w:16ru], and a
    request with this single operation is accepted, planned and emitted. *)
Theorem boundary_tokens :
  (forall mem_words, exists message, parse_op "16ru:0w" mem_words = die_werr message) /\
  (forall mem_words, exists message, parse_op "2wu:1r" mem_words = die_werr message) /\
  parse_op "0w:16ru" 1024 = Ok (memory_operation.mk 16 unknown 0 modulo) /\
  forall ceil_log2, exists plan text,
    script ceil_log2 tech [ line "M 1024 32 0w:16ru" ] = Ok [ (plan, text) ].
Proof.
  split; [|split; [|split]].
  - intro w.
    assert (E : parse_op "16ru:0w" w
                = if (0 >? w) || (16 >? w)
                  then die_werr "Too many ports for the specified number of words for 16ru:0w"
                  else die_werr "Parallel read access 16ru:0w not recognized")
      by reflexivity.
    rewrite E. destruct ((0 >? w) || (16 >? w)); eexists; reflexivity.
  - intro w.
    assert (E : parse_op "2wu:1r" w
                = if (1 >? w) || (2 >? w)
                  then die_werr "Too many ports for the specified number of words for 2wu:1r"
                  else die_werr "2 parallel write accesses with unknown pattern for 2wu:1r have non-zero parallel read access")
      by reflexivity.
    rewrite E. destruct ((1 >? w) || (2 >? w)); eexists; reflexivity.
  - reflexivity.
  - intro ceil_log2.
    assert (Hr : read_infile [ line "M 1024 32 0w:16ru" ] [] = Ok [ request_0w_16ru ])
      by (vm_compute; reflexivity).
    destruct (returns_ok (p <- gen request_0w_16ru library ;;
                          t <- write_verilog Z.log2_up p ;; Ok (p, t)))
      as [[p t] Hpt]; [vm_compute; reflexivity|].
    bind_inv Hpt. rename Ha into Hp. bind_inv Hpt. rename Ha into Ht.
    injection Hpt as -> ->.
    destruct (write_verilog_any Z.log2_up ceil_log2 p t Ht) as [t' Ht'].
    exists p, t'. unfold script. rewrite tech_is_library. cbn [bind].
    rewrite Hr. cbn [bind for_each]. unfold generate.
    rewrite Hp. cbn [bind]. rewrite Ht'. reflexivity.
Qed.

(** C8 as stated fails: a blank line stops either reader with an
    [IndexError]. *)
Lemma blank_line_is_not_ignored :
  read_techfile [ newline ] [] = Raise IndexError /\
  read_infile [ newline ] [] = Raise IndexError.
Proof. split; reflexivity. Qed.

(** C8, as amended.  In the library file and in the request file a line
    that begins with [#] is ignored: it adds no macro and no memory, and the
    run goes on as if the line were not there. *)
Theorem comment_lines_are_ignored (rest : string) :
  let comment := String "#" rest in
  (forall sram_list, read_techfile_line sram_list comment = Ok sram_list) /\
  (forall mem_list, read_infile_line mem_list comment = Ok mem_list) /\
  (forall before after sram_list,
     read_techfile (before ++ comment :: after) sram_list
     = read_techfile (before ++ after) sram_list) /\
  (forall before after mem_list,
     read_infile (before ++ comment :: after) mem_list
     = read_infile (before ++ after) mem_list).
Proof.
  intro comment.
  assert (T : forall sram_list, read_techfile_line sram_list comment = Ok sram_list)
    by reflexivity.
  assert (I : forall mem_list, read_infile_line mem_list comment = Ok mem_list)
    by reflexivity.
  split; [exact T|]. split; [exact I|]. split.
  - intros before after sram_list. unfold read_techfile.
    rewrite !for_each_app.
    destruct (for_each read_techfile_line before sram_list); cbn [bind for_each];
      [rewrite T|..]; reflexivity.
  - intros before after mem_list. unfold read_infile.
    rewrite !for_each_app.
    destruct (for_each read_infile_line before mem_list); cbn [bind for_each];
      [rewrite I|..]; reflexivity.
Qed.

(** C10 fails on the code.  For [M 1024 32 0w:4ru] (two duplicated sets, one
    write interface) the control block steers the read interfaces 1, 2, 3, 4
    to the sets 0, 1, 0, 1, and the selectors read them back from the sets
    1, 0, 1, 0. *)
Theorem unknown_reads_are_read_back_from_another_set :
  gen request_0w_4ru library = Ok plan_0w_4ru /\
  dbanks plan_0w_4ru = 2 /\ write_interfaces plan_0w_4ru = 1 /\
  handle_op plan_0w_4ru dual_port (memory_operation.mk 4 unknown 0 modulo)
    = Ok [ Comment (line "          /** Handle 0w:4ru **/");
           Assignment 0 0 1 false 0;
           Assignment 1 1 2 false 0;
           Assignment 0 1 3 false 0;
           Assignment 1 0 4 false 0;
           Comment (line "") ] /\
  write_ctrld plan_0w_4ru
    = Ok [ line "  assign ctrld[1] = 1;";
           line "  assign ctrld[2] = 0;";
           line "  assign ctrld[3] = 1;";
           line "  assign ctrld[4] = 0;" ].
Proof.
  split; [vm_compute; reflexivity|]. repeat split.
Qed.

(** [M 4096 32 2w:4r 0w:6ru]: [D = 3] comes from the second operation,
    [H = 4] from the first. *)
Lemma factors_are_maxima_witness :
  (exists h, __find_hbanks request_mixed = Ok h /\ maximal_factors h) /\
  (forall lib m', gen request_mixed lib = Ok m' -> maximal_factors m').
Proof.
  apply (factors_are_maxima request_mixed).
  exists "M", 4096, 32, ops_mixed. split; [reflexivity|].
  constructor; [exists "2w:4r"; reflexivity|].
  constructor; [exists "0w:6ru"; reflexivity|]. constructor.
Defined.

(** The plan of that request: [D = 3], [H = 4]. *)
Lemma plan_of_request_mixed :
  gen request_mixed library = Ok plan_mixed /\
  duplication_factor plan_mixed = 3 /\ distribution_factor plan_mixed = 4.
Proof. split; [vm_compute; reflexivity | split; reflexivity]. Qed.

(** [M 1024 32 1w:0r] against the two-macro library. *)
Lemma interfaces_are_maxima_above_one_witness :
  (forall r, maximum_over rn (ops plan_1w_0r) r -> read_interfaces plan_1w_0r = Z.max 1 r) /\
  (forall w, maximum_over wn (ops plan_1w_0r) w -> write_interfaces plan_1w_0r = Z.max 1 w) /\
  (Forall (fun op => rn op = 0) (ops plan_1w_0r) -> read_interfaces plan_1w_0r = 1).
Proof.
  apply (interfaces_are_maxima_above_one request_1w_0r plan_1w_0r library).
  - exists "M", 1024, 32, ops_1w_0r. split; [reflexivity|].
    constructor; [exists "1w:0r"; reflexivity|]. constructor.
  - vm_compute. reflexivity.
Defined.



End Scenarios.

(** * Further properties of the code *)

(** ** Operation tokens *)

Section OperationTokens.

Import memory memory_operation.

Lemma land_double_pred (a : Z) : Z.land (2 * a) (2 * a - 1) = 2 * Z.land a (a - 1).
Proof.
  replace (2 * a - 1) with (2 * (a - 1) + 1) by lia.
  apply Z.bits_inj'. intros n Hn.
  rewrite Z.land_spec.
  destruct (Z.eq_dec n 0) as [->|Hn0].
  - rewrite !Z.testbit_even_0. reflexivity.
  - replace n with (Z.succ (n - 1)) by lia.
    rewrite !Z.testbit_even_succ, Z.testbit_odd_succ, Z.land_spec by lia.
    reflexivity.
Qed.

Lemma land_odd_pred (a : Z) : Z.land (2 * a + 1) (2 * a + 1 - 1) = 2 * a.
Proof.
  replace (2 * a + 1 - 1) with (2 * a) by lia.
  apply Z.bits_inj'. intros n Hn.
  rewrite Z.land_spec.
  destruct (Z.eq_dec n 0) as [->|Hn0].
  - rewrite Z.testbit_even_0, Z.testbit_odd_0. reflexivity.
  - replace n with (Z.succ (n - 1)) by lia.
    rewrite Z.testbit_even_succ, Z.testbit_odd_succ by lia.
    apply andb_diag.
Qed.

Lemma power_of_two_positive (p : positive) :
  Z.land (Zpos p) (Zpos p - 1) = 0 <-> exists k, 0 <= k /\ Zpos p = 2 ^ k.
Proof.
  induction p as [p IH|p IH|].
  - rewrite Pos2Z.inj_xI, land_odd_pred. split; [lia|].
    intros (k & Hk & E). exfalso.
    destruct (Z.eq_dec k 0) as [->|Hk0]; [simpl in E; lia|].
    replace k with (Z.succ (k - 1)) in E by lia.
    rewrite Z.pow_succ_r in E by lia. lia.
  - rewrite Pos2Z.inj_xO, land_double_pred. split.
    + intro H. assert (H' : Z.land (Zpos p) (Zpos p - 1) = 0) by lia.
      apply IH in H'. destruct H' as (k & Hk & E).
      exists (Z.succ k). split; [lia|]. rewrite Z.pow_succ_r by lia. lia.
    + intros (k & Hk & E).
      destruct (Z.eq_dec k 0) as [->|Hk0]; [simpl in E; lia|].
      replace k with (Z.succ (k - 1)) in E by lia.
      rewrite Z.pow_succ_r in E by lia.
      assert (H' : Z.land (Zpos p) (Zpos p - 1) = 0); [|lia].
      apply IH. exists (k - 1). split; lia.
  - split; [|reflexivity]. intros _. exists 0. split; [lia | reflexivity].
Qed.

Lemma is_power2z_iff (n : Z) :
  is_power2z n = true <-> n = 0 \/ exists k, 0 <= k /\ n = 2 ^ k.
Proof.
  unfold is_power2z. rewrite Z.eqb_eq.
  destruct n as [|p|p].
  - split; [left; reflexivity | reflexivity].
  - rewrite power_of_two_positive. split; [right; assumption|].
    intros [H | H]; [discriminate | exact H].
  - split.
    + intro H. exfalso.
      assert (Z.land (Zneg p) (Zneg p - 1) < 0) by (apply Z.land_neg; lia). lia.
    + intros [H | (k & Hk & E)]; [discriminate|].
      assert (0 < 2 ^ k) by (apply Z.pow_pos_nonneg; lia). lia.
Qed.

Lemma power2z_small (n : Z) :
  0 <= n <= 16 -> is_power2z n = true -> In n [0; 1; 2; 4; 8; 16].
Proof.
  intros H P.
  assert (E : n = 0 \/ n = 1 \/ n = 2 \/ n = 3 \/ n = 4 \/ n = 5 \/ n = 6 \/ n = 7
              \/ n = 8 \/ n = 9 \/ n = 10 \/ n = 11 \/ n = 12 \/ n = 13 \/ n = 14
              \/ n = 15 \/ n = 16) by lia.
  repeat (destruct E as [-> | E]; [first [discriminate P | simpl; tauto]|]).
  subst. simpl. tauto.
Qed.

(** X1.  [is_power2z] holds of zero and of the powers of two, and of nothing
    else: no negative number passes.  Among the counts the parser lets
    through, it holds of 0, 1, 2, 4, 8 and 16. *)
Theorem is_power2z_zero_or_power_of_two (n : Z) :
  (is_power2z n = true <-> n = 0 \/ exists k, 0 <= k /\ n = 2 ^ k) /\
  (n < 0 -> is_power2z n = false) /\
  (0 <= n <= 16 -> (is_power2z n = true <-> In n [0; 1; 2; 4; 8; 16])).
Proof.
  split; [exact (is_power2z_iff n)|]. split.
  - intro Hn. destruct (is_power2z n) eqn:E; [|reflexivity].
    apply is_power2z_iff in E. destruct E as [-> | (k & Hk & ->)]; [lia|].
    assert (0 < 2 ^ k) by (apply Z.pow_pos_nonneg; lia). lia.
  - intro Hn. split; [exact (power2z_small n Hn)|].
    simpl. intros [<- | [<- | [<- | [<- | [<- | [<- | []]]]]]]; reflexivity.
Qed.

End OperationTokens.

Section ParsedOperations.

Import memory memory_operation.

(** The primitives of the parser raise one exception each and never call
    [sys.exit]. *)
Lemma index_cases {A : Type} (l : list A) (i : nat) :
  (exists a, index l i = Ok a) \/ index l i = Raise IndexError.
Proof. unfold index. destruct (nth_error l i); [left; eexists; reflexivity | right; reflexivity]. Qed.

Lemma int_cases (s : string) : (exists z, int s = Ok z) \/ int s = Raise ValueError.
Proof.
  unfold int.
  match goal with |- context [match ?b with Some z => Ok z | None => _ end] => destruct b end;
    [left; eexists; reflexivity | right; reflexivity].
Qed.

(** The first half of [parse_op]: the two numbers and the two pattern
    abbreviations of a token. *)
Definition token_fields (op : string) : result (Z * string * Z * string) :=
  let item := split_on ":" op in
  i0 <- index item 0 ;;
  w0 <- index (re_split islower re_M_or_re_I i0) 0 ;;
  write_number <- int w0 ;;
  i0 <- index item 0 ;;
  write_pattern_abbrv <- index (re_split isdigit re_M_or_re_I i0) 1 ;;
  i1 <- index item 1 ;;
  r0 <- index (re_split islower re_M_or_re_I i1) 0 ;;
  read_number <- int r0 ;;
  i1 <- index item 1 ;;
  read_pattern_abbrv <- index (re_split isdigit re_M_or_re_I i1) 1 ;;
  Ok (write_number, write_pattern_abbrv, read_number, read_pattern_abbrv).

Lemma parse_op_fields (op : string) (mem_words : Z)
  (write_number : Z) (write_pattern_abbrv : string)
  (read_number : Z) (read_pattern_abbrv : string) :
  token_fields op = Ok (write_number, write_pattern_abbrv, read_number, read_pattern_abbrv) ->
  parse_op op mem_words =
  if (read_number >? mem_words) || (write_number >? mem_words) then
    die_werr ("Too many ports for the specified number of words for " +++ op)
  else if (read_number >? 16) || (read_number <? 0) then
    die_werr ("Too many paralle accesses specified for " +++ op)
  else
  read_pattern <-
    (if re_match_ignorecase "ru" read_pattern_abbrv then Ok unknown
     else if re_match_ignorecase "r" read_pattern_abbrv then
       if negb (is_power2z read_number) then
         die_werr ("Operation " +++ op +++ " implies known access patter (modulo), but the number of accesses is not a power of 2")
       else Ok modulo
     else die_werr ("Parallel read access " +++ op +++ " not recognized")) ;;
  if (write_number >? 16) || (write_number <? 0) then
    die_werr ("Too many paralle accesses specified for " +++ op)
  else
  write_pattern <-
    (if re_match_ignorecase "wu" write_pattern_abbrv then
       if write_number >? 2 then
         die_werr ("Too many parallel write accesses with unknown pattern for " +++ op)
       else if (write_number =? 2) && negb (read_number =? 0) then
         die_werr ("2 parallel write accesses with unknown pattern for " +++ op +++ " have non-zero parallel read access")
       else Ok unknown
     else if re_match_ignorecase "w" write_pattern_abbrv then
       if negb (is_power2z write_number) then
         die_werr ("Operation " +++ op +++ " implies known access patter (modulo), but the number of accesses is not a power of 2")
       else Ok modulo
     else die_werr ("Parallel write access " +++ op +++ " not recognized")) ;;
  Ok (memory_operation.mk read_number read_pattern write_number write_pattern).
Proof.
  unfold token_fields, parse_op. intro H.
  repeat bind_inv H. injection H as <- <- <- <-.
  rewrite Ha in Ha2. injection Ha2 as <-.
  rewrite Ha4 in Ha7. injection Ha7 as <-.
  repeat match goal with
         | E : ?c = Ok _ |- context [bind ?c _] => rewrite E; cbn [bind]
         end.
  reflexivity.
Qed.

(** Every operation with counts between 0 and 16. *)
Definition small_operations : list memory_operation.t :=
  flat_map (fun rn =>
    flat_map (fun wn =>
      [ memory_operation.mk rn unknown wn unknown;
        memory_operation.mk rn unknown wn modulo;
        memory_operation.mk rn modulo wn unknown;
        memory_operation.mk rn modulo wn modulo ])
      (range 0 17))
    (range 0 17).

Lemma in_range (lo hi x : Z) : lo <= x < hi -> In x (range lo hi).
Proof.
  intro H. unfold range. apply in_map_iff.
  exists (Z.to_nat (x - lo)). split; [lia|].
  apply in_seq. lia.
Qed.

Lemma range_in (lo hi x : Z) : In x (range lo hi) -> lo <= x < hi.
Proof.
  unfold range. intro H. apply in_map_iff in H.
  destruct H as (k & <- & Hk). apply in_seq in Hk. lia.
Qed.

Lemma small_operation (op : memory_operation.t) :
  0 <= rn op <= 16 -> 0 <= wn op <= 16 -> In op small_operations.
Proof.
  intros Hr Hw. unfold small_operations.
  apply in_flat_map. exists (rn op). split; [apply in_range; lia|].
  apply in_flat_map. exists (wn op). split; [apply in_range; lia|].
  destruct op as [r [] w []]; simpl; auto.
Qed.

(** What [token_fields] must find in the token of an operation. *)
Definition fields_of (op : memory_operation.t) : Z * string * Z * string :=
  (wn op, match wp op with modulo => "w" | unknown => "wu" end,
   rn op, match rp op with modulo => "r" | unknown => "ru" end).

Definition fields_found (op : memory_operation.t) : bool :=
  match token_fields (__str__ op) with
  | Ok (w, wa, r, ra) =>
      let '(w', wa', r', ra') := fields_of op in
      (w =? w') && String.eqb wa wa' && (r =? r') && String.eqb ra ra'
  | _ => false
  end.

Lemma small_operations_fields : forallb fields_found small_operations = true.
Proof. vm_compute. reflexivity. Qed.

Lemma str_fields (op : memory_operation.t) :
  0 <= rn op <= 16 -> 0 <= wn op <= 16 ->
  token_fields (__str__ op) = Ok (fields_of op).
Proof.
  intros Hr Hw.
  pose proof small_operations_fields as H.
  rewrite forallb_forall in H. specialize (H op (small_operation op Hr Hw)).
  unfold fields_found in H.
  destruct (token_fields (__str__ op)) as [[[[w wa] r] ra]| |]; try discriminate.
  destruct (fields_of op) as [[[w' wa'] r'] ra'].
  apply andb_prop in H. destruct H as [H H4].
  apply andb_prop in H. destruct H as [H H3].
  apply andb_prop in H. destruct H as [H1 H2].
  apply Z.eqb_eq in H1, H3. apply String.eqb_eq in H2, H4. congruence.
Qed.

Lemma parse_op_str (op : memory_operation.t) (mem_words : Z) :
  valid_op op -> rn op <= mem_words -> wn op <= mem_words ->
  parse_op (__str__ op) mem_words = Ok op.
Proof.
  intros Hv Hrw Hww.
  assert (Hr : 0 <= rn op <= 16) by (destruct op; simpl in *; tauto).
  assert (Hw : 0 <= wn op <= 16) by (destruct op; simpl in *; tauto).
  rewrite (parse_op_fields _ mem_words _ _ _ _ (str_fields op Hr Hw)).
  destruct op as [r rp0 w wp0]. simpl in *.
  destruct Hv as (_ & _ & Vr & Vw & Vu).
  replace (r >? mem_words) with false by (symmetry; rewrite Z.gtb_ltb; apply Z.ltb_ge; lia).
  replace (w >? mem_words) with false by (symmetry; rewrite Z.gtb_ltb; apply Z.ltb_ge; lia).
  replace (r >? 16) with false by (symmetry; rewrite Z.gtb_ltb; apply Z.ltb_ge; lia).
  replace (w >? 16) with false by (symmetry; rewrite Z.gtb_ltb; apply Z.ltb_ge; lia).
  replace (r <? 0) with false by (symmetry; apply Z.ltb_ge; lia).
  replace (w <? 0) with false by (symmetry; apply Z.ltb_ge; lia).
  cbn [orb].
  destruct rp0, wp0; cbn [re_match_ignorecase Ascii.eqb lower isupper nat_of_ascii].
  all: try rewrite (Vr eq_refl); try rewrite (Vw eq_refl); cbn.
  all: try (destruct (Vu eq_refl) as [V2 V0];
            replace (w >? 2) with false by (symmetry; rewrite Z.gtb_ltb; apply Z.ltb_ge; lia);
            destruct (w =? 2) eqn:E2;
            [apply Z.eqb_eq in E2; rewrite (V0 E2); reflexivity | reflexivity]).
  all: reflexivity.
Qed.

(** X2.  [parse_op] and [__str__] are a round trip: the token [__str__] writes
    for an operation the parser lets through, with counts within the
    words of the memory, parses back to that operation; so two such
    operations with the same token are the same. *)
Theorem parse_op_of_str (op : memory_operation.t) (mem_words : Z) :
  valid_op op -> rn op <= mem_words -> wn op <= mem_words ->
  parse_op (__str__ op) mem_words = Ok op /\
  forall op', valid_op op' -> __str__ op' = __str__ op -> op' = op.
Proof.
  intros Hv Hr Hw. split; [exact (parse_op_str op mem_words Hv Hr Hw)|].
  intros op' Hv' E.
  assert (B : 0 <= rn op <= 16 /\ 0 <= wn op <= 16) by (destruct op; simpl in *; tauto).
  assert (B' : 0 <= rn op' <= 16 /\ 0 <= wn op' <= 16) by (destruct op'; simpl in *; tauto).
  pose proof (parse_op_str op 16 Hv ltac:(lia) ltac:(lia)) as P.
  pose proof (parse_op_str op' 16 Hv' ltac:(lia) ltac:(lia)) as P'.
  rewrite E in P'. congruence.
Qed.

Lemma parse_op_within_words (token : string) (mem_words : Z) (op : memory_operation.t) :
  parse_op token mem_words = Ok op -> rn op <= mem_words /\ wn op <= mem_words.
Proof.
  unfold parse_op. intro H.
  repeat bind_inv H. unfold die_werr in *.
  destruct ((a6 >? mem_words) || (a1 >? mem_words)) eqn:Hm; [discriminate|].
  destruct ((a6 >? 16) || (a6 <? 0)); [discriminate|].
  bind_inv H.
  destruct ((a1 >? 16) || (a1 <? 0)); [discriminate|].
  bind_inv H. inversion H; subst; clear H. simpl.
  apply orb_false_elim in Hm. lia.
Qed.

(** X3.  What [parse_op] lets through: counts between 0 and 16 and within the
    words of the memory, a count that is zero or a power of two under a
    known pattern, and at most two writes of unknown pattern, two only
    beside no read. *)
Theorem parse_op_accepts (token : string) (mem_words : Z) (op : memory_operation.t) :
  parse_op token mem_words = Ok op ->
  0 <= rn op <= 16 /\ 0 <= wn op <= 16 /\
  rn op <= mem_words /\ wn op <= mem_words /\
  (rp op = modulo -> rn op = 0 \/ exists k, 0 <= k /\ rn op = 2 ^ k) /\
  (wp op = modulo -> wn op = 0 \/ exists k, 0 <= k /\ wn op = 2 ^ k) /\
  (wp op = unknown -> wn op <= 2 /\ (wn op = 2 -> rn op = 0)).
Proof.
  intro H.
  pose proof (parse_op_valid _ _ _ H) as Hv.
  destruct (parse_op_within_words _ _ _ H) as [Hr Hw].
  destruct op as [r rp0 w wp0]. simpl in *.
  destruct Hv as (V1 & V2 & V3 & V4 & V5).
  repeat split; try lia; try tauto.
  - intro E. apply is_power2z_iff. auto.
  - intro E. apply is_power2z_iff. auto.
Qed.

Fixpoint has_char (c : ascii) (s : string) : bool :=
  match s with
  | EmptyString => false
  | String d s' => Ascii.eqb d c || has_char c s'
  end.

Lemma split_sep_absent (sep : ascii) (s cur : string) :
  has_char sep s = false -> split_sep sep s cur = [cur +++ s].
Proof.
  revert cur. induction s as [|c s IH]; intros cur H; simpl in *.
  - f_equal. induction cur as [|d cur IHc]; simpl; congruence.
  - apply orb_false_elim in H. destruct H as [Hc Hs].
    rewrite Hc, (IH _ Hs). f_equal. unfold snoc.
    clear. induction cur as [|d cur IHc]; simpl; congruence.
Qed.

(** X4.  A token without a colon ends [parse_op] in an exception nothing
    catches, a [ValueError] or an [IndexError], whatever the memory: it
    never gets the message of [die_werr]. *)
Theorem parse_op_without_colon (token : string) (mem_words : Z) :
  has_char ":" token = false ->
  parse_op token mem_words = Raise ValueError \/
  parse_op token mem_words = Raise IndexError.
Proof.
  intro H. unfold parse_op, split_on.
  rewrite (split_sep_absent _ _ _ H). cbn [String.append index nth_error bind].
  destruct (index_cases (re_split islower re_M_or_re_I token) 0) as [[w0 ->] | ->];
    cbn [bind]; [|right; reflexivity].
  destruct (int_cases w0) as [[wnum ->] | ->]; cbn [bind]; [|left; reflexivity].
  destruct (index_cases (re_split isdigit re_M_or_re_I token) 1) as [[wa ->] | ->];
    cbn [bind]; right; reflexivity.
Qed.

End ParsedOperations.

(** ** The first pass of the planner *)

Section PlannedFactors.

Import memory memory_operation Selection Contribution.

(** An operation that makes its accesses at once on more than one port, as
    the first loop of [__find_hbanks] tests it. *)
Definition parallel_access (op : memory_operation.t) : bool :=
  ((rn op >? 0) && (wn op >? 0))
  || ((wn op =? 2) && pattern_eqb (wp op) unknown)
  || (rn op >? 1) || (wn op >? 1).

Lemma find_interfaces_dual_port (l : list memory_operation.t) (s : memory.t) :
  need_dual_port (fold_left find_interfaces l s)
  = need_dual_port s
    || (need_parallel_rw s && negb (match l with [] => true | _ => false end))
    || existsb parallel_access l.
Proof.
  revert s. induction l as [|op l IH]; intro s.
  - simpl. rewrite andb_false_r, !orb_false_r. reflexivity.
  - cbn [fold_left existsb]. rewrite IH. unfold parallel_access.
    cbn [find_interfaces need_dual_port need_parallel_rw negb].
    destruct (need_dual_port s), (need_parallel_rw s), (rn op >? 0), (wn op >? 0),
      ((wn op =? 2) && pattern_eqb (wp op) unknown), (rn op >? 1), (wn op >? 1),
      l; reflexivity.
Qed.

Lemma parallel_access_count (op : memory_operation.t) :
  valid_op op -> parallel_access op = (rn op + wn op >? 1).
Proof.
  destruct op as [r rp0 w wp0]. unfold parallel_access. simpl.
  intros (Hr & Hw & _).
  destruct (r >? 0) eqn:R0; destruct (w >? 0) eqn:W0;
    destruct (r >? 1) eqn:R1; destruct (w >? 1) eqn:W1;
    destruct (w =? 2) eqn:W2; destruct (r + w >? 1) eqn:S;
    try reflexivity; try (destruct (pattern_eqb wp0 unknown); reflexivity);
    exfalso; lia.
Qed.

Lemma existsb_ext_in {A : Type} (f g : A -> bool) (l : list A) :
  (forall x, In x l -> f x = g x) -> existsb f l = existsb g l.
Proof.
  induction l as [|x l IH]; intro H; simpl; [reflexivity|].
  rewrite (H x (or_introl eq_refl)), IH; [reflexivity|].
  intros y Hy. apply H. right. exact Hy.
Qed.

Lemma find_hbanks_dual_port (m h : memory.t) :
  requested m -> __find_hbanks m = Ok h ->
  need_dual_port h = existsb (fun op => rn op + wn op >? 1) (ops m).
Proof.
  intros Hreq H.
  destruct (requested_defaults m Hreq) as (_ & _ & _ & _ & Hdp & Hprw & _).
  destruct (requested_valid m Hreq) as [Hvalid _].
  unfold __find_hbanks in H.
  pose proof (find_interfaces_dual_port (ops m) m) as I.
  destruct (find_interfaces_loop (ops m) m) as (I1 & _).
  set (s1 := fold_left find_interfaces (ops m) m) in *.
  bind_inv H. rename a into s2.
  assert (Hops1 : ops s1 = ops m) by (injection I1; intros; congruence).
  rewrite Hops1 in Ha.
  destruct (find_duplication_loop (ops m) s1 s2 Ha) as (D1 & _).
  assert (Hops2 : ops s2 = ops m) by (injection D1; intros; congruence).
  rewrite Hops2 in H.
  destruct (find_distribution_loop (ops m) s2) as (H1 & _).
  set (s3 := fold_left find_distribution (ops m) s2) in *.
  inversion H; subst h; clear H. cbn [need_dual_port].
  replace (need_dual_port s3) with (need_dual_port s1)
    by (injection D1; injection H1; intros; congruence).
  rewrite I, Hdp, Hprw. cbn [orb andb].
  apply existsb_ext_in. intros op Hin. rewrite Forall_forall in Hvalid.
  exact (parallel_access_count op (Hvalid op Hin)).
Qed.

(** X5.  The two flags of a planned memory.  It needs dual-port banks exactly
    when one of its operations makes more than one access, reads and writes
    counted together; it needs parallel read and write exactly when one of
    its operations both reads and writes. *)
Theorem planned_port_needs (m m' : memory.t) (lib : list sram.t) :
  requested m -> gen m lib = Ok m' ->
  need_dual_port m' = existsb (fun op => rn op + wn op >? 1) (ops m') /\
  need_parallel_rw m' = existsb (fun op => (rn op >? 0) && (wn op >? 0)) (ops m').
Proof.
  intros Hreq Hgen.
  destruct (gen_plan m m' lib Hreq Hgen) as (h & ram & wph & Hh & Hsame & _).
  pose proof (find_hbanks_dual_port m h Hreq Hh) as Hdp.
  destruct (find_hbanks_plan m h Hreq Hh) as (Hfix & _ & _ & _ & _ & _ & _ & Hprw & _).
  unfold request_of in Hsame.
  injection Hsame as E1 E2 E3 E4 E5 E6 E7 E8 E9 E10 E11 E12.
  injection Hfix as F1 F2 F3 F4.
  rewrite E4, E7, E8, F4. split; assumption.
Qed.

Lemma distribution_power_of_two (prw : bool) (op : memory_operation.t) :
  valid_op op -> In (distribution prw op) [1; 2; 4; 8; 16].
Proof.
  destruct op as [r rp0 w wp0]. simpl. intros (Hr & Hw & Vr & Vw & _).
  unfold distribution, read_distribution, write_distribution. simpl.
  destruct rp0, wp0; cbn [pattern_eqb andb].
  - simpl. tauto.
  - pose proof (power2z_small w Hw (Vw eq_refl)) as Pw. simpl in Pw.
    destruct Pw as [<- | [<- | [<- | [<- | [<- | [<- | []]]]]]];
      cbn; destruct (r >? 0); destruct (r =? 0); destruct prw; cbn; tauto.
  - pose proof (power2z_small r Hr (Vr eq_refl)) as Pr. simpl in Pr.
    destruct Pr as [<- | [<- | [<- | [<- | [<- | [<- | []]]]]]];
      cbn; destruct (w >? 0); destruct (w =? 0); destruct prw; cbn; tauto.
  - pose proof (power2z_small r Hr (Vr eq_refl)) as Pr. simpl in Pr.
    pose proof (power2z_small w Hw (Vw eq_refl)) as Pw. simpl in Pw.
    destruct Pr as [<- | [<- | [<- | [<- | [<- | [<- | []]]]]]];
    destruct Pw as [<- | [<- | [<- | [<- | [<- | [<- | []]]]]]];
      destruct prw; cbn; tauto.
Qed.

Lemma duplication_bounds (op : memory_operation.t) :
  valid_op op -> 1 <= duplication op <= 16.
Proof.
  intro Hv. split; [exact (proj2 (op_duplication_factor_spec op Hv))|].
  destruct op as [r rp0 w wp0]. simpl in Hv. destruct Hv as (Hr & Hw & _ & _ & Hu).
  unfold duplication, read_duplication, ceil_half. simpl.
  assert ((r + 1) / 2 <= 16) by (apply Z.div_le_upper_bound; lia).
  assert ((w + 1) / 2 <= 16) by (apply Z.div_le_upper_bound; lia).
  destruct (pattern_eqb rp0 unknown && (r >? 1));
    destruct (pattern_eqb wp0 unknown && (w >? 1));
    destruct (w =? 0); destruct (r =? 0); destruct (w >? 0); destruct (r >? 0); lia.
Qed.

(** X6.  The banking of a planned memory: between 1 and 16 interfaces of each
    kind and duplicated sets, which are as many as the duplication factor;
    and 1, 2, 4, 8 or 16 distributed banks, as many as the distribution
    factor. *)
Theorem planned_banks_in_range (m m' : memory.t) (lib : list sram.t) :
  requested m -> gen m lib = Ok m' ->
  1 <= read_interfaces m' <= 16 /\ 1 <= write_interfaces m' <= 16 /\
  dbanks m' = duplication_factor m' /\ hbanks m' = distribution_factor m' /\
  1 <= dbanks m' <= 16 /\ In (hbanks m') [1; 2; 4; 8; 16].
Proof.
  intros Hreq Hgen.
  destruct (gen_plan m m' lib Hreq Hgen) as (h & ram & wph & Hh & Hsame & _).
  destruct (find_hbanks_plan m h Hreq Hh) as (Hfix & _ & _ & Hd & Hhb & HR & HW & _).
  destruct (find_hbanks_factors m h Hreq Hh) as [[(od & Hod & HD) _] [(oh & Hoh & HH) _]].
  destruct (requested_valid m Hreq) as [Hvalid _].
  unfold request_of in Hsame.
  injection Hsame as E1 E2 E3 E4 E5 E6 E7 E8 E9 E10 E11 E12.
  injection Hfix as F1 F2 F3 F4.
  rewrite Forall_forall in Hvalid. rewrite F4 in Hod, Hoh.
  pose proof (duplication_bounds od (Hvalid od Hod)) as BD.
  pose proof (distribution_power_of_two (need_parallel_rw h) oh (Hvalid oh Hoh)) as BH.
  rewrite HD in BD. rewrite HH in BH.
  rewrite E5, E6, E9, E10, E11, E12, HR, HW, Hd, Hhb.
  destruct (fold_max_bounds rn (ops m) 1) as (R1 & R2 & R3).
  destruct (fold_max_bounds wn (ops m) 1) as (W1 & W2 & W3).
  cbv zeta in R1, R2, R3, W1, W2, W3.
  assert (Hrn : forall op, In op (ops m) -> 0 <= rn op <= 16 /\ 0 <= wn op <= 16).
  { intros op Hin. specialize (Hvalid op Hin). destruct op; simpl in *; tauto. }
  repeat split; try assumption; try lia.
  - destruct R3 as [-> | (x & Hx & <-)]; [lia | apply (Hrn x Hx)].
  - destruct W3 as [-> | (x & Hx & <-)]; [lia | apply (Hrn x Hx)].
Qed.

(** X7.  For an operation the parser lets through, the writes never change the
    duplication the reads ask for: two writes of unknown pattern share the
    two ports of one bank. *)
Theorem duplication_is_for_reads (op : memory_operation.t) :
  valid_op op ->
  op_duplication_factor op
  = Ok (if pattern_eqb (rp op) unknown && (rn op >? 1)
        then if wn op =? 0 then (rn op + 1) / 2 else rn op
        else 1).
Proof.
  intro Hv. rewrite (proj1 (op_duplication_factor_spec op Hv)). f_equal.
  destruct op as [r rp0 w wp0]. simpl in *. destruct Hv as (Hr & Hw & _ & _ & Hu).
  unfold duplication, read_duplication, ceil_half. simpl.
  destruct wp0; cbn [pattern_eqb andb].
  - destruct (Hu eq_refl) as [U2 U0].
    destruct (w >? 1) eqn:W1.
    + assert (w = 2) by lia. subst w. rewrite (U0 eq_refl). destruct rp0; reflexivity.
    + destruct (pattern_eqb rp0 unknown && (r >? 1)); [|reflexivity].
      destruct (w =? 0) eqn:W0; [reflexivity|].
      replace (w >? 0) with true by (symmetry; apply Z.gtb_lt; lia). reflexivity.
  - destruct (pattern_eqb rp0 unknown && (r >? 1)); [|reflexivity].
    destruct (w =? 0) eqn:W0; [reflexivity|].
    replace (w >? 0) with true by (symmetry; apply Z.gtb_lt; lia). reflexivity.
Qed.

End PlannedFactors.

(** ** Divisions that go through a float *)

Section FloatDivisions.

Import memory memory_operation.

(** [int] of a float [m * 2 ^ e], seen at a scale [2 ^ - S] it is a
    multiple of. *)
Lemma int_of_float_scaled (m : positive) (e S : Z) :
  0 <= S -> 0 <= e + S ->
  int_of_float (S754_finite false m e) = Ok ((Zpos m * 2 ^ (e + S)) / 2 ^ S).
Proof.
  intros HS HeS. unfold int_of_float.
  destruct (0 <=? e) eqn:He.
  - apply Z.leb_le in He. rewrite Z.pow_add_r by lia.
    rewrite Z.mul_assoc, Z.div_mul by (apply Z.pow_nonzero; lia). reflexivity.
  - apply Z.leb_gt in He.
    replace (2 ^ S) with (2 ^ (- e) * 2 ^ (e + S))
      by (rewrite <- Z.pow_add_r by lia; f_equal; lia).
    rewrite Z.div_mul_cancel_r by (apply Z.pow_nonzero; lia).
    rewrite Z.quot_div_nonneg; [reflexivity | lia |].
    apply Z.pow_pos_nonneg; lia.
Qed.

Lemma trunc_div_exact (a b : positive) :
  Zpos a < 2 ^ 53 -> Zpos b < 2 ^ 53 ->
  trunc_div (Zpos a) (Zpos b) = Ok (Zpos a / Zpos b).
Proof.
  intros Ha Hb.
  pose proof (digits_below a 53 ltac:(lia) Ha) as Da.
  pose proof (digits_below b 53 ltac:(lia) Hb) as Db.
  unfold trunc_div, truediv. cbn [Z.eqb exact]. unfold SFdiv.
  change prec with 53. change emax with 1024.
  rewrite (div_core a b Da Db). cbv zeta.
  destruct (digits_bounds a) as [La Ua]. destruct (digits_bounds b) as [Lb Ub].
  set (d1 := Zpos (digits2_pos a)) in *. set (d2 := Zpos (digits2_pos b)) in *.
  assert (0 < d1) by (unfold d1; lia). assert (0 < d2) by (unfold d2; lia).
  set (s := 53 + d2 - d1).
  assert (Hs : 1 <= s <= 200) by (unfold s; lia).
  set (P := 2 ^ s).
  assert (HP : Zpos b < P).
  { assert (2 ^ d2 <= 2 ^ s) by (apply Z.pow_le_mono_r; unfold s; lia). unfold P. lia. }
  set (N := Zpos a * P).
  pose proof (Z.div_mod N (Zpos b) ltac:(lia)) as EN.
  pose proof (Z.mod_pos_bound N (Zpos b) ltac:(lia)) as BN.
  set (q := N / Zpos b) in *. set (r := N mod Zpos b) in *.
  assert (Hq : 2 ^ 52 <= q < 2 ^ 54).
  { split.
    - apply Z.div_le_lower_bound; [lia|].
      assert (E : 2 ^ (d1 - 1) * P = 2 ^ 52 * 2 ^ d2)
        by (unfold P; rewrite <- !Z.pow_add_r by lia; f_equal; unfold s; lia).
      assert (0 < 2 ^ 52) by (apply Z.pow_pos_nonneg; lia).
      assert (0 < P) by (apply Z.pow_pos_nonneg; lia).
      unfold N. nia.
    - apply Z.div_lt_upper_bound; [lia|].
      assert (E : 2 ^ d1 * P = 2 ^ 54 * 2 ^ (d2 - 1))
        by (unfold P; rewrite <- !Z.pow_add_r by lia; f_equal; unfold s; lia).
      assert (0 < 2 ^ 54) by (apply Z.pow_pos_nonneg; lia).
      assert (0 < P) by (apply Z.pow_pos_nonneg; lia).
      unfold N. nia. }
  cbn [xorb].
  destruct (round_shape q s (new_location (Zpos b) r) Hq Hs)
    as (m & e & M & -> & He & HM & Hup & Hex & Hlow).
  cbn [bind]. rewrite (int_of_float_scaled m e s) by lia. rewrite HM. f_equal.
  fold P.
  pose proof (Z.div_mod (Zpos a) (Zpos b) ltac:(lia)) as Ea.
  pose proof (Z.mod_pos_bound (Zpos a) (Zpos b) ltac:(lia)) as Ba.
  set (n := Zpos a / Zpos b) in *. set (t := Zpos a mod Zpos b) in *.
  assert (0 < P) by (apply Z.pow_pos_nonneg; lia).
  assert (Q1 : n * P <= q).
  { apply Z.div_le_lower_bound; [lia|]. unfold N. nia. }
  assert (Q2 : q <= (n + 1) * P - 2).
  { assert (q < (n + 1) * P - 1); [|lia].
    apply Z.div_lt_upper_bound; [lia|]. unfold N. nia. }
  assert (Lo : n * P <= M).
  { destruct Hlow as [L | [Lx HMq]]; [lia|].
    destruct (Z.eq_dec q (n * P)) as [Eq|Ne]; [|lia].
    assert (M = q); [|lia].
    apply Hex; [exact Lx|].
    rewrite Eq. unfold P. replace s with (Z.succ (s - 1)) by lia.
    rewrite Z.pow_succ_r by lia.
    rewrite Z.even_mul, Z.even_mul. cbn. apply orb_true_r. }
  symmetry. apply (Z.div_unique_pos M P n (M - n * P)); lia.
Qed.

(** [int(a / b)] is the quotient of the integers for sizes a float holds
    exactly. *)
Lemma trunc_div_floor (a b : Z) :
  0 <= a < 2 ^ 53 -> 0 < b < 2 ^ 53 -> trunc_div a b = Ok (a / b).
Proof.
  intros Ha Hb. destruct b as [|b|b]; try lia.
  destruct a as [|a|a]; try lia.
  - reflexivity.
  - apply trunc_div_exact; lia.
Qed.

(** X8.  The two idioms that divide ints through a float, [int(math.ceil(a / b))]
    of the planner and [int(a / b)] of the emitter, are the ceiling and the
    floor of the quotient on the integers, whenever both operands are
    below [2 ^ 53]: the rounding of the float quotient never crosses an
    integer. *)
Theorem division_idioms_are_exact (a b : Z) :
  0 <= a < 2 ^ 53 -> 0 < b < 2 ^ 53 ->
  ceil_div a b = Ok (ceiling a b) /\ trunc_div a b = Ok (a / b) /\
  b * (ceiling a b - 1) < a <= b * ceiling a b.
Proof.
  intros Ha Hb. split; [exact (ceil_div_ceiling a b Ha Hb)|].
  split; [exact (trunc_div_floor a b Ha Hb)|].
  apply ceiling_spec. lia.
Qed.

Lemma spread_port_formula (i banks ports : Z) :
  0 <= i < 2 ^ 53 -> 0 < banks < 2 ^ 53 -> ports <> 0 ->
  spread_port i banks ports = Ok ((i / banks + i mod ports) mod ports).
Proof.
  intros Hi Hb Hp. unfold spread_port, mod_.
  rewrite (trunc_div_floor i banks Hi Hb). cbn [bind].
  replace (ports =? 0) with false by (symmetry; apply Z.eqb_neq; exact Hp).
  reflexivity.
Qed.

(** X9.  The port [(int(i / banks) + i % 2) % 2] the emitter gives interface [i]
    on dual-port banks.  With an even number of banks, the interfaces [i]
    and [i + banks], which select the same bank, get different ports; with
    one bank every interface gets port 0. *)
Theorem spread_port_on_two_ports (i banks : Z) :
  0 <= i -> 0 < banks -> i + banks < 2 ^ 53 ->
  spread_port i banks 2 = Ok ((i / banks + i) mod 2) /\
  (Z.even banks = true ->
   exists p p', spread_port i banks 2 = Ok p /\
                spread_port (i + banks) banks 2 = Ok p' /\ p + p' = 1) /\
  (banks = 1 -> spread_port i banks 2 = Ok 0).
Proof.
  intros Hi Hb Hib.
  assert (F : forall j, 0 <= j < 2 ^ 53 ->
                        spread_port j banks 2 = Ok ((j / banks + j) mod 2)).
  { intros j Hj. rewrite spread_port_formula by lia.
    f_equal. rewrite Z.add_mod_idemp_r by lia. reflexivity. }
  split; [apply F; lia|]. split.
  - intro Hev. exists ((i / banks + i) mod 2), (((i + banks) / banks + (i + banks)) mod 2).
    split; [apply F; lia|]. split; [apply F; lia|].
    replace (i + banks) with (i + 1 * banks) at 1 by lia.
    rewrite Z.div_add by lia.
    apply Z.even_spec in Hev. destruct Hev as [k Hk].
    pose proof (Z.mod_pos_bound (i / banks + i) 2 ltac:(lia)) as B1.
    replace (i / banks + 1 + (i + banks)) with ((i / banks + i + 1) + k * 2) by lia.
    rewrite Z.mod_add by lia.
    pose proof (Z.div_mod (i / banks + i) 2 ltac:(lia)) as D1.
    pose proof (Z.div_mod (i / banks + i + 1) 2 ltac:(lia)) as D2.
    pose proof (Z.mod_pos_bound (i / banks + i + 1) 2 ltac:(lia)) as B2.
    lia.
  - intros ->. rewrite F by lia. f_equal.
    rewrite Z.div_1_r. replace (i + i) with (0 + i * 2) by lia.
    rewrite Z.mod_add by lia. reflexivity.
Qed.

End FloatDivisions.

(** ** The second pass of the planner *)

Section PlannedBanks.

Import memory memory_operation Selection Contribution.

Ltac compare_cases :=
  repeat match goal with
         | |- context [Z.compare ?a ?b] => destruct (Z.compare_spec a b)
         | |- context [Pos.compare_cont Eq ?a ?b] =>
             change (Pos.compare_cont Eq a b) with (Pos.compare a b);
             destruct (Pos.compare_spec a b)
         end;
  simpl; intros; subst;
  try reflexivity; try discriminate; try lia; auto.

(** Two numbers neither of which is below the other are equal. *)
Lemma not_ltb_eqb (x y : float) :
  SFltb x inf = true -> SFltb y inf = true ->
  SFltb x y = false -> SFltb y x = false -> SFeqb x y = true.
Proof.
  unfold inf, SFltb, SFeqb, SFcompare.
  destruct x as [[]|[]| |[] ? ?], y as [[]|[]| |[] ? ?];
    simpl; try reflexivity; try discriminate; auto; compare_cases.
Qed.

(** What [gen] leaves behind: the first pass, and the macro the loop of
    the second pass stopped on. *)
Lemma gen_selection (m m' : memory.t) (lib : list sram.t) :
  requested m -> gen m lib = Ok m' ->
  exists h wph before ram after,
    __find_hbanks m = Ok h /\ request_of m' = request_of h /\
    ceil_div (words h) (hbanks h) = Ok wph /\
    lib = before ++ ram :: after /\
    bank_type m' = Some ram /\ skipped h ram = false /\
    bank_estimate (width h) wph (dbanks h) (hbanks h) ram
    = Ok (hhbanks m', vbanks m', area m') /\
    (forall r, In r lib -> skipped h r = false ->
       exists hh v a, bank_estimate (width h) wph (dbanks h) (hbanks h) r = Ok (hh, v, a)
                      /\ SFltb a (area m') = false).
Proof.
  intros Hreq Hgen.
  destruct (gen_plan m m' lib Hreq Hgen) as (h & ram & wph & Hh & Hsame & Hb & Hw & Hsel).
  destruct Hsel as [_ [(Hnone & _) | (before & r0 & after & hh & v & Hlib & Hb0 & Hsk & He & Hhh & Hv & Hbefore & Hafter)]];
    [congruence|].
  exists h, wph, before, r0, after.
  repeat (split; [assumption|]).
  split; [rewrite Hhh, Hv; exact He|].
  intros r Hin Hqr.
  rewrite Hlib in Hin. apply in_app_or in Hin. destruct Hin as [Hin | [<- | Hin]].
  - destruct (Hbefore r Hin Hqr) as (hh1 & v1 & a1 & He1 & Hn1).
    exists hh1, v1, a1. split; [exact He1|].
    destruct Hn1 as [Hn1 | ->]; [exact (ltb_asym _ _ Hn1) | reflexivity].
  - exists hh, v, (area m'). split; [exact He | apply ltb_irrefl].
  - exact (Hafter r Hin Hqr).
Qed.

(** The sizes of the first pass. *)
Lemma find_hbanks_sizes (m h : memory.t) :
  requested m -> __find_hbanks m = Ok h ->
  words h = words m /\ width h = width m /\ 0 < words h /\ 0 < width h /\
  1 <= hbanks h <= 16 /\ 1 <= dbanks h <= 16.
Proof.
  intros Hreq Hh.
  destruct (requested_defaults m Hreq) as (Pw & Pwd & _).
  destruct (find_hbanks_plan m h Hreq Hh) as (Hfix & _ & _ & Hd & Hhb & _).
  destruct (requested_valid m Hreq) as [Hvalid _].
  destruct (find_hbanks_factors m h Hreq Hh) as [[(od & Hod & HD) _] [(oh & Hoh & HH) _]].
  injection Hfix as F1 F2 F3 F4.
  rewrite F4 in Hod, Hoh. rewrite Forall_forall in Hvalid.
  pose proof (distribution_bounds (need_parallel_rw h) oh (Hvalid oh Hoh)) as BH.
  pose proof (duplication_bounds od (Hvalid od Hod)) as BD.
  rewrite HH in BH. rewrite HD in BD. repeat split; lia.
Qed.

Lemma two_to_the_53 : 2 ^ 53 = 9007199254740992.
Proof. reflexivity. Qed.

(** X10.  The banks of a planned memory hold it, and none is to spare: [HH]
    banks side by side are the fewest that give the width, and [V] rows
    of [H] banks the fewest that give the words, for sizes below
    [2 ^ 53]. *)
Theorem planned_banks_hold_the_memory (m m' : memory.t) (lib : list sram.t) (ram : sram.t) :
  requested m -> gen m lib = Ok m' -> bank_type m' = Some ram ->
  words m' < 2 ^ 53 -> width m' < 2 ^ 53 ->
  0 < sram.words ram < 2 ^ 53 -> 0 < sram.width ram < 2 ^ 53 ->
  1 <= hhbanks m' /\ 1 <= vbanks m' /\
  (hhbanks m' - 1) * sram.width ram < width m' <= hhbanks m' * sram.width ram /\
  hbanks m' * (vbanks m' - 1) * sram.words ram < words m'
  /\ words m' <= hbanks m' * vbanks m' * sram.words ram.
Proof.
  intros Hreq Hgen Hram Hwords Hwidth Hrw Hrwd.
  destruct (gen_selection m m' lib Hreq Hgen)
    as (h & wph & before & r0 & after & Hh & Hsame & Hw & _ & Hb & _ & He & _).
  rewrite Hram in Hb. injection Hb as <-.
  destruct (find_hbanks_sizes m h Hreq Hh) as (_ & _ & Pw & Pwd & BH & _).
  unfold request_of in Hsame.
  injection Hsame as E1 E2 E3 E4 E5 E6 E7 E8 E9 E10 E11 E12.
  rewrite two_to_the_53 in *.
  rewrite ceil_div_ceiling in Hw by (rewrite two_to_the_53; lia).
  injection Hw as <-.
  pose proof (ceiling_bounds (words h) (hbanks h) ltac:(lia) ltac:(lia)) as Hc.
  pose proof (ceiling_spec (words h) (hbanks h) ltac:(lia)) as Sc.
  assert (B1 : 0 <= width h < 2 ^ 53) by (rewrite two_to_the_53; lia).
  assert (B2 : 0 <= ceiling (words h) (hbanks h) < 2 ^ 53) by (rewrite two_to_the_53; lia).
  assert (B3 : 0 < sram.words ram < 2 ^ 53) by (rewrite two_to_the_53; lia).
  assert (B4 : 0 < sram.width ram < 2 ^ 53) by (rewrite two_to_the_53; lia).
  destruct (bank_estimate_exact _ _ _ _ _ _ _ _ B1 B2 B3 B4 He) as [Ehh Ev].
  pose proof (ceiling_spec (width h) (sram.width ram) ltac:(lia)) as Shh.
  pose proof (ceiling_spec (ceiling (words h) (hbanks h)) (sram.words ram) ltac:(lia)) as Sv.
  pose proof (ceiling_bounds (width h) (sram.width ram) ltac:(lia) ltac:(lia)) as Bhh.
  pose proof (ceiling_bounds (ceiling (words h) (hbanks h)) (sram.words ram) ltac:(lia) ltac:(lia)) as Bv.
  rewrite <- Ehh in Shh, Bhh. rewrite <- Ev in Sv, Bv.
  rewrite E2, E3, E12.
  set (c := ceiling (words h) (hbanks h)) in *.
  repeat split; try lia; nia.
Qed.

(** One turn of the loop leaves the area alone or lowers it. *)
Lemma try_bank_area (wph d hb : Z) (s s' : memory.t) (ram : sram.t) :
  try_bank wph d hb s ram = Ok s' ->
  (bank_type s' = bank_type s /\ area s' = area s) \/
  (bank_type s' = Some ram /\ SFltb (area s') (area s) = true).
Proof.
  unfold try_bank. intro H.
  destruct (need_dual_port s && (sram.ports ram <? 2)).
  - inversion H; subst. left. auto.
  - bind_inv H. bind_inv H. bind_inv H. unfold gt in H.
    destruct (SFltb a1 (area s)) eqn:Hlt; inversion H; subst; clear H.
    + right. simpl. auto.
    + left. auto.
Qed.

Lemma loop_area (wph d hb : Z) (l : list sram.t) (s s' : memory.t) :
  for_each (try_bank wph d hb) l s = Ok s' ->
  (bank_type s' = bank_type s /\ area s' = area s) \/
  (bank_type s' <> None /\ SFltb (area s') (area s) = true).
Proof.
  revert s. induction l as [|ram l IH]; intros s H; simpl in H.
  - inversion H; subst. left. auto.
  - bind_inv H. rename a into s1.
    destruct (try_bank_area _ _ _ _ _ _ Ha) as [[B1 A1] | [B1 A1]];
      destruct (IH _ H) as [[B2 A2] | [B2 A2]].
    + left. split; congruence.
    + right. split; [exact B2 | rewrite <- A1; exact A2].
    + right. split; [congruence | rewrite A2; exact A1].
    + right. split; [exact B2 | exact (ltb_trans _ _ _ A2 A1)].
Qed.

Lemma planned_area_below (m m' : memory.t) (lib : list sram.t) :
  requested m -> gen m lib = Ok m' -> SFltb (area m') inf = true.
Proof.
  intros Hreq Hgen.
  destruct (gen_ok m m' lib Hgen) as (h & ram & Hh & Hv & Hb).
  destruct (find_hbanks_plan m h Hreq Hh) as (_ & Hbt & Har & _).
  unfold __find_vbanks in Hv. bind_inv Hv.
  destruct (loop_area _ _ _ _ _ _ Hv) as [[B A] | [B A]]; [congruence|].
  rewrite Har in A. exact A.
Qed.

(** X11.  The area of a planned memory is a number below infinity: a macro whose
    estimate is infinite or not a number is never chosen. *)
Theorem planned_area_is_below_infinity (m m' : memory.t) (lib : list sram.t) :
  requested m -> gen m lib = Ok m' ->
  SFltb (area m') inf = true /\ area m' <> inf /\ area m' <> S754_nan.
Proof.
  intros Hreq Hgen.
  pose proof (planned_area_below m m' lib Hreq Hgen) as A.
  split; [exact A|].
  split; intro E; rewrite E in A; discriminate.
Qed.

(** X12.  When no macro of the library can be used, because the library is empty
    or because the memory needs dual-port banks and every macro has one
    port, [gen] ends in the [AttributeError] of [self.bank_type.name],
    which nothing catches. *)
Theorem gen_without_usable_macro (m : memory.t) (lib : list sram.t) :
  requested m -> words m < 2 ^ 53 ->
  Forall (fun r => existsb (fun op => rn op + wn op >? 1) (ops m) = true
                   /\ sram.ports r < 2) lib ->
  gen m lib = Raise AttributeError /\ exit_status (gen m lib) = 1.
Proof.
  intros Hreq Hwords Hlib.
  assert (G : gen m lib = Raise AttributeError); [|rewrite G; split; reflexivity].
  destruct (find_hbanks_returns m Hreq) as [h Hh].
  destruct (find_hbanks_plan m h Hreq Hh) as (_ & Hbt & _).
  destruct (find_hbanks_sizes m h Hreq Hh) as (Ew & _ & Pw & _ & BH & _).
  pose proof (find_hbanks_dual_port m h Hreq Hh) as Hdp.
  unfold gen. rewrite Hh. cbn [bind]. unfold __find_vbanks.
  rewrite ceil_div_ceiling by (rewrite two_to_the_53 in *; lia). cbn [bind].
  assert (L : for_each (try_bank (ceiling (words h) (hbanks h)) (dbanks h) (hbanks h)) lib h
              = Ok h).
  { induction Hlib as [|r l [Hr1 Hr2] _ IH]; [reflexivity|].
    simpl. unfold try_bank at 1. rewrite Hdp, Hr1.
    replace (sram.ports r <? 2) with true by (symmetry; apply Z.ltb_lt; exact Hr2).
    cbn [andb bind]. exact IH. }
  rewrite L. cbn [bind]. rewrite Hbt. reflexivity.
Qed.

(** X13.  A longer library never gives a larger plan: what [gen] finds in a
    library followed by more macros is not above what it finds in the
    library alone. *)
Theorem more_macros_never_cost_area (m m1 m2 : memory.t) (lib more : list sram.t) :
  gen m lib = Ok m1 -> gen m (lib ++ more) = Ok m2 ->
  SFltb (area m1) (area m2) = false.
Proof.
  intros H1 H2.
  destruct (gen_ok m m1 lib H1) as (h & r1 & Hh & Hv1 & _).
  destruct (gen_ok m m2 (lib ++ more) H2) as (h' & r2 & Hh' & Hv2 & _).
  rewrite Hh in Hh'. injection Hh' as <-.
  unfold __find_vbanks in Hv1, Hv2. bind_inv Hv1. bind_inv Hv2.
  rewrite Ha in Ha0. injection Ha0 as <-.
  rewrite for_each_app, Hv1 in Hv2. cbn [bind] in Hv2.
  destruct (loop_area _ _ _ _ _ _ Hv2) as [[_ A] | [_ A]].
  - rewrite A. apply ltb_irrefl.
  - exact (ltb_asym _ _ A).
Qed.

(** X14.  The area of the plan does not depend on the order of the library: two
    libraries with the same macros give equal areas. *)
Theorem area_is_independent_of_library_order (m m1 m2 : memory.t) (lib1 lib2 : list sram.t) :
  requested m -> (forall r, In r lib1 <-> In r lib2) ->
  gen m lib1 = Ok m1 -> gen m lib2 = Ok m2 ->
  SFeqb (area m1) (area m2) = true.
Proof.
  intros Hreq Hsame H1 H2.
  destruct (gen_selection m m1 lib1 Hreq H1)
    as (h & wph & b1 & r1 & a1 & Hh & _ & Hw & L1 & _ & S1 & E1 & M1).
  destruct (gen_selection m m2 lib2 Hreq H2)
    as (h' & wph' & b2 & r2 & a2 & Hh' & _ & Hw' & L2 & _ & S2 & E2 & M2).
  rewrite Hh in Hh'. injection Hh' as <-.
  rewrite Hw in Hw'. injection Hw' as <-.
  assert (In1 : In r1 lib2) by (apply Hsame; rewrite L1; apply in_elt).
  assert (In2 : In r2 lib1) by (apply Hsame; rewrite L2; apply in_elt).
  destruct (M2 r1 In1 S1) as (hh & v & a & Ea & Na).
  rewrite E1 in Ea. injection Ea as _ _ <-.
  destruct (M1 r2 In2 S2) as (hh' & v' & a' & Ea' & Na').
  rewrite E2 in Ea'. injection Ea' as _ _ <-.
  pose proof (planned_area_below m m1 lib1 Hreq H1) as B1.
  pose proof (planned_area_below m m2 lib2 Hreq H2) as B2.
  exact (not_ltb_eqb _ _ B1 B2 Na Na').
Qed.

End PlannedBanks.

(** ** The emitter *)

Section EmittedControl.

Import memory memory_operation Selection.

(** Reading [l[i]] in a list built over [range(0, n)]. *)
Lemma item_map_range {A : Type} (f : Z -> A) (n i : Z) :
  0 <= i < n -> item (map f (range 0 n)) i = Ok (f i).
Proof.
  intro H. unfold item. rewrite length_map, range_length.
  replace ((0 <=? i) && (i <? Z.of_nat (Z.to_nat (n - 0)))) with true
    by (symmetry; apply andb_true_intro; split; [apply Z.leb_le | apply Z.ltb_lt]; lia).
  unfold index, range. rewrite map_map.
  rewrite (nth_error_map (fun k : nat => f (0 + Z.of_nat k))).
  rewrite nth_error_seq.
  replace (Z.to_nat i <? Z.to_nat (n - 0))%nat with true
    by (symmetry; apply Nat.ltb_lt; lia).
  simpl. f_equal. f_equal. lia.
Qed.

Lemma item_map_range_beyond {A : Type} (f : Z -> A) (n i : Z) :
  0 <= n <= i -> item (map f (range 0 n)) i = Raise IndexError.
Proof.
  intro H. unfold item. rewrite length_map, range_length.
  replace (i <? Z.of_nat (Z.to_nat (n - 0))) with false
    by (symmetry; apply Z.ltb_ge; lia).
  replace (i <? 0) with false by (symmetry; apply Z.ltb_ge; lia).
  rewrite !andb_false_r. reflexivity.
Qed.

(** An entry of a table of [__write_ctrl_assignment]. *)
Lemma str_table_entry (self : memory.t) (ram : sram.t) (entry : Z -> Z -> string)
  (d p : Z) :
  0 <= d < dbanks self -> 0 <= p < sram.ports ram ->
  (row <- item (str_table self ram entry) d ;; item row p) = Ok (entry d p).
Proof.
  intros Hd Hp. unfold str_table.
  rewrite (item_map_range (fun d => map (fun p => entry d p) (range 0 (sram.ports ram))))
    by exact Hd.
  cbn [bind]. apply (item_map_range (fun p => entry d p)). exact Hp.
Qed.

Lemma str_table_row (self : memory.t) (ram : sram.t) (entry : Z -> Z -> string) (d : Z) :
  0 <= d < dbanks self ->
  item (str_table self ram entry) d
  = Ok (map (fun p => entry d p) (range 0 (sram.ports ram))).
Proof.
  intro Hd. unfold str_table.
  exact (item_map_range (fun d => map (fun p => entry d p) (range 0 (sram.ports ram))) _ _ Hd).
Qed.

(** The condition on the bank a call is for, when the access is one of
    several of a known pattern. *)
Definition bank_condition (self : memory.t) (iface : Z) (is_write : bool)
  (parallelism : Z) : list string :=
  if negb (parallelism =? 0) then
    [ line ("          if (h % " +++ str (Z.min parallelism (hbanks self)) +++ " == "
            +++ str ((if negb is_write then iface - write_interfaces self else iface)
                     mod hbanks self)
            +++ ") begin") ]
  else [].

(** X15.  What one call of [__write_ctrl_assignment] writes, for a duplicated
    set and a port the banks have: the assignments of that set and that
    port to the signals of the interface.  A set or a port beyond the
    banks is an [IndexError]. *)
Theorem write_ctrl_assignment_text (self : memory.t) (ram : sram.t)
  (bank_addr_range_str hh_range_str : string)
  (d p iface : Z) (is_write : bool) (parallelism : Z) :
  bank_type self = Some ram -> parallelism = 0 \/ hbanks self <> 0 ->
  0 <= d -> 0 <= p -> 0 <= dbanks self -> 0 <= sram.ports ram ->
  __write_ctrl_assignment self bank_addr_range_str hh_range_str d p iface
    is_write parallelism
  = if (d <? dbanks self) && (p <? sram.ports ram) then
      let bank := "[" +++ str d +++ "][h][v][hh][" +++ str p +++ "]" in
      Ok (bank_condition self iface is_write parallelism
          ++ [ line ("            if (ctrlh[" +++ str iface +++ "] == h && ctrlv["
                     +++ str iface +++ "] == v && " +++ name self +++ "_CE" +++ str iface
                     +++ " == 1'b1) begin");
               line "// synthesis translate_off";
               line ("              check_access(" +++ str iface +++ ", "
                     +++ str d +++ ", h, v, hh, " +++ str p +++ ");");
               line "// synthesis translate_on";
               line ("              bank_CE" +++ bank +++ "  = " +++ name self +++ "_CE"
                     +++ str iface +++ ";");
               line ("              bank_A" +++ bank +++ "   = " +++ name self +++ "_A"
                     +++ str iface +++ bank_addr_range_str +++ ";") ]
          ++ (if is_write then
                [ line ("              bank_D" +++ bank +++ "   = " +++ name self +++ "_D"
                        +++ str iface +++ hh_range_str +++ ";");
                  line ("              bank_WE" +++ bank +++ "  = " +++ name self +++ "_WE"
                        +++ str iface +++ ";");
                  line ("              bank_WEM" +++ bank +++ " = " +++ name self +++ "_WEM"
                        +++ str iface +++ hh_range_str +++ ";") ]
              else [])
          ++ [ line "            end" ]
          ++ (if negb (parallelism =? 0) then [ line "          end" ] else []))
    else Raise IndexError.
Proof.
  intros Hb Hpar Hd Hp Hdb Hpt.
  unfold __write_ctrl_assignment, the_bank_type. rewrite Hb. cbn [bind].
  assert (G : (if negb (parallelism =? 0)
               then normalized_iface <-
                      mod_ (if negb is_write then iface - write_interfaces self else iface)
                        (hbanks self) ;;
                    Ok [ line ("          if (h % " +++ str (Z.min parallelism (hbanks self))
                               +++ " == " +++ str normalized_iface +++ ") begin") ]
               else Ok [])
              = Ok (bank_condition self iface is_write parallelism)).
  { unfold bank_condition. destruct (parallelism =? 0) eqn:E; cbn [negb]; [reflexivity|].
    destruct Hpar as [-> | Hh]; [discriminate|].
    unfold mod_. replace (hbanks self =? 0) with false by (symmetry; apply Z.eqb_neq; exact Hh).
    reflexivity. }
  rewrite G. cbn [bind]. clear G.
  destruct (d <? dbanks self) eqn:Ed; cbn [andb].
  - apply Z.ltb_lt in Ed.
    rewrite !(str_table_row self ram _ d) by lia. cbn [bind].
    destruct (p <? sram.ports ram) eqn:Ep.
    + apply Z.ltb_lt in Ep.
      rewrite !(item_map_range _ (sram.ports ram) p) by lia. cbn [bind].
      destruct is_write; cbn [bind]; cbv zeta; rewrite ?append_assoc; reflexivity.
    + apply Z.ltb_ge in Ep.
      rewrite (item_map_range_beyond _ (sram.ports ram) p) by lia. reflexivity.
  - apply Z.ltb_ge in Ed. unfold str_table.
    rewrite (item_map_range_beyond _ (dbanks self) d) by lia. reflexivity.
Qed.

Lemma write_ctrl_assignment_returns (self : memory.t) (ram : sram.t)
  (bank_addr_range_str hh_range_str : string)
  (d p iface : Z) (is_write : bool) (parallelism : Z) :
  bank_type self = Some ram -> hbanks self <> 0 ->
  0 <= d < dbanks self -> 0 <= p < sram.ports ram ->
  exists t, __write_ctrl_assignment self bank_addr_range_str hh_range_str d p iface
              is_write parallelism = Ok t.
Proof.
  intros Hb Hh Hd Hp.
  unfold __write_ctrl_assignment, the_bank_type, mod_. rewrite Hb. cbn [bind].
  replace (hbanks self =? 0) with false by (symmetry; apply Z.eqb_neq; exact Hh).
  rewrite !(str_table_row self ram _ d) by lia. cbn [bind].
  rewrite !(item_map_range _ (sram.ports ram) p) by lia.
  destruct (negb (parallelism =? 0)); destruct is_write; cbn [bind];
    eexists; reflexivity.
Qed.

End EmittedControl.

Section EmitterReturnsOnPlans.

Import memory memory_operation Selection.

Variable ceil_log2 : Z -> Z.

(** What the emitter needs of a memory and of its bank: sets, banks and
    ports to count on, one port more when an operation reads and writes,
    and operations with counts a float holds. *)
Definition emittable (self : memory.t) (ram : sram.t) : Prop :=
  bank_type self = Some ram /\
  0 < words self /\ 0 < sram.words ram /\ sram.width ram <> 0 /\
  1 <= dbanks self < 2 ^ 53 /\ 1 <= hbanks self < 2 ^ 53 /\ 1 <= vbanks self /\
  1 <= sram.ports ram /\
  (need_parallel_rw self = true -> 2 <= sram.ports ram) /\
  Forall (fun op => 0 <= rn op < 2 ^ 53 /\ 0 <= wn op < 2 ^ 53 /\
                    ((rn op >? 0) && (wn op >? 0) = true -> 2 <= sram.ports ram))
         (ops self).

(** A call the control block makes for banks that exist. *)
Definition within_banks (self : memory.t) (ram : sram.t) (it : ctrl_item) : Prop :=
  match it with
  | Comment _ => True
  | Assignment d p _ _ _ => 0 <= d < dbanks self /\ 0 <= p < sram.ports ram
  end.

Lemma concat_map_returns {A B : Type} (P : B -> Prop) (f : A -> result (list B))
  (l : list A) :
  (forall x, In x l -> exists y, f x = Ok y /\ Forall P y) ->
  exists out, concat_map f l = Ok out /\ Forall P out.
Proof.
  induction l as [|x l IH]; intro H; simpl.
  - exists []. split; [reflexivity | constructor].
  - destruct (H x (or_introl eq_refl)) as (y & -> & Hy).
    destruct (IH (fun x Hin => H x (or_intror Hin))) as (ys & -> & Hys).
    exists (y ++ ys). split; [reflexivity | apply Forall_app; auto].
Qed.

Lemma mod_returns (a b : Z) : 0 < b -> mod_ a b = Ok (a mod b) /\ 0 <= a mod b < b.
Proof.
  intro H. unfold mod_.
  replace (b =? 0) with false by (symmetry; apply Z.eqb_neq; lia).
  split; [reflexivity | apply Z.mod_pos_bound; exact H].
Qed.

Lemma spread_port_returns (i banks ports : Z) :
  0 <= i < 2 ^ 53 -> 0 < banks < 2 ^ 53 -> 0 < ports ->
  exists p, spread_port i banks ports = Ok p /\ 0 <= p < ports.
Proof.
  intros Hi Hb Hp. rewrite spread_port_formula by lia.
  eexists. split; [reflexivity | apply Z.mod_pos_bound; exact Hp].
Qed.

Lemma write_all_sets_returns (self : memory.t) (ram : sram.t) (op : memory_operation.t)
  (port : Z -> result Z) (parallelism : Z) :
  (forall wi, 0 <= wi < wn op -> exists p, port wi = Ok p /\ 0 <= p < sram.ports ram) ->
  exists items, write_all_sets self op port parallelism = Ok items
                /\ Forall (within_banks self ram) items.
Proof.
  intro Hport. unfold write_all_sets.
  apply concat_map_returns. intros d Hd. apply range_in in Hd.
  destruct (concat_map_returns (within_banks self ram)
              (fun wi => p <- port wi ;; Ok [ Assignment d p wi true parallelism ])
              (range 0 (wn op))) as (calls & -> & Hcalls).
  { intros wi Hwi. apply range_in in Hwi.
    destruct (Hport wi Hwi) as (p & -> & Hp). cbn [bind].
    eexists. split; [reflexivity|]. constructor; [|constructor]. simpl. lia. }
  cbn [bind]. eexists. split; [reflexivity|].
  constructor; [exact I | exact Hcalls].
Qed.

Lemma handle_op_returns (self : memory.t) (ram : sram.t) (op : memory_operation.t) :
  emittable self ram ->
  0 <= rn op < 2 ^ 53 -> 0 <= wn op < 2 ^ 53 ->
  ((rn op >? 0) && (wn op >? 0) = true -> 2 <= sram.ports ram) ->
  exists items, handle_op self ram op = Ok items /\ Forall (within_banks self ram) items.
Proof.
  intros (Hb & Hw & Hrw & Hrwd & Hd & Hh & Hv & Hp & Hprw & _) Hr Hwn Hboth.
  unfold handle_op.
  (* 2wu:0r *)
  assert (K1 : exists k, (if pattern_eqb (wp op) unknown && (wn op =? 2)
                          then write_all_sets self op (fun wi => mod_ wi (sram.ports ram)) 0
                          else Ok []) = Ok k /\ Forall (within_banks self ram) k).
  { destruct (pattern_eqb (wp op) unknown && (wn op =? 2));
      [|exists []; split; [reflexivity | constructor]].
    apply write_all_sets_returns. intros wi _.
    destruct (mod_returns wi (sram.ports ram) ltac:(lia)) as [-> B]. eauto. }
  destruct K1 as (k1 & -> & F1). cbn [bind].
  (* <N>w:0r *)
  assert (K2 : exists k, (if (rn op =? 0) && pattern_eqb (wp op) modulo
                          then write_all_sets self op
                                 (fun wi => if negb (need_parallel_rw self)
                                            then spread_port wi (hbanks self) (sram.ports ram)
                                            else Ok 0)
                                 (wn op)
                          else Ok []) = Ok k /\ Forall (within_banks self ram) k).
  { destruct ((rn op =? 0) && pattern_eqb (wp op) modulo);
      [|exists []; split; [reflexivity | constructor]].
    apply write_all_sets_returns. intros wi Hwi.
    destruct (need_parallel_rw self); cbn [negb].
    - exists 0. split; [reflexivity | lia].
    - apply spread_port_returns; lia. }
  destruct K2 as (k2 & -> & F2). cbn [bind].
  (* 0w:<N>r *)
  assert (K3 : exists k,
             (if (wn op =? 0) && pattern_eqb (rp op) modulo
              then calls <- concat_map
                              (fun ri =>
                                 p <- (if negb (need_parallel_rw self)
                                       then spread_port ri (hbanks self) (sram.ports ram)
                                       else Ok 1) ;;
                                 Ok [ Assignment 0 p (ri + write_interfaces self) false (rn op) ])
                              (range 0 (rn op)) ;;
                   Ok (always_set_comment 0 :: calls)
              else Ok []) = Ok k /\ Forall (within_banks self ram) k).
  { destruct ((wn op =? 0) && pattern_eqb (rp op) modulo);
      [|exists []; split; [reflexivity | constructor]].
    destruct (concat_map_returns (within_banks self ram)
                (fun ri =>
                   p <- (if negb (need_parallel_rw self)
                         then spread_port ri (hbanks self) (sram.ports ram)
                         else Ok 1) ;;
                   Ok [ Assignment 0 p (ri + write_interfaces self) false (rn op) ])
                (range 0 (rn op))) as (calls & -> & Hcalls).
    { intros ri Hri. apply range_in in Hri.
      destruct (need_parallel_rw self) eqn:Eprw; cbn [negb].
      - cbn [bind]. eexists. split; [reflexivity|].
        constructor; [|constructor]. simpl. specialize (Hprw eq_refl). lia.
      - destruct (spread_port_returns ri (hbanks self) (sram.ports ram)) as (p & -> & Bp);
          try lia.
        cbn [bind]. eexists. split; [reflexivity|].
        constructor; [|constructor]. simpl. lia. }
    cbn [bind]. eexists. split; [reflexivity|]. constructor; [exact I | exact Hcalls]. }
  destruct K3 as (k3 & -> & F3). cbn [bind].
  (* <N>r:<M>w *)
  assert (K4 : exists k,
             (if (wn op >? 0) && (rn op >? 0) && pattern_eqb (wp op) modulo
                 && pattern_eqb (rp op) modulo
              then writes <- write_all_sets self op (fun _ => Ok 0) (wn op) ;;
                   Ok (writes ++ always_set_comment 0
                         :: map (fun ri => Assignment 0 1 (ri + write_interfaces self) false (rn op))
                                (range 0 (rn op)))
              else Ok []) = Ok k /\ Forall (within_banks self ram) k).
  { destruct ((wn op >? 0) && (rn op >? 0) && pattern_eqb (wp op) modulo
              && pattern_eqb (rp op) modulo) eqn:C;
      [|exists []; split; [reflexivity | constructor]].
    assert (P2 : 2 <= sram.ports ram).
    { apply Hboth. apply andb_prop in C. destruct C as [C _].
      apply andb_prop in C. destruct C as [C _].
      apply andb_prop in C. destruct C as [C1 C2]. rewrite C1, C2. reflexivity. }
    destruct (write_all_sets_returns self ram op (fun _ => Ok 0) (wn op))
      as (writes & -> & Hwrites).
    { intros wi _. exists 0. split; [reflexivity | lia]. }
    cbn [bind]. eexists. split; [reflexivity|].
    apply Forall_app. split; [exact Hwrites|].
    constructor; [exact I|]. apply Forall_forall. intros it Hit.
    apply in_map_iff in Hit. destruct Hit as (ri & <- & _). simpl. lia. }
  destruct K4 as (k4 & -> & F4). cbn [bind].
  (* <N>ru:0w *)
  assert (K5 : exists k,
             (if (rn op >? 1) && (wn op =? 0) && pattern_eqb (rp op) unknown
              then concat_map
                     (fun ri =>
                        p <- spread_port ri (dbanks self) (sram.ports ram) ;;
                        set <- mod_ ri (dbanks self) ;;
                        Ok [ Assignment set p (ri + write_interfaces self) false 0 ])
                     (range 0 (rn op))
              else Ok []) = Ok k /\ Forall (within_banks self ram) k).
  { destruct ((rn op >? 1) && (wn op =? 0) && pattern_eqb (rp op) unknown);
      [|exists []; split; [reflexivity | constructor]].
    apply concat_map_returns. intros ri Hri. apply range_in in Hri.
    destruct (spread_port_returns ri (dbanks self) (sram.ports ram)) as (p & -> & Bp);
      try lia.
    destruct (mod_returns ri (dbanks self) ltac:(lia)) as [-> Bs]. cbn [bind].
    eexists. split; [reflexivity|]. constructor; [|constructor]. simpl. lia. }
  destruct K5 as (k5 & -> & F5). cbn [bind].
  (* <N>ru:<M>w *)
  assert (K6 : exists k,
             (if (rn op >? 1) && (wn op >? 0) && pattern_eqb (rp op) unknown
                 && pattern_eqb (wp op) modulo
              then writes <- write_all_sets self op (fun _ => Ok 0) (wn op) ;;
                   reads <- concat_map
                              (fun ri =>
                                 set <- mod_ ri (dbanks self) ;;
                                 Ok [ Assignment set 1 (ri + write_interfaces self) false 0 ])
                              (range 0 (rn op)) ;;
                   Ok (writes ++ reads)
              else Ok []) = Ok k /\ Forall (within_banks self ram) k).
  { destruct ((rn op >? 1) && (wn op >? 0) && pattern_eqb (rp op) unknown
              && pattern_eqb (wp op) modulo) eqn:C;
      [|exists []; split; [reflexivity | constructor]].
    assert (P2 : 2 <= sram.ports ram).
    { apply Hboth. apply andb_prop in C. destruct C as [C _].
      apply andb_prop in C. destruct C as [C _].
      apply andb_prop in C. destruct C as [C1 C2]. rewrite C2.
      replace (rn op >? 0) with true; [reflexivity|].
      symmetry. apply Z.gtb_lt. apply Z.gtb_lt in C1. lia. }
    destruct (write_all_sets_returns self ram op (fun _ => Ok 0) (wn op))
      as (writes & -> & Hwrites).
    { intros wi _. exists 0. split; [reflexivity | lia]. }
    cbn [bind].
    destruct (concat_map_returns (within_banks self ram)
                (fun ri =>
                   set <- mod_ ri (dbanks self) ;;
                   Ok [ Assignment set 1 (ri + write_interfaces self) false 0 ])
                (range 0 (rn op))) as (reads & -> & Hreads).
    { intros ri Hri.
      destruct (mod_returns ri (dbanks self) ltac:(lia)) as [-> Bs]. cbn [bind].
      eexists. split; [reflexivity|]. constructor; [|constructor]. simpl. lia. }
    cbn [bind]. eexists. split; [reflexivity|].
    apply Forall_app. split; assumption. }
  destruct K6 as (k6 & -> & F6). cbn [bind].
  eexists. split; [reflexivity|].
  repeat (apply Forall_app; split); try assumption;
    constructor; try exact I; constructor.
Qed.

Lemma write_ctrl_item_returns (self : memory.t) (ram : sram.t) (s1 s2 : string)
  (it : ctrl_item) :
  emittable self ram -> within_banks self ram it ->
  exists t, write_ctrl_item self s1 s2 it = Ok t.
Proof.
  intros (Hb & Hw & Hrw & Hrwd & Hd & Hh & Hv & Hp & Hprw & _) Hit.
  destruct it as [text | d p iface w par]; simpl.
  - eexists. reflexivity.
  - simpl in Hit.
    apply (write_ctrl_assignment_returns self ram); [exact Hb | lia | lia | lia].
Qed.

Lemma math_ceil_log2_positive (n : Z) :
  0 < n -> math_ceil_log2 ceil_log2 n = Ok (ceil_log2 n).
Proof.
  intro H. unfold math_ceil_log2.
  replace (n <=? 0) with false by (symmetry; apply Z.leb_gt; exact H). reflexivity.
Qed.

Lemma concat_map_plain {A B : Type} (f : A -> result (list B)) (l : list A) :
  (forall x, In x l -> exists y, f x = Ok y) -> exists out, concat_map f l = Ok out.
Proof.
  intro H.
  destruct (concat_map_returns (fun _ => True) f l) as (out & E & _).
  - intros x Hx. destruct (H x Hx) as [y Hy]. exists y. split; [exact Hy|].
    apply Forall_forall. intros; exact I.
  - exists out. exact E.
Qed.

Lemma emittable_is_written (self : memory.t) (ram : sram.t) :
  emittable self ram -> exists text, write_verilog ceil_log2 self = Ok text.
Proof.
  intro He. pose proof He as (Hb & Hw & Hrw & Hrwd & Hd & Hh & Hv & Hp & Hprw & Hops).
  unfold write_verilog. cbv zeta.
  assert (D : exists t, write_port_declarations ceil_log2 self = Ok t).
  { unfold write_port_declarations. rewrite (math_ceil_log2_positive _ Hw).
    match goal with
    | |- exists _, bind (concat_map ?f ?l) _ = _ =>
        destruct (concat_map_plain f l) as [ws ->];
        [intros; cbn [bind]; eexists; reflexivity|]
    end.
    cbn [bind].
    match goal with
    | |- exists _, bind (concat_map ?f ?l) _ = _ =>
        destruct (concat_map_plain f l) as [rs ->];
        [intros; cbn [bind]; eexists; reflexivity|]
    end.
    cbn [bind]. eexists. reflexivity. }
  destruct D as [decl ->]. cbn [bind].
  unfold the_bank_type at 1. rewrite Hb. cbn [bind].
  rewrite (math_ceil_log2_positive _ Hrw). cbn [bind].
  rewrite (math_ceil_log2_positive (dbanks self)) by lia. cbn [bind].
  rewrite (math_ceil_log2_positive (hbanks self)) by lia. cbn [bind].
  rewrite (math_ceil_log2_positive (vbanks self)) by lia. cbn [bind].
  assert (C : exists t, write_ctrld self = Ok t).
  { unfold write_ctrld. apply concat_map_plain. intros ri _.
    destruct (dbanks self >? 1); [|eexists; reflexivity].
    destruct (mod_returns ri (dbanks self) ltac:(lia)) as [-> _]. cbn [bind].
    eexists. reflexivity. }
  destruct C as [ctrld ->]. cbn [bind].
  rewrite (math_ceil_log2_positive _ Hw). cbn [bind].
  match goal with
  | |- exists _, bind (concat_map ?f ?l) _ = _ =>
      destruct (concat_map_plain f l) as [handled ->]
  end.
  { intros op Hop. rewrite Forall_forall in Hops.
    destruct (Hops op Hop) as (Br & Bw & Bboth).
    destruct (handle_op_returns self ram op He Br Bw Bboth) as (items & -> & Hitems).
    cbn [bind]. apply concat_map_plain. intros it Hit.
    rewrite Forall_forall in Hitems.
    exact (write_ctrl_item_returns self ram _ _ it He (Hitems it Hit)). }
  cbn [bind].
  assert (R : forall s1 s2, exists t, write_readback self s1 s2 = Ok t).
  { intros s1 s2. unfold write_readback, the_bank_type. rewrite Hb. cbn [bind].
    match goal with
    | |- exists _, bind (concat_map ?f ?l) _ = _ =>
        destruct (concat_map_plain f l) as [assigns ->]
    end.
    { intros ri _. unfold readback_port, mod_.
      replace (sram.width ram =? 0) with false by (symmetry; apply Z.eqb_neq; exact Hrwd).
      replace (sram.ports ram =? 0) with false by (symmetry; apply Z.eqb_neq; lia).
      destruct (sram.ports ram =? 1); destruct (negb (need_parallel_rw self));
        cbn [bind]; eexists; reflexivity. }
    cbn [bind]. eexists. reflexivity. }
  match goal with
  | |- exists _, bind (write_readback self ?s1 ?s2) _ = _ =>
      destruct (R s1 s2) as [readback ->]
  end.
  cbn [bind].
  unfold write_bank_instances, the_bank_type. rewrite Hb. cbn [bind].
  eexists. reflexivity.
Qed.

Lemma estimate_needs_width (width wph d h : Z) (ram : sram.t) (r : Z * Z * float) :
  bank_estimate width wph d h ram = Ok r -> sram.width ram <> 0.
Proof.
  unfold bank_estimate, ceil_div, truediv. intros H E. rewrite E in H. discriminate.
Qed.

Lemma existsb_implies {A : Type} (f g : A -> bool) (l : list A) :
  (forall x, In x l -> f x = true -> g x = true) ->
  existsb f l = true -> existsb g l = true.
Proof.
  intros H E. apply existsb_exists in E. destruct E as (x & Hx & Fx).
  apply existsb_exists. exists x. split; [exact Hx | exact (H x Hx Fx)].
Qed.

Lemma planned_is_emittable (m m' : memory.t) (lib : list sram.t) :
  requested m -> words m < 2 ^ 53 ->
  Forall (fun r => 0 < sram.words r < 2 ^ 53 /\ 1 <= sram.ports r) lib ->
  gen m lib = Ok m' -> exists ram, In ram lib /\ emittable m' ram.
Proof.
  intros Hreq Hwords Hlib Hgen.
  destruct (gen_selection m m' lib Hreq Hgen)
    as (h & wph & before & ram & after & Hh & Hsame & Hw & Hl & Hb & Hsk & He & _).
  destruct (find_hbanks_sizes m h Hreq Hh) as (Ew & _ & Pw & _ & BH & BD).
  pose proof (find_hbanks_dual_port m h Hreq Hh) as Hdp.
  destruct (find_hbanks_plan m h Hreq Hh) as (Hfix & _ & _ & _ & _ & _ & _ & Hprw & _).
  destruct (requested_valid m Hreq) as [Hvalid _].
  injection Hfix as F1 F2 F3 F4.
  unfold request_of in Hsame.
  injection Hsame as E1 E2 E3 E4 E5 E6 E7 E8 E9 E10 E11 E12.
  assert (Hin : In ram lib) by (rewrite Hl; apply in_elt).
  rewrite Forall_forall in Hlib. destruct (Hlib ram Hin) as [Brw Bp].
  rewrite Forall_forall in Hvalid.
  assert (P53 : 2 ^ 53 = 9007199254740992) by reflexivity.
  assert (Hdual : need_parallel_rw h = true -> 2 <= sram.ports ram).
  { intro Hp. unfold skipped in Hsk.
    assert (Dp : need_dual_port h = true).
    { rewrite Hdp. rewrite Hprw in Hp. revert Hp. apply existsb_implies.
      intros op Hop C. apply andb_prop in C. destruct C as [C1 C2].
      apply Z.gtb_lt in C1, C2. apply Z.gtb_lt. lia. }
    rewrite Dp in Hsk. cbn [andb] in Hsk. apply Z.ltb_ge in Hsk. exact Hsk. }
  exists ram. split; [exact Hin|].
  unfold emittable. rewrite E2, E4, E8, E11, E12.
  split; [exact Hb|]. split; [exact Pw|]. split; [lia|].
  split; [exact (estimate_needs_width _ _ _ _ _ _ He)|].
  split; [lia|]. split; [lia|]. split.
  { rewrite ceil_div_ceiling in Hw by lia. injection Hw as <-.
    pose proof (ceiling_bounds (words h) (hbanks h) ltac:(lia) ltac:(lia)) as Hc.
    unfold bank_estimate in He. bind_inv He. bind_inv He.
    rewrite ceil_div_ceiling in Ha0 by lia. injection Ha0 as <-.
    bind_inv He. injection He as _ <- _.
    apply ceiling_bounds; lia. }
  split; [exact Bp|]. split; [exact Hdual|].
  rewrite F4. apply Forall_forall. intros op Hop.
  pose proof (Hvalid op Hop) as V. destruct op as [r rp0 w wp0]. simpl in V |- *.
  split; [lia|]. split; [lia|].
  intro C. apply Hdual. rewrite Hprw. apply existsb_exists.
  eexists. split; [exact Hop | exact C].
Qed.


End EmitterReturnsOnPlans.

(** ** The readers *)

Section Readers.

Import memory memory_operation.

(** A macro [parse_sram] keeps has one port or two. *)
Lemma parse_sram_ports (s : string) (ram : sram.t) :
  parse_sram s = Ok (Some ram) -> 1 <= sram.ports ram <= 2.
Proof.
  unfold parse_sram. intro H. repeat bind_inv H.
  match type of H with
  | (if ?c then _ else _) = _ => destruct c eqn:E; [discriminate|]
  end.
  injection H as <-. simpl. apply orb_false_elim in E. lia.
Qed.

Lemma read_techfile_line_adds (sram_list sram_list' : list sram.t) (ln : string) :
  read_techfile_line sram_list ln = Ok sram_list' ->
  sram_list' = sram_list \/
  (re_match_hash_dots ln = false /\
   exists ram, parse_sram ln = Ok (Some ram) /\ sram_list' = sram_list ++ [ram]).
Proof.
  unfold read_techfile_line. intro H.
  destruct (re_match_hash_dots ln); [injection H as <-; left; reflexivity|].
  bind_inv H. destruct a as [ram|]; injection H as <-.
  - right. split; [reflexivity|]. exists ram. auto.
  - left. reflexivity.
Qed.

(** The lines that are not comments. *)
Definition uncommented (fd : list string) : list string :=
  filter (fun ln => negb (re_match_hash_dots ln)) fd.

(** X17.  [read_techfile] keeps the macros it was given in front and adds, in the
    order of the file, macros with one port or two, at most one for each
    line that is not a comment. *)
Theorem read_techfile_adds_macros (fd : list string) (sram_list sram_list' : list sram.t) :
  read_techfile fd sram_list = Ok sram_list' ->
  exists added,
    sram_list' = sram_list ++ added /\
    Forall (fun ram => 1 <= sram.ports ram <= 2) added /\
    Forall (fun ram => exists ln, In ln (uncommented fd) /\ parse_sram ln = Ok (Some ram)) added /\
    (List.length added <= List.length (uncommented fd))%nat.
Proof.
  unfold read_techfile. revert sram_list.
  induction fd as [|ln fd IH]; intros sram_list H; simpl in H.
  - injection H as <-. exists []. rewrite app_nil_r.
    repeat split; try constructor.
  - bind_inv H. destruct (IH _ H) as (added & -> & P & Q & L). clear IH H.
    assert (Q' : Forall (fun ram => exists l0, In l0 (uncommented (ln :: fd))
                                                /\ parse_sram l0 = Ok (Some ram)) added).
    { eapply Forall_impl; [|exact Q]. intros ram (l0 & Hin & Hp).
      exists l0. split; [|exact Hp]. unfold uncommented in *. simpl.
      destruct (negb (re_match_hash_dots ln)); [right|]; exact Hin. }
    destruct (read_techfile_line_adds _ _ _ Ha) as [-> | (Hc & ram & Hp & ->)].
    + exists added. repeat split; try assumption.
      unfold uncommented in *. simpl.
      destruct (negb (re_match_hash_dots ln)); simpl; lia.
    + exists (ram :: added). rewrite <- app_assoc. simpl.
      split; [reflexivity|]. split; [|split].
      * constructor; [exact (parse_sram_ports _ _ Hp) | exact P].
      * constructor; [|exact Q'].
        exists ln. split; [|exact Hp]. unfold uncommented. simpl. rewrite Hc. simpl. auto.
      * unfold uncommented in *. simpl. rewrite Hc. simpl. lia.
Qed.

(** The operations of a request line, parsed one after the other. *)
Lemma parsed_operations (mem_words : Z) (tokens : list string)
  (acc out : list memory_operation.t) :
  for_each (fun mem_ops i => o <- parse_op i mem_words ;; Ok (mem_ops ++ [o])) tokens acc
  = Ok out ->
  exists ops, out = acc ++ ops /\ Forall2 (fun i o => parse_op i mem_words = Ok o) tokens ops.
Proof.
  revert acc. induction tokens as [|tk tokens IH]; intros acc H; simpl in H.
  - injection H as <-. exists []. rewrite app_nil_r. split; [reflexivity | constructor].
  - bind_inv H. bind_inv Ha. injection Ha as <-.
    destruct (IH _ H) as (ops & -> & F).
    exists (a0 :: ops). rewrite <- app_assoc. split; [reflexivity|].
    constructor; assumption.
Qed.

(** A memory as [read_infile] makes one of a line: sizes that are positive,
    at least one operation, each one let through by the parser for that
    number of words, and the defaults of the class elsewhere. *)
Definition read_from (ln : string) (mem : memory.t) : Prop :=
  exists mem_name w wd tokens,
    split ln = mem_name :: w :: wd :: tokens /\
    int w = Ok (words mem) /\ int wd = Ok (width mem) /\
    name mem = mem_name /\ 0 < words mem /\ 0 < width mem /\ ops mem <> [] /\
    Forall2 (fun i o => parse_op i (words mem) = Ok o) tokens (ops mem) /\
    mem = memory.mk mem_name (words mem) (width mem) (ops mem)
             1 1 false false 1 1 1 1 1 1 None inf.

Lemma index_split {A : Type} (l : list A) (a b c : A) :
  index l 0 = Ok a -> index l 1 = Ok b -> index l 2 = Ok c ->
  l = a :: b :: c :: skipn 3 l.
Proof.
  unfold index. destruct l as [|x [|y [|z l]]]; simpl; try discriminate.
  intros [= <-] [= <-] [= <-]. reflexivity.
Qed.

Lemma read_infile_line_adds (mem_list mem_list' : list memory.t) (ln : string) :
  read_infile_line mem_list ln = Ok mem_list' ->
  (re_match_hash_dots ln = true /\ mem_list' = mem_list) \/
  (re_match_hash_dots ln = false /\
   exists mem, read_from ln mem /\ mem_list' = mem_list ++ [mem]).
Proof.
  unfold read_infile_line. intro H.
  destruct (re_match_hash_dots ln); [injection H as <-; left; auto|].
  right. split; [reflexivity|].
  repeat bind_inv H. injection H as <-.
  rename a into mem_name, a1 into mem_words, a3 into mem_width, a4 into mem_ops, a5 into mem.
  destruct (parsed_operations _ _ _ _ Ha4) as (ops0 & E & F). simpl in E. subst mem_ops.
  unfold __init__, die_werr in Ha5.
  destruct (mem_words <=? 0) eqn:Hw; [discriminate|].
  destruct (mem_width <=? 0) eqn:Hwd; [discriminate|].
  destruct ops0 as [|o ops0]; [discriminate|]. simpl in Ha5.
  injection Ha5 as <-.
  exists (memory.mk mem_name mem_words mem_width (o :: ops0) 1 1 false false 1 1 1 1 1 1 None inf).
  split; [|reflexivity].
  exists mem_name, a0, a2, (skipn 3 (split ln)). simpl.
  split; [exact (index_split _ _ _ _ Ha Ha0 Ha2)|].
  repeat split; try assumption; try lia; discriminate.
Qed.

(** X18.  [read_infile] keeps the memories it was given in front and adds one
    memory for each line that is not a comment, in the order of the
    file. *)
Theorem read_infile_adds_memories (fd : list string) (mem_list mem_list' : list memory.t) :
  read_infile fd mem_list = Ok mem_list' ->
  exists added,
    mem_list' = mem_list ++ added /\ Forall2 read_from (uncommented fd) added.
Proof.
  unfold read_infile. revert mem_list.
  induction fd as [|ln fd IH]; intros mem_list H; simpl in H.
  - injection H as <-. exists []. rewrite app_nil_r. split; [reflexivity | constructor].
  - bind_inv H. destruct (IH _ H) as (added & -> & F). clear IH H.
    destruct (read_infile_line_adds _ _ _ Ha) as [(Hc & ->) | (Hc & mem & Hm & ->)].
    + exists added. split; [reflexivity|]. unfold uncommented in *. simpl.
      rewrite Hc. exact F.
    + exists (mem :: added). rewrite <- app_assoc. split; [reflexivity|].
      unfold uncommented in *. simpl. rewrite Hc. simpl. constructor; assumption.
Qed.

(** Text made of blanks only. *)
Fixpoint blank (s : string) : bool :=
  match s with
  | EmptyString => true
  | String c s' => isspace c && blank s'
  end.

Lemma split_ws_blank (ws s : string) :
  blank ws = true -> split_ws (ws +++ s) "" = split_ws s "".
Proof.
  induction ws as [|c ws IH]; simpl; intro H; [reflexivity|].
  apply andb_prop in H. destruct H as [Hc Hws]. rewrite Hc. exact (IH Hws).
Qed.

Lemma blank_no_hash (ws s : string) :
  blank ws = true -> re_match_hash_dots ws = false.
Proof.
  destruct ws as [|c ws]; simpl; [reflexivity|].
  intro H. apply andb_prop in H. destruct H as [Hc _].
  destruct (Ascii.eqb_spec c "#") as [->|]; [discriminate Hc | reflexivity].
Qed.

Lemma rev_string_acc (s acc : string) : rev_string s acc = rev_string s "" +++ acc.
Proof.
  revert acc. induction s as [|c s IH]; intro acc; simpl; [reflexivity|].
  rewrite IH, (IH (String c "")), append_assoc. reflexivity.
Qed.

Lemma lstrip_keeps_last (s : string) (c : ascii) :
  isspace c = false -> exists t, lstrip (s +++ String c "") = t +++ String c "".
Proof.
  intro Hc. induction s as [|d s IH]; simpl.
  - rewrite Hc. exists "". reflexivity.
  - destruct (isspace d); [exact IH|]. exists (String d s). reflexivity.
Qed.

Lemma rev_string_last (s : string) (c : ascii) (acc : string) :
  rev_string (s +++ String c "") acc = String c (rev_string s acc).
Proof.
  revert acc. induction s as [|d s IH]; intro acc; simpl; [reflexivity|].
  rewrite IH. reflexivity.
Qed.

(** [strip] keeps a first character that is not a blank. *)
Lemma strip_keeps_first (c : ascii) (s : string) :
  isspace c = false -> exists t, strip (String c s) = String c t.
Proof.
  intro Hc. unfold strip. cbn [lstrip]. rewrite Hc. cbn [rev_string].
  rewrite (rev_string_acc s (String c "")).
  destruct (lstrip_keeps_last (rev_string s "") c Hc) as [t ->].
  rewrite rev_string_last. eexists. reflexivity.
Qed.

Lemma split_ws_first (s cur : string) :
  cur <> "" -> exists t rest, split_ws s cur = (cur +++ t) :: rest.
Proof.
  revert cur. induction s as [|c s IH]; intros cur Hcur; simpl.
  - destruct cur; [congruence|]. exists "", []. rewrite append_nil_r. reflexivity.
  - destruct (isspace c).
    + destruct cur; [congruence|]. exists "", (split_ws s ""). rewrite append_nil_r.
      reflexivity.
    + destruct (IH (snoc cur c)) as (t & rest & ->).
      { unfold snoc. destruct cur; discriminate. }
      exists (String c t), rest. unfold snoc. rewrite append_assoc. reflexivity.
Qed.

(** X19.  Only a hash sign in the first column makes a comment, since the result
    of [line.strip()] is dropped.  A line of blanks, or an empty one, ends
    either reader in an [IndexError]; a comment of the library file set
    back by blanks ends [read_techfile] in a [ValueError]. *)
Theorem only_a_first_column_hash_is_a_comment (ws rest : string)
  (sram_list : list sram.t) (mem_list : list memory.t) :
  blank ws = true ->
  read_techfile_line sram_list ws = Raise IndexError /\
  read_infile_line mem_list ws = Raise IndexError /\
  (ws <> "" ->
   read_techfile_line sram_list (ws +++ String "#" rest) = Raise ValueError).
Proof.
  intro Hws.
  assert (S0 : split ws = []).
  { unfold split. rewrite <- (append_nil_r ws), split_ws_blank by exact Hws. reflexivity. }
  split; [|split].
  - unfold read_techfile_line, parse_sram.
    rewrite (blank_no_hash ws "" Hws), S0. reflexivity.
  - unfold read_infile_line.
    rewrite (blank_no_hash ws "" Hws), S0. reflexivity.
  - intro Hne. unfold read_techfile_line, parse_sram.
    assert (Hc : re_match_hash_dots (ws +++ String "#" rest) = false).
    { destruct ws as [|c ws]; [congruence|]. simpl in *.
      apply andb_prop in Hws. destruct Hws as [Hc _].
      destruct (Ascii.eqb_spec c "#") as [->|]; [discriminate Hc | reflexivity]. }
    rewrite Hc. unfold split. rewrite split_ws_blank by exact Hws.
    cbn [split_ws isspace]. change (isspace "#") with false. cbv iota.
    destruct (split_ws_first rest (snoc "" "#")) as (t & tl & ->); [discriminate|].
    cbn [index nth_error bind]. unfold int.
    change (snoc "" "#" +++ t) with (String "#" t).
    destruct (strip_keeps_first "#" t eq_refl) as [u ->].
    reflexivity.
Qed.

End Readers.

(** ** How a run ends *)

Section Exits.

Import memory memory_operation.

Variable ceil_log2 : Z -> Z.

(** A computation that does not end in [sys.exit]. *)
Definition no_exit {A : Type} (r : result A) : Prop :=
  match r with
  | Exit _ _ => False
  | _ => True
  end.

(** A computation that ends in [sys.exit] only as [die_werr] does. *)
Definition exits_as_die_werr {A : Type} (r : result A) : Prop :=
  match r with
  | Exit status message => status = 2 /\ exists text, message = "  ERROR: " +++ text
  | _ => True
  end.

Lemma no_exit_as_die_werr {A : Type} (r : result A) : no_exit r -> exits_as_die_werr r.
Proof. destruct r; simpl; tauto. Qed.

Lemma bind_no_exit {A B : Type} (c : result A) (k : A -> result B) :
  no_exit c -> (forall a, no_exit (k a)) -> no_exit (bind c k).
Proof. destruct c; simpl; auto. Qed.

Lemma bind_exits_as_die_werr {A B : Type} (c : result A) (k : A -> result B) :
  exits_as_die_werr c -> (forall a, exits_as_die_werr (k a)) ->
  exits_as_die_werr (bind c k).
Proof. destruct c; simpl; auto. Qed.

Lemma for_each_no_exit {A S : Type} (body : S -> A -> result S) (l : list A) (s : S) :
  (forall s x, no_exit (body s x)) -> no_exit (for_each body l s).
Proof.
  intro H. revert s. induction l as [|x l IH]; intro s; simpl; [exact I|].
  apply bind_no_exit; auto.
Qed.

Lemma for_each_exits_as_die_werr {A S : Type} (body : S -> A -> result S)
  (l : list A) (s : S) :
  (forall s x, exits_as_die_werr (body s x)) -> exits_as_die_werr (for_each body l s).
Proof.
  intro H. revert s. induction l as [|x l IH]; intro s; simpl; [exact I|].
  apply bind_exits_as_die_werr; auto.
Qed.

Lemma concat_map_no_exit {A B : Type} (f : A -> result (list B)) (l : list A) :
  (forall x, no_exit (f x)) -> no_exit (concat_map f l).
Proof.
  intro H. induction l as [|x l IH]; simpl; [exact I|].
  apply bind_no_exit; [apply H|]. intro y.
  apply bind_no_exit; [exact IH|]. intro ys. exact I.
Qed.

Lemma index_no_exit {A : Type} (l : list A) (i : nat) : no_exit (index l i).
Proof. unfold index. destruct (nth_error l i); exact I. Qed.

Lemma item_no_exit {A : Type} (l : list A) (i : Z) : no_exit (item l i).
Proof.
  unfold item.
  destruct ((0 <=? i) && (i <? Z.of_nat (List.length l))); [apply index_no_exit|].
  destruct ((- Z.of_nat (List.length l) <=? i) && (i <? 0)); [apply index_no_exit | exact I].
Qed.

Lemma int_no_exit (s : string) : no_exit (int s).
Proof. destruct (int_cases s) as [[z ->] | ->]; exact I. Qed.

Lemma mod_no_exit (a b : Z) : no_exit (mod_ a b).
Proof. unfold mod_. destruct (b =? 0); exact I. Qed.

Lemma truediv_no_exit (a b : Z) : no_exit (truediv a b).
Proof.
  unfold truediv. destruct (b =? 0); [exact I|]. destruct (a =? 0); [exact I|].
  destruct (SFdiv prec emax (exact a) (exact b)); exact I.
Qed.

Lemma ceil_div_no_exit (a b : Z) : no_exit (ceil_div a b).
Proof.
  unfold ceil_div. apply bind_no_exit; [apply truediv_no_exit|].
  intros [s|s| |s m e]; simpl; try exact I. destruct (0 <=? e); exact I.
Qed.

Lemma trunc_div_no_exit (a b : Z) : no_exit (trunc_div a b).
Proof.
  unfold trunc_div. apply bind_no_exit; [apply truediv_no_exit|].
  intros [s|s| |s m e]; simpl; try exact I. destruct (0 <=? e); exact I.
Qed.

Lemma mul_int_float_no_exit (n : Z) (x : float) : no_exit (mul_int_float n x).
Proof.
  unfold mul_int_float, float_of_int.
  destruct (binary_normalize prec emax n 0 false); exact I.
Qed.

Lemma float_of_string_no_exit (s : string) : no_exit (float_of_string s).
Proof.
  unfold float_of_string.
  destruct (match strip s with
            | String "+" t => (false, t)
            | String "-" t => (true, t)
            | t => (false, t)
            end) as [neg body].
  destruct (String.eqb (lower_string body) "inf" || String.eqb (lower_string body) "infinity");
    [exact I|].
  destruct (String.eqb (lower_string body) "nan"); [exact I|].
  destruct (float_number neg body); exact I.
Qed.

Lemma the_bank_type_no_exit (self : memory.t) : no_exit (the_bank_type self).
Proof. unfold the_bank_type. destruct (bank_type self); exact I. Qed.

Lemma math_ceil_log2_no_exit (n : Z) : no_exit (math_ceil_log2 ceil_log2 n).
Proof. unfold math_ceil_log2. destruct (n <=? 0); exact I. Qed.

Ltac quiet :=
  repeat first
    [ exact I
    | apply index_no_exit | apply item_no_exit | apply int_no_exit | apply mod_no_exit
    | apply ceil_div_no_exit | apply trunc_div_no_exit | apply mul_int_float_no_exit
    | apply float_of_string_no_exit | apply the_bank_type_no_exit
    | apply math_ceil_log2_no_exit
    | apply bind_no_exit; [ | intro ]
    | apply concat_map_no_exit; intro
    | apply for_each_no_exit; intros
    | match goal with
      | |- no_exit (if ?c then _ else _) => destruct c
      | |- no_exit (match ?x with _ => _ end) => destruct x
      end ].

Lemma parse_sram_no_exit (s : string) : no_exit (parse_sram s).
Proof. unfold parse_sram. quiet. Qed.

Lemma read_techfile_no_exit (fd : list string) (sram_list : list sram.t) :
  no_exit (read_techfile fd sram_list).
Proof.
  unfold read_techfile. apply for_each_no_exit. intros l ln.
  unfold read_techfile_line.
  destruct (re_match_hash_dots ln); [exact I|].
  apply bind_no_exit; [apply parse_sram_no_exit|]. intros [ram|]; exact I.
Qed.

Lemma gen_no_exit (self : memory.t) (lib : list sram.t) : no_exit (gen self lib).
Proof.
  unfold gen, __find_hbanks, __find_vbanks.
  apply bind_no_exit.
  - apply bind_no_exit; [|intro; exact I].
    apply for_each_no_exit. intros s op. unfold find_duplication, op_duplication_factor.
    quiet.
  - intro h. apply bind_no_exit.
    + apply bind_no_exit; [apply ceil_div_no_exit|]. intro wph.
      apply for_each_no_exit. intros s ram. unfold try_bank. quiet.
    + intro v. destruct (bank_type v); exact I.
Qed.

Lemma write_ctrl_assignment_no_exit (self : memory.t) (s1 s2 : string)
  (d p i : Z) (w : bool) (par : Z) :
  no_exit (__write_ctrl_assignment self s1 s2 d p i w par).
Proof. unfold __write_ctrl_assignment. quiet. Qed.

Lemma handle_op_no_exit (self : memory.t) (ram : sram.t) (op : memory_operation.t) :
  no_exit (handle_op self ram op).
Proof. unfold handle_op, write_all_sets, spread_port. quiet. Qed.

Lemma write_verilog_no_exit (self : memory.t) : no_exit (write_verilog ceil_log2 self).
Proof.
  unfold write_verilog. cbv zeta.
  apply bind_no_exit; [unfold write_port_declarations; quiet|]. intro decl.
  apply bind_no_exit; [apply the_bank_type_no_exit|]. intro ram.
  do 4 (apply bind_no_exit; [apply math_ceil_log2_no_exit|]; intro).
  apply bind_no_exit; [unfold write_ctrld; quiet|]. intro ctrld.
  apply bind_no_exit; [apply math_ceil_log2_no_exit|]. intro ww.
  apply bind_no_exit.
  { apply concat_map_no_exit. intro op.
    apply bind_no_exit; [apply handle_op_no_exit|]. intro items.
    apply concat_map_no_exit. intros [text | d p i w par]; simpl;
      [exact I | apply write_ctrl_assignment_no_exit]. }
  intro handled.
  apply bind_no_exit; [unfold write_readback, readback_port; quiet|]. intro rb.
  apply bind_no_exit; [unfold write_bank_instances; quiet|]. intro inst.
  exact I.
Qed.

Lemma parse_op_exits_as_die_werr (op : string) (mem_words : Z) :
  exits_as_die_werr (parse_op op mem_words).
Proof.
  unfold parse_op.
  repeat (apply bind_exits_as_die_werr;
          [apply no_exit_as_die_werr; first [apply index_no_exit | apply int_no_exit]|];
          intro).
  unfold die_werr.
  repeat first
    [ exact I
    | split; [reflexivity | eexists; reflexivity]
    | apply bind_exits_as_die_werr; [ | intro ]
    | match goal with
      | |- exits_as_die_werr (if ?c then _ else _) => destruct c
      end ].
Qed.

Lemma read_infile_exits_as_die_werr (fd : list string) (mem_list : list memory.t) :
  exits_as_die_werr (read_infile fd mem_list).
Proof.
  unfold read_infile. apply for_each_exits_as_die_werr. intros l ln.
  unfold read_infile_line.
  destruct (re_match_hash_dots ln); [exact I|].
  repeat (apply bind_exits_as_die_werr;
          [apply no_exit_as_die_werr; first [apply index_no_exit | apply int_no_exit]|];
          intro).
  apply bind_exits_as_die_werr.
  { apply for_each_exits_as_die_werr. intros acc tk.
    apply bind_exits_as_die_werr; [apply parse_op_exits_as_die_werr|]. intro; exact I. }
  intro mem_ops. apply bind_exits_as_die_werr; [|intro; exact I].
  unfold __init__, die_werr.
  repeat first
    [ exact I
    | split; [reflexivity | eexists; reflexivity]
    | match goal with
      | |- exits_as_die_werr (if ?c then _ else _) => destruct c
      end ].
Qed.

(** X20.  Once the command line has its two arguments, a run leaves
    through [sys.exit] only by [die_werr], with status 2 and a message that
    starts with [ERROR:], and only while the request file is read: the library reader, the planner and the emitter end either well
    or in an exception nothing catches.  The status of a run is 0, 1 or
    2. *)
Theorem a_run_exits_only_through_die_werr (tech infile : list string) :
  (forall status message,
     script ceil_log2 tech infile = Exit status message ->
     status = 2 /\ (exists text, message = "  ERROR: " +++ text) /\
     exists sram_list, read_techfile tech [] = Ok sram_list /\
                       read_infile infile [] = Exit status message) /\
  In (exit_status (script ceil_log2 tech infile)) [0; 1; 2].
Proof.
  assert (G : forall status message,
             script ceil_log2 tech infile = Exit status message ->
             status = 2 /\ (exists text, message = "  ERROR: " +++ text) /\
             exists sram_list, read_techfile tech [] = Ok sram_list /\
                               read_infile infile [] = Exit status message).
  { intros status message H. unfold script in H.
    pose proof (read_techfile_no_exit tech []) as T.
    destruct (read_techfile tech []) as [sram_list| |]; simpl in T, H;
      [|contradiction|discriminate].
    pose proof (read_infile_exits_as_die_werr infile []) as R.
    destruct (read_infile infile []) as [mem_list|st msg|]; simpl in R, H;
      [|injection H as -> ->|discriminate].
    - exfalso.
      assert (N : no_exit (for_each (generate ceil_log2 sram_list) mem_list [])).
      { apply for_each_no_exit. intros done mem. unfold generate.
        apply bind_no_exit; [apply gen_no_exit|]. intro p.
        apply bind_no_exit; [apply write_verilog_no_exit|]. intro t. exact I. }
      rewrite H in N. exact N.
    - destruct R as [-> R]. split; [reflexivity|]. split; [exact R|].
      exists sram_list. auto. }
  split; [exact G|].
  destruct (script ceil_log2 tech infile) as [files|st msg|e] eqn:E; simpl.
  - auto.
  - destruct (G st msg eq_refl) as [-> _]. auto.
  - auto.
Qed.

End Exits.

(** ** What is printed for a memory *)

Section PrintedOperations.

Import memory memory_operation.

(** Text without a blank. *)
Fixpoint unbroken (s : string) : bool :=
  match s with
  | EmptyString => true
  | String c s' => negb (isspace c) && unbroken s'
  end.

Lemma split_ws_unbroken (t s cur : string) :
  unbroken t = true -> split_ws (t +++ s) cur = split_ws s (cur +++ t).
Proof.
  revert cur. induction t as [|c t IH]; intros cur H; simpl in *.
  - rewrite append_nil_r. reflexivity.
  - apply andb_prop in H. destruct H as [Hc Ht].
    apply negb_true_iff in Hc. rewrite Hc, (IH _ Ht).
    unfold snoc. rewrite append_assoc. reflexivity.
Qed.

(** [split] undoes [" ".join] on words without blanks. *)
Lemma split_join (l : list string) :
  Forall (fun t => t <> "" /\ unbroken t = true) l ->
  split (String.concat " " l) = l.
Proof.
  unfold split. induction 1 as [|x l [Hne Hx] Hl IH]; [reflexivity|].
  destruct l as [|y l].
  - simpl.
    replace (split_ws x "") with (split_ws (x +++ "") "")
      by (rewrite append_nil_r; reflexivity).
    rewrite split_ws_unbroken by exact Hx.
    simpl. destruct x; [congruence | reflexivity].
  - change (String.concat " " (x :: y :: l))
      with (x +++ String " " (String.concat " " (y :: l))).
    rewrite split_ws_unbroken by exact Hx. cbn [String.append split_ws].
    change (isspace " ") with true. cbv iota.
    destruct x; [congruence|]. rewrite IH. reflexivity.
Qed.

Definition is_word (s : string) : bool :=
  negb (String.eqb s "") && unbroken s.

Lemma small_operations_words :
  forallb (fun op => is_word (__str__ op)) small_operations = true.
Proof. vm_compute. reflexivity. Qed.

Lemma str_word (op : memory_operation.t) :
  valid_op op -> __str__ op <> "" /\ unbroken (__str__ op) = true.
Proof.
  intro Hv.
  assert (Hr : 0 <= rn op <= 16) by (destruct op; simpl in *; tauto).
  assert (Hw : 0 <= wn op <= 16) by (destruct op; simpl in *; tauto).
  pose proof small_operations_words as H.
  rewrite forallb_forall in H. specialize (H op (small_operation op Hr Hw)).
  unfold is_word in H. apply andb_prop in H. destruct H as [H1 H2].
  split; [|exact H2]. intro E. rewrite E in H1. discriminate.
Qed.


End PrintedOperations.

(** ** Blanks before the data of a line *)

Section LeadingBlanks.

Lemma blank_prefix_no_hash (ws s : string) :
  blank ws = true -> re_match_hash_dots s = false ->
  re_match_hash_dots (ws +++ s) = false.
Proof.
  intros Hws Hs. destruct ws as [|c ws]; [exact Hs|]. simpl in *.
  apply andb_prop in Hws. destruct Hws as [Hc _].
  destruct (Ascii.eqb_spec c "#") as [->|]; [discriminate Hc | reflexivity].
Qed.

(** X22.  Blanks in front of a line that is not a comment change nothing to
    what either reader makes of it. *)
Theorem leading_blanks_are_ignored (ws ln : string)
  (sram_list : list sram.t) (mem_list : list memory.t) :
  blank ws = true -> re_match_hash_dots ln = false ->
  parse_sram (ws +++ ln) = parse_sram ln /\
  read_techfile_line sram_list (ws +++ ln) = read_techfile_line sram_list ln /\
  read_infile_line mem_list (ws +++ ln) = read_infile_line mem_list ln.
Proof.
  intros Hws Hln.
  assert (S : split (ws +++ ln) = split ln) by (apply split_ws_blank; exact Hws).
  pose proof (blank_prefix_no_hash ws ln Hws Hln) as Hc.
  assert (P : parse_sram (ws +++ ln) = parse_sram ln)
    by (unfold parse_sram; rewrite S; reflexivity).
  split; [exact P|]. split.
  - unfold read_techfile_line. rewrite Hc, Hln, P. reflexivity.
  - unfold read_infile_line. rewrite Hc, Hln, S. reflexivity.
Qed.

End LeadingBlanks.

(** ** The calls of the control block *)

Section ControlCalls.

Import memory memory_operation Selection.

(** A call for a set and a port the banks have, on an interface of the
    operation: one of its writes, or one of its reads, which are numbered
    after the write interfaces of the memory. *)
Definition call_of (self : memory.t) (ram : sram.t) (op : memory_operation.t)
  (it : ctrl_item) : Prop :=
  match it with
  | Comment _ => True
  | Assignment d p iface is_write _ =>
      0 <= d < dbanks self /\ 0 <= p < sram.ports ram /\
      if is_write then 0 <= iface < wn op
      else write_interfaces self <= iface < write_interfaces self + rn op
  end.

Lemma concat_map_forall {A B : Type} (P : B -> Prop) (f : A -> result (list B))
  (l : list A) (out : list B) :
  (forall x y, In x l -> f x = Ok y -> Forall P y) ->
  concat_map f l = Ok out -> Forall P out.
Proof.
  revert out. induction l as [|x l IH]; intros out H E; simpl in E.
  - injection E as <-. constructor.
  - bind_inv E. bind_inv E. injection E as <-.
    apply Forall_app. split; [exact (H x a (or_introl eq_refl) Ha)|].
    apply (IH a0); [|exact Ha0]. intros x' y' Hin. apply H. right. exact Hin.
Qed.

Lemma mod_within (a b r : Z) : mod_ a b = Ok r -> 0 < b -> 0 <= r < b.
Proof.
  intros H Hb. unfold mod_ in H. destruct (b =? 0); [discriminate|].
  injection H as <-. apply Z.mod_pos_bound. exact Hb.
Qed.

Lemma spread_port_within (i banks ports p : Z) :
  spread_port i banks ports = Ok p -> 0 < ports -> 0 <= p < ports.
Proof.
  intros H Hp. unfold spread_port in H. bind_inv H. bind_inv H.
  exact (mod_within _ _ _ H Hp).
Qed.

Lemma write_all_sets_calls (self : memory.t) (ram : sram.t) (op : memory_operation.t)
  (port : Z -> result Z) (parallelism : Z) (items : list ctrl_item) :
  (forall wi p, port wi = Ok p -> 0 <= p < sram.ports ram) ->
  write_all_sets self op port parallelism = Ok items ->
  Forall (call_of self ram op) items.
Proof.
  intros Hport. unfold write_all_sets. apply concat_map_forall.
  intros d y Hd E. apply range_in in Hd. bind_inv E. injection E as <-.
  constructor; [exact I|]. revert Ha. apply concat_map_forall.
  intros wi z Hwi E. apply range_in in Hwi. bind_inv E. injection E as <-.
  constructor; [|constructor]. simpl. pose proof (Hport _ _ Ha). lia.
Qed.

Lemma handle_op_calls (self : memory.t) (ram : sram.t) (op : memory_operation.t)
  (items : list ctrl_item) :
  1 <= dbanks self -> 1 <= sram.ports ram ->
  (need_parallel_rw self = true -> 2 <= sram.ports ram) ->
  ((rn op >? 0) && (wn op >? 0) = true -> 2 <= sram.ports ram) ->
  handle_op self ram op = Ok items -> Forall (call_of self ram op) items.
Proof.
  intros Hd Hp Hprw Hboth H. unfold handle_op in H.
  bind_inv H. rename a into k1, Ha into K1.
  bind_inv H. rename a into k2, Ha into K2.
  bind_inv H. rename a into k3, Ha into K3.
  bind_inv H. rename a into k4, Ha into K4.
  bind_inv H. rename a into k5, Ha into K5.
  bind_inv H. rename a into k6, Ha into K6.
  injection H as <-.
  assert (Hnil : Forall (call_of self ram op) []) by constructor.
  assert (F1 : Forall (call_of self ram op) k1).
  { destruct (pattern_eqb (wp op) unknown && (wn op =? 2));
      [|injection K1 as <-; exact Hnil].
    revert K1. apply write_all_sets_calls. intros wi p E.
    exact (mod_within _ _ _ E ltac:(lia)). }
  assert (F2 : Forall (call_of self ram op) k2).
  { destruct ((rn op =? 0) && pattern_eqb (wp op) modulo);
      [|injection K2 as <-; exact Hnil].
    revert K2. apply write_all_sets_calls. intros wi p E.
    destruct (negb (need_parallel_rw self)).
    - exact (spread_port_within _ _ _ _ E ltac:(lia)).
    - injection E as <-. lia. }
  assert (F3 : Forall (call_of self ram op) k3).
  { destruct ((wn op =? 0) && pattern_eqb (rp op) modulo);
      [|injection K3 as <-; exact Hnil].
    bind_inv K3. injection K3 as <-. constructor; [exact I|].
    revert Ha. apply concat_map_forall.
    intros ri y Hri E. apply range_in in Hri. bind_inv E. injection E as <-.
    constructor; [|constructor]. simpl.
    destruct (need_parallel_rw self) eqn:Eprw; cbn [negb] in Ha.
    + injection Ha as <-. specialize (Hprw eq_refl). lia.
    + pose proof (spread_port_within _ _ _ _ Ha ltac:(lia)). lia. }
  assert (F4 : Forall (call_of self ram op) k4).
  { destruct ((wn op >? 0) && (rn op >? 0) && pattern_eqb (wp op) modulo
              && pattern_eqb (rp op) modulo) eqn:C;
      [|injection K4 as <-; exact Hnil].
    assert (P2 : 2 <= sram.ports ram).
    { apply Hboth. apply andb_prop in C. destruct C as [C _].
      apply andb_prop in C. destruct C as [C _].
      apply andb_prop in C. destruct C as [C1 C2]. rewrite C1, C2. reflexivity. }
    bind_inv K4. injection K4 as <-.
    apply Forall_app. split.
    - revert Ha. apply write_all_sets_calls. intros wi p [= <-]. lia.
    - constructor; [exact I|]. apply Forall_forall. intros it Hit.
      apply in_map_iff in Hit. destruct Hit as (ri & <- & Hri).
      apply range_in in Hri. simpl. lia. }
  assert (F5 : Forall (call_of self ram op) k5).
  { destruct ((rn op >? 1) && (wn op =? 0) && pattern_eqb (rp op) unknown);
      [|injection K5 as <-; exact Hnil].
    revert K5. apply concat_map_forall.
    intros ri y Hri E. apply range_in in Hri.
    bind_inv E. bind_inv E. injection E as <-.
    constructor; [|constructor]. simpl.
    pose proof (spread_port_within _ _ _ _ Ha ltac:(lia)).
    pose proof (mod_within _ _ _ Ha0 ltac:(lia)). lia. }
  assert (F6 : Forall (call_of self ram op) k6).
  { destruct ((rn op >? 1) && (wn op >? 0) && pattern_eqb (rp op) unknown
              && pattern_eqb (wp op) modulo) eqn:C;
      [|injection K6 as <-; exact Hnil].
    assert (P2 : 2 <= sram.ports ram).
    { apply Hboth. apply andb_prop in C. destruct C as [C _].
      apply andb_prop in C. destruct C as [C _].
      apply andb_prop in C. destruct C as [C1 C2]. rewrite C2.
      replace (rn op >? 0) with true; [reflexivity|].
      symmetry. apply Z.gtb_lt. apply Z.gtb_lt in C1. lia. }
    bind_inv K6. bind_inv K6. injection K6 as <-.
    apply Forall_app. split.
    - revert Ha. apply write_all_sets_calls. intros wi p [= <-]. lia.
    - revert Ha0. apply concat_map_forall.
      intros ri y Hri E. apply range_in in Hri.
      bind_inv E. injection E as <-.
      constructor; [|constructor]. simpl.
      pose proof (mod_within _ _ _ Ha0 ltac:(lia)). lia. }
  cbn [app]. constructor; [exact I|].
  repeat (apply Forall_app; split; [assumption|]).
  constructor; [exact I | constructor].
Qed.

(** X23.  In the control block of a planned memory, every call of
    [__write_ctrl_assignment] is for a duplicated set and a port the banks
    have, on an interface the module declares: a write interface for a
    write, a read interface for a read. *)
Theorem control_block_stays_within_the_memory (m m' : memory.t) (lib : list sram.t)
  (ram : sram.t) (op : memory_operation.t) (items : list ctrl_item) :
  requested m -> gen m lib = Ok m' -> bank_type m' = Some ram ->
  1 <= sram.ports ram -> In op (ops m') ->
  handle_op m' ram op = Ok items ->
  Forall (fun it =>
            match it with
            | Comment _ => True
            | Assignment d p iface is_write _ =>
                0 <= d < dbanks m' /\ 0 <= p < sram.ports ram /\
                if is_write then 0 <= iface < write_interfaces m'
                else write_interfaces m' <= iface
                     < write_interfaces m' + read_interfaces m'
            end) items.
Proof.
  intros Hreq Hgen Hram Hp Hop Hitems.
  destruct (gen_selection m m' lib Hreq Hgen)
    as (h & wph & before & r0 & after & Hh & Hsame & _ & _ & Hb & Hsk & _).
  rewrite Hram in Hb. injection Hb as <-.
  destruct (find_hbanks_sizes m h Hreq Hh) as (_ & _ & _ & _ & _ & BD).
  pose proof (find_hbanks_dual_port m h Hreq Hh) as Hdp.
  destruct (find_hbanks_plan m h Hreq Hh) as (Hfix & _ & _ & _ & _ & HR & HW & Hprw & _).
  injection Hfix as F1 F2 F3 F4.
  unfold request_of in Hsame.
  injection Hsame as E1 E2 E3 E4 E5 E6 E7 E8 E9 E10 E11 E12.
  rewrite E4, F4 in Hop.
  assert (Hdual : need_parallel_rw h = true -> 2 <= sram.ports ram).
  { intro Hq. unfold skipped in Hsk.
    assert (Dp : need_dual_port h = true).
    { rewrite Hdp. rewrite Hprw in Hq. revert Hq. apply existsb_implies.
      intros o Ho C. apply andb_prop in C. destruct C as [C1 C2].
      apply Z.gtb_lt in C1, C2. apply Z.gtb_lt. lia. }
    rewrite Dp in Hsk. cbn [andb] in Hsk. apply Z.ltb_ge in Hsk. exact Hsk. }
  assert (Hboth : (rn op >? 0) && (wn op >? 0) = true -> 2 <= sram.ports ram).
  { intro C. apply Hdual. rewrite Hprw. apply existsb_exists.
    exists op. split; assumption. }
  pose proof (handle_op_calls m' ram op items ltac:(lia) Hp
                ltac:(rewrite E8; exact Hdual) Hboth Hitems) as Hcalls.
  destruct (fold_max_bounds rn (ops m) 1) as (_ & R2 & _).
  destruct (fold_max_bounds wn (ops m) 1) as (_ & W2 & _).
  cbv zeta in R2, W2. specialize (R2 op Hop). specialize (W2 op Hop).
  eapply Forall_impl; [|exact Hcalls].
  intros [text | d p i w par]; simpl; [tauto|].
  rewrite E5, E6, HR, HW. destruct w; lia.
Qed.

End ControlCalls.

(** ** The whole run *)

Section WholeRun.

Import memory memory_operation.

Variable ceil_log2 : Z -> Z.

Lemma read_techfile_ports (fd : list string) (sram_list sram_list' : list sram.t) :
  Forall (fun r => 1 <= sram.ports r <= 2) sram_list ->
  read_techfile fd sram_list = Ok sram_list' ->
  Forall (fun r => 1 <= sram.ports r <= 2) sram_list'.
Proof.
  unfold read_techfile. revert sram_list.
  induction fd as [|ln fd IH]; intros sram_list Hall H; simpl in H.
  - injection H as <-. exact Hall.
  - bind_inv H. apply (IH a); [|exact H].
    destruct (read_techfile_line_adds _ _ _ Ha) as [-> | (_ & ram & Hp & ->)];
      [exact Hall|].
    apply Forall_app. split; [exact Hall|].
    constructor; [exact (parse_sram_ports _ _ Hp) | constructor].
Qed.

Lemma generate_loop (lib : list sram.t) (mems : list memory.t)
  (done : list (memory.t * list string)) :
  Forall (fun mem => exists m' text, gen mem lib = Ok m'
                                     /\ write_verilog ceil_log2 m' = Ok text) mems ->
  exists outs,
    for_each (generate ceil_log2 lib) mems done = Ok (done ++ outs) /\
    Forall2 (fun mem out => gen mem lib = Ok (fst out)
                            /\ write_verilog ceil_log2 (fst out) = Ok (snd out))
            mems outs.
Proof.
  intro H. revert done. induction H as [|mem mems (m' & text & Hg & Hw) _ IH]; intro done.
  - exists []. rewrite app_nil_r. split; [reflexivity | constructor].
  - simpl. unfold generate at 1. rewrite Hg. cbn [bind]. rewrite Hw. cbn [bind].
    destruct (IH (done ++ [(m', text)])) as (outs & -> & F).
    exists ((m', text) :: outs). rewrite <- app_assoc. split; [reflexivity|].
    constructor; [simpl; auto | exact F].
Qed.


End WholeRun.

(** ** The properties at work *)

Section Instances.

Import memory memory_operation Selection Scenario.

Lemma request_0w_4r_requested : requested request_0w_4r.
Proof.
  exists "M", 2048, 32, ops_0w_4r. split; [reflexivity|].
  constructor; [exists "0w:4r"; reflexivity|]. constructor.
Defined.

Lemma request_mixed_requested : requested request_mixed.
Proof.
  exists "M", 4096, 32, ops_mixed. split; [reflexivity|].
  constructor; [exists "2w:4r"; reflexivity|].
  constructor; [exists "0w:6ru"; reflexivity|]. constructor.
Defined.

(** [0w:4r] in a memory of 2048 words. *)
Lemma parse_op_of_str_witness :
  parse_op (__str__ (memory_operation.mk 4 modulo 0 modulo)) 2048
  = Ok (memory_operation.mk 4 modulo 0 modulo) /\
  forall op', valid_op op' ->
    __str__ op' = __str__ (memory_operation.mk 4 modulo 0 modulo) ->
    op' = memory_operation.mk 4 modulo 0 modulo.
Proof.
  apply (parse_op_of_str (memory_operation.mk 4 modulo 0 modulo) 2048).
  - simpl. repeat split; try lia; try reflexivity; intros; discriminate.
  - simpl. lia.
  - simpl. lia.
Defined.

(** [2w:4r] in a memory of 4096 words. *)
Lemma parse_op_accepts_witness :
  0 <= 4 <= 16 /\ 0 <= 2 <= 16 /\ 4 <= 4096 /\ 2 <= 4096 /\
  (modulo = modulo -> 4 = 0 \/ exists k, 0 <= k /\ 4 = 2 ^ k) /\
  (modulo = modulo -> 2 = 0 \/ exists k, 0 <= k /\ 2 = 2 ^ k) /\
  (modulo = unknown -> 2 <= 2 /\ (2 = 2 -> 4 = 0)).
Proof.
  apply (parse_op_accepts "2w:4r" 4096 (memory_operation.mk 4 modulo 2 modulo)).
  reflexivity.
Defined.

(** The token [4r]. *)
Lemma parse_op_without_colon_witness :
  parse_op "4r" 1024 = Raise ValueError \/ parse_op "4r" 1024 = Raise IndexError.
Proof. apply (parse_op_without_colon "4r" 1024). reflexivity. Defined.

(** [M 2048 32 0w:4r]: dual-port banks, no parallel read and write. *)
Lemma planned_port_needs_witness :
  need_dual_port plan_0w_4r = existsb (fun op => rn op + wn op >? 1) (ops plan_0w_4r) /\
  need_parallel_rw plan_0w_4r
  = existsb (fun op => (rn op >? 0) && (wn op >? 0)) (ops plan_0w_4r).
Proof.
  apply (planned_port_needs request_0w_4r plan_0w_4r library).
  - exact request_0w_4r_requested.
  - vm_compute. reflexivity.
Defined.

(** [M 4096 32 2w:4r 0w:6ru]: three duplicated sets of four banks. *)
Lemma planned_banks_in_range_witness :
  1 <= read_interfaces plan_mixed <= 16 /\ 1 <= write_interfaces plan_mixed <= 16 /\
  dbanks plan_mixed = duplication_factor plan_mixed /\
  hbanks plan_mixed = distribution_factor plan_mixed /\
  1 <= dbanks plan_mixed <= 16 /\ In (hbanks plan_mixed) [1; 2; 4; 8; 16].
Proof.
  apply (planned_banks_in_range request_mixed plan_mixed library).
  - exact request_mixed_requested.
  - vm_compute. reflexivity.
Defined.

(** [0w:6ru]: three copies. *)
Lemma duplication_is_for_reads_witness :
  op_duplication_factor (memory_operation.mk 6 unknown 0 modulo) = Ok 3.
Proof.
  rewrite (duplication_is_for_reads (memory_operation.mk 6 unknown 0 modulo)).
  - reflexivity.
  - simpl. repeat split; try lia; try reflexivity; intros; discriminate.
Defined.

(** 2048 words over 3 banks. *)
Lemma division_idioms_are_exact_witness :
  ceil_div 2048 3 = Ok (ceiling 2048 3) /\ trunc_div 2048 3 = Ok (2048 / 3) /\
  3 * (ceiling 2048 3 - 1) < 2048 <= 3 * ceiling 2048 3.
Proof.
  apply (division_idioms_are_exact 2048 3); split; reflexivity || (intro; discriminate).
Defined.

(** Interface 1 on two banks, and interface 3 with it. *)
Lemma spread_port_on_two_ports_witness :
  spread_port 1 2 2 = Ok ((1 / 2 + 1) mod 2) /\
  (Z.even 2 = true ->
   exists p p', spread_port 1 2 2 = Ok p /\ spread_port (1 + 2) 2 2 = Ok p' /\ p + p' = 1) /\
  (2 = 1 -> spread_port 1 2 2 = Ok 0).
Proof.
  apply (spread_port_on_two_ports 1 2); reflexivity || (intro; discriminate).
Defined.

(** [M 2048 32 0w:4r] on the dual-port macro of 1024 words of 32 bits. *)
Lemma planned_banks_hold_the_memory_witness :
  1 <= hhbanks plan_0w_4r /\ 1 <= vbanks plan_0w_4r /\
  (hhbanks plan_0w_4r - 1) * sram.width dual_port < width plan_0w_4r
  <= hhbanks plan_0w_4r * sram.width dual_port /\
  hbanks plan_0w_4r * (vbanks plan_0w_4r - 1) * sram.words dual_port < words plan_0w_4r
  /\ words plan_0w_4r <= hbanks plan_0w_4r * vbanks plan_0w_4r * sram.words dual_port.
Proof.
  apply (planned_banks_hold_the_memory request_0w_4r plan_0w_4r library dual_port).
  - exact request_0w_4r_requested.
  - vm_compute. reflexivity.
  - reflexivity.
  - reflexivity.
  - reflexivity.
  - split; reflexivity.
  - split; reflexivity.
Defined.

Lemma planned_area_is_below_infinity_witness :
  SFltb (area plan_0w_4r) inf = true /\ area plan_0w_4r <> inf
  /\ area plan_0w_4r <> S754_nan.
Proof.
  apply (planned_area_is_below_infinity request_0w_4r plan_0w_4r library).
  - exact request_0w_4r_requested.
  - vm_compute. reflexivity.
Defined.

(** [M 2048 32 0w:4r] with the single-port macro alone. *)
Lemma gen_without_usable_macro_witness :
  gen request_0w_4r [single_port] = Raise AttributeError /\
  exit_status (gen request_0w_4r [single_port]) = 1.
Proof.
  apply (gen_without_usable_macro request_0w_4r [single_port]).
  - exact request_0w_4r_requested.
  - reflexivity.
  - constructor; [|constructor]. split; reflexivity.
Defined.

(** [M 1024 32 1w:0r] with the dual-port macro, then with the single-port
    macro behind it. *)
Lemma more_macros_never_cost_area_witness :
  SFltb area_1_8 area_1_0 = false.
Proof.
  apply (more_macros_never_cost_area request_1w_0r
           (memory.mk "M" 1024 32 ops_1w_0r 1 1 false false 1 1 1 1 1 1
              (Some dual_port) area_1_8)
           plan_1w_0r [dual_port] [single_port]).
  - vm_compute. reflexivity.
  - vm_compute. reflexivity.
Defined.

(** The library in both orders. *)
Lemma area_is_independent_of_library_order_witness :
  SFeqb (area plan_0w_4r) (area plan_0w_4r) = true.
Proof.
  apply (area_is_independent_of_library_order request_0w_4r plan_0w_4r plan_0w_4r
           [single_port; dual_port] [dual_port; single_port]).
  - exact request_0w_4r_requested.
  - intro r. simpl. tauto.
  - vm_compute. reflexivity.
  - vm_compute. reflexivity.
Defined.

(** The read interface 1 of [M 2048 32 0w:4r], on port 0 of set 0. *)
Lemma write_ctrl_assignment_text_witness :
  __write_ctrl_assignment plan_0w_4r "[10:1]" "[32 * (hh + 1) - 1:32 * hh]" 0 0 1 false 4
  = Ok [ line "          if (h % 2 == 0) begin";
         line "            if (ctrlh[1] == h && ctrlv[1] == v && M_CE1 == 1'b1) begin";
         line "// synthesis translate_off";
         line "              check_access(1, 0, h, v, hh, 0);";
         line "// synthesis translate_on";
         line "              bank_CE[0][h][v][hh][0]  = M_CE1;";
         line "              bank_A[0][h][v][hh][0]   = M_A1[10:1];";
         line "            end";
         line "          end" ].
Proof.
  rewrite (write_ctrl_assignment_text plan_0w_4r dual_port).
  - reflexivity.
  - reflexivity.
  - right. discriminate.
  - discriminate.
  - discriminate.
  - discriminate.
  - discriminate.
Defined.


(** The two lines of the library. *)
Lemma read_techfile_adds_macros_witness :
  exists added,
    library = [] ++ added /\
    Forall (fun ram => 1 <= sram.ports ram <= 2) added /\
    Forall (fun ram => exists ln, In ln (uncommented tech)
                                  /\ parse_sram ln = Ok (Some ram)) added /\
    (List.length added <= List.length (uncommented tech))%nat.
Proof.
  apply (read_techfile_adds_macros tech [] library). vm_compute. reflexivity.
Defined.

(** A comment, then [M 2048 32 0w:4r]. *)
Lemma read_infile_adds_memories_witness :
  exists added,
    [request_0w_4r] = [] ++ added /\
    Forall2 read_from (uncommented [line "# memories"; line "M 2048 32 0w:4r"]) added.
Proof.
  apply (read_infile_adds_memories [line "# memories"; line "M 2048 32 0w:4r"] []
           [request_0w_4r]).
  vm_compute. reflexivity.
Defined.

(** A line of one blank, and a comment behind one blank. *)
Lemma only_a_first_column_hash_is_a_comment_witness :
  read_techfile_line [] " " = Raise IndexError /\
  read_infile_line [] " " = Raise IndexError /\
  (" " <> "" -> read_techfile_line [] (" " +++ String "#" " library") = Raise ValueError).
Proof.
  apply (only_a_first_column_hash_is_a_comment " " " library" [] []). reflexivity.
Defined.


(** A line of the library set back by two blanks. *)
Lemma leading_blanks_are_ignored_witness :
  parse_sram ("  " +++ "1024 32 sram_sp 1.0 1") = parse_sram "1024 32 sram_sp 1.0 1" /\
  read_techfile_line [] ("  " +++ "1024 32 sram_sp 1.0 1")
  = read_techfile_line [] "1024 32 sram_sp 1.0 1" /\
  read_infile_line [] ("  " +++ "1024 32 sram_sp 1.0 1")
  = read_infile_line [] "1024 32 sram_sp 1.0 1".
Proof.
  apply (leading_blanks_are_ignored "  " "1024 32 sram_sp 1.0 1" [] []); reflexivity.
Defined.

(** The calls for [0w:4r] in [M 2048 32 0w:4r]. *)
Definition calls_0w_4r : list ctrl_item :=
  match handle_op plan_0w_4r dual_port (memory_operation.mk 4 modulo 0 modulo) with
  | Ok items => items
  | _ => []
  end.

Lemma control_block_stays_within_the_memory_witness :
  Forall (fun it =>
            match it with
            | Comment _ => True
            | Assignment d p iface is_write _ =>
                0 <= d < dbanks plan_0w_4r /\ 0 <= p < sram.ports dual_port /\
                if is_write then 0 <= iface < write_interfaces plan_0w_4r
                else write_interfaces plan_0w_4r <= iface
                     < write_interfaces plan_0w_4r + read_interfaces plan_0w_4r
            end) calls_0w_4r.
Proof.
  apply (control_block_stays_within_the_memory request_0w_4r plan_0w_4r library
           dual_port (memory_operation.mk 4 modulo 0 modulo)).
  - exact request_0w_4r_requested.
  - vm_compute. reflexivity.
  - reflexivity.
  - discriminate.
  - left. reflexivity.
  - vm_compute. reflexivity.
Defined.


End Instances.
